(** * komojini-comfyui-nodes: the video loader's sampling and resize core

    A shallow embedding of [nodes/video_loaders.py]: the size resolver
    [target_size], the frame sampler [process_video_cap] (its planning
    arithmetic and its acquisition loop) and the entry point
    [load_video_cv], followed by the properties the specification states
    about them.

    Python's [int] is unbounded and is modelled by [Z]; Python's [float]
    is IEEE-754 binary64 and is modelled by the Standard Library's
    executable specification [spec_float] at precision 53 and maximal
    exponent 1024, so that every concrete run below is evaluated with the
    rounding the interpreter performs.  The statements that hold for
    every source rate are proved from the real value of a float and the
    relative error 2^-52 of one rounding. *)

From Stdlib Require Import ZArith Lia List String Ascii Bool SpecFloat.
From Stdlib Require Import Sorted Permutation.
From Stdlib Require Import Reals Lra.
Import ListNotations.
Local Open Scope Z_scope.

(** ** Exceptions and results *)

(** The exceptions the modelled code can raise.  [ValueError] and
    [RuntimeError] carry the message of the [raise] statement (or a short
    tag for the built-in conversions). *)
Inductive exn : Type :=
| ZeroDivisionError
| OverflowError
| IndexError
| ValueError (msg : string)
| RuntimeError (msg : string).

(** The outcome of running a piece of the program: a value, a raised
    exception, or [NoFuel] when the bounded unrolling of [while True] was
    too short (shown below never to happen for [process_video_cap]). *)
Inductive result (A : Type) : Type :=
| Ok (a : A)
| Raise (e : exn)
| NoFuel.

Arguments Ok {A} a.
Arguments Raise {A} e.
Arguments NoFuel {A}.

Definition bind {A B : Type} (r : result A) (k : A -> result B) : result B :=
  match r with
  | Ok a => k a
  | Raise e => Raise e
  | NoFuel => NoFuel
  end.

Notation "x <- c ;; k" := (bind c (fun x => k))
  (at level 61, c at next level, right associativity).
Notation "' p <- c ;; k" := (bind c (fun x => let 'p := x in k))
  (at level 61, p pattern, c at next level, right associativity).

(** ** Python numbers *)

(** [a // b] and [a % b] on integers: floor division and its remainder,
    which is what [Z.div] and [Z.modulo] compute; a zero divisor raises. *)
Definition py_floordiv (a b : Z) : result Z :=
  if b =? 0 then Raise ZeroDivisionError else Ok (a / b).

Definition py_mod (a b : Z) : result Z :=
  if b =? 0 then Raise ZeroDivisionError else Ok (a mod b).

Module PyFloat.

Definition prec : Z := 53.
Definition emax : Z := 1024.

Definition float : Type := spec_float.

Definition zero : float := S754_zero false.

(** [float(z)] as performed implicitly when an [int] meets a [float]:
    round to nearest even, [OverflowError] when out of range. *)
Definition of_int (z : Z) : result float :=
  match binary_normalize prec emax z 0 false with
  | S754_infinity _ => Raise OverflowError
  | x => Ok x
  end.

(** [a / b] on two integers: the correctly rounded quotient. *)
Definition truediv_int (a b : Z) : result float :=
  match a, b with
  | _, Z0 => Raise ZeroDivisionError
  | Z0, Zpos _ => Ok (S754_zero false)
  | Z0, Zneg _ => Ok (S754_zero true)
  | Zpos x, Zpos y | Zneg x, Zneg y =>
      match SFdiv prec emax (S754_finite false x 0) (S754_finite false y 0) with
      | S754_infinity _ => Raise OverflowError
      | q => Ok q
      end
  | Zpos x, Zneg y | Zneg x, Zpos y =>
      match SFdiv prec emax (S754_finite true x 0) (S754_finite false y 0) with
      | S754_infinity _ => Raise OverflowError
      | q => Ok q
      end
  end.

Definition sub (x y : float) : float := SFsub prec emax x y.
Definition add (x y : float) : float := SFadd prec emax x y.
Definition mul (x y : float) : float := SFmul prec emax x y.

(** [x * n] and [n * x] with [n] an integer. *)
Definition mul_int (x : float) (n : Z) : result float :=
  f <- of_int n ;; Ok (mul x f).

Definition int_mul (n : Z) (x : float) : result float :=
  f <- of_int n ;; Ok (mul f x).

(** [x + n] with [n] an integer. *)
Definition add_int (x : float) (n : Z) : result float :=
  f <- of_int n ;; Ok (add x f).

(** [x >= y]; false as soon as one side is NaN. *)
Definition ge (x y : float) : bool := SFleb y x.
Definition lt (x y : float) : bool := SFltb x y.

(** Truth value of a float: false exactly for the two zeros. *)
Definition truthy (x : float) : bool :=
  match x with S754_zero _ => false | _ => true end.

(** [int(x)]: truncation toward zero. *)
Definition to_int (x : float) : result Z :=
  match x with
  | S754_zero _ => Ok 0
  | S754_finite s m e => Ok (cond_Zopp s (Z.shiftl (Zpos m) e))
  | S754_infinity _ => Raise OverflowError
  | S754_nan => Raise (ValueError "cannot convert float NaN to integer")
  end.

(** The float written as the integer literal [z] (exact below 2^53). *)
Definition lit (z : Z) : float := binary_normalize prec emax z 0 false.

End PyFloat.

Definition float : Type := PyFloat.float.

(** ** The sampling planner (lines 74-99 of [process_video_cap]) *)

(** What [process_video_cap] reads from the capture before planning, each
    value already passed through [int(...)]. *)
Module SourceMeta.
Record t : Type := {
  fps : Z;
  width : Z;
  height : Z;
  frame_count : Z
}.
End SourceMeta.

(** The local variables of [process_video_cap] once line 99 is reached. *)
Module SamplingPlan.
Record t : Type := {
  frame_load_cap : Z;           (* after the default of line 79 *)
  end_sec : float;              (* after the default of line 82 *)
  original_frame_length : Z;
  step : Z;
  new_fps : Z;
  start_frame : float;
  end_frame : float;
  warned : bool                 (* whether [logger.warning] was called *)
}.
End SamplingPlan.

(** Line 78-79. *)
Definition effective_cap (frame_load_cap : Z) : Z :=
  if frame_load_cap <=? 0 then 999999 else frame_load_cap.

(** Line 81-82. *)
Definition effective_end_sec (m : SourceMeta.t) (end_sec : float) : result float :=
  if PyFloat.truthy end_sec then Ok end_sec
  else PyFloat.truediv_int (SourceMeta.frame_count m) (SourceMeta.fps m).

(** [step / max_fps * new_fps], the float of lines 93 and 94. *)
Definition clamp_ratio (step max_fps new_fps : Z) : result float :=
  q <- PyFloat.truediv_int step max_fps ;;
  PyFloat.mul_int q new_fps.

(** The test of line 91, [max_fps and 0 < max_fps < new_fps]; [None] is
    the default of the parameter and is falsy, like [0]. *)
Definition clamp_applies (max_fps : option Z) (new_fps : Z) : bool :=
  match max_fps with
  | None => false
  | Some m => negb (m =? 0) && ((0 <? m) && (m <? new_fps))
  end.

(** Line 94: [int(step / max_fps * new_fps)]. *)
Definition clamp_step (step max_fps new_fps : Z) : result Z :=
  x <- clamp_ratio step max_fps new_fps ;; PyFloat.to_int x.

(** The test of line 92: [(step * new_fps) % new_fps != 0]. *)
Definition warning_condition (step new_fps : Z) : result bool :=
  r <- py_mod (step * new_fps) new_fps ;; Ok (negb (r =? 0)).

(** Lines 91-95: the pair (step, new_fps) after the max-fps ceiling, and
    whether the warning was logged (its message formats the float of
    [clamp_ratio]). *)
Definition clamp (max_fps : option Z) (step new_fps : Z) : result (Z * Z * bool) :=
  match max_fps with
  | None => Ok (step, new_fps, false)
  | Some m =>
      if clamp_applies (Some m) new_fps then
        c <- warning_condition step new_fps ;;
        warned <- (if c : bool
                   then _ <- clamp_ratio step m new_fps ;; Ok true
                   else Ok false) ;;
        step' <- clamp_step step m new_fps ;;
        Ok (step', m, warned)
      else Ok (step, new_fps, false)
  end.

(** Lines 84-89: window length, raw stride and rate before the ceiling. *)
Definition raw_stride (fps : Z) (start_sec end_sec : float) (frame_load_cap : Z)
  : result (Z * Z * Z) :=
  let video_sec := PyFloat.sub end_sec start_sec in
  x <- PyFloat.mul_int video_sec fps ;;
  original_frame_length <- PyFloat.to_int x ;;
  q <- py_floordiv original_frame_length frame_load_cap ;;
  let step := Z.max q 1 in
  new_fps <- py_floordiv fps step ;;
  Ok (original_frame_length, step, new_fps).

Definition sampling_plan (m : SourceMeta.t) (start_sec end_sec : float)
    (frame_load_cap : Z) (max_fps : option Z) : result SamplingPlan.t :=
  let fps := SourceMeta.fps m in
  let frame_load_cap := effective_cap frame_load_cap in
  end_sec <- effective_end_sec m end_sec ;;
  '(original_frame_length, step, new_fps) <-
     raw_stride fps start_sec end_sec frame_load_cap ;;
  '(step, new_fps, warned) <- clamp max_fps step new_fps ;;
  start_frame <- PyFloat.int_mul fps start_sec ;;
  end_frame <- PyFloat.int_mul fps end_sec ;;
  Ok {| SamplingPlan.frame_load_cap := frame_load_cap;
        SamplingPlan.end_sec := end_sec;
        SamplingPlan.original_frame_length := original_frame_length;
        SamplingPlan.step := step;
        SamplingPlan.new_fps := new_fps;
        SamplingPlan.start_frame := start_frame;
        SamplingPlan.end_frame := end_frame;
        SamplingPlan.warned := warned |}.

(** ** Strings: [str.split] and [int(str)] *)

Local Open Scope string_scope.

(** [s.split(sep)] for a one-character separator: never empty, the pieces
    between consecutive separators in order. *)
Fixpoint split_on (sep : ascii) (s : string) : list string :=
  match s with
  | EmptyString => [EmptyString]
  | String c s' =>
      if Ascii.eqb c sep then EmptyString :: split_on sep s'
      else match split_on sep s' with
           | h :: t => String c h :: t
           | [] => [String c EmptyString]
           end
  end.

(** [l[i]] on a Python list, for a non-negative literal index. *)
Definition index {A : Type} (l : list A) (i : nat) : result A :=
  match nth_error l i with
  | Some a => Ok a
  | None => Raise IndexError
  end.

(** The white space [int] skips around a literal.  On an ASCII [str] it
    is the C locale's: tab, line feed, vertical tab, form feed, carriage
    return (codes 9 to 13) and the blank (32); the separators 28 to 31 are
    not skipped, [int("\x1f256")] raises.  A [str] with a character
    outside ASCII is first rewritten with every Unicode white space above
    126 replaced by a blank; of the code points a character of this model
    can stand for (below 256) these are U+0085 and U+00A0 (codes 133 and
    160), so that [int("\xa0256")] is 256. *)
Definition is_space (c : ascii) : bool :=
  let n := N_of_ascii c in
  ((9 <=? n) && (n <=? 13) || (n =? 32) || (n =? 133) || (n =? 160))%N.

Definition digit_val (c : ascii) : option Z :=
  let n := N_of_ascii c in
  if ((48 <=? n) && (n <=? 57))%N then Some (Z.of_N n - 48)%Z else None.

Fixpoint lstrip (s : string) : string :=
  match s with
  | String c s' => if is_space c then lstrip s' else s
  | EmptyString => s
  end.

(** The scan of the literal's body: the longest prefix made of digits and
    underscores, and what follows it. *)
Fixpoint span_digits (s : string) : string * string :=
  match s with
  | String c s' =>
      if match digit_val c with Some _ => true | None => Ascii.eqb c "_" end
      then let (run, rest) := span_digits s' in (String c run, rest)
      else (EmptyString, s)
  | EmptyString => (EmptyString, EmptyString)
  end.

(** Decimal digits with single underscores allowed between two digits;
    [after_digit] tells whether the previous character was a digit. *)
Fixpoint digits_value (s : string) (acc : Z) (after_digit : bool) : option Z :=
  match s with
  | EmptyString => if after_digit then Some acc else None
  | String c s' =>
      match digit_val c with
      | Some d => digits_value s' (10 * acc + d)%Z true
      | None =>
          if Ascii.eqb c "_" && after_digit then digits_value s' acc false
          else None
      end
  end.

(** The number of digits of the body, underscores not counted. *)
Fixpoint count_digits (s : string) : Z :=
  match s with
  | String c s' =>
      (match digit_val c with Some _ => 1 | None => 0 end + count_digits s')%Z
  | EmptyString => 0%Z
  end.

(** [sys.get_int_max_str_digits()], at its default. *)
Definition max_str_digits : Z := 4300.

(** The literal after its sign: the body is scanned and its underscores
    checked; then the number of digits is checked against the limit;
    then only white space may follow. *)
Definition int_body (negative : bool) (s : string) : result Z :=
  let bad := Raise (ValueError "invalid literal for int() with base 10") in
  let (run, rest) := span_digits s in
  match digits_value run 0 false with
  | None => bad
  | Some v =>
      if (max_str_digits <? count_digits run)%Z then
        Raise (ValueError "Exceeds the limit (4300 digits) for integer string conversion")
      else
        match lstrip rest with
        | EmptyString => Ok (if negative then - v else v)%Z
        | _ => bad
        end
  end.

(** [int(s)] on a string, base 10: leading white space is skipped, one
    sign is allowed, then the body. *)
Definition py_int (s : string) : result Z :=
  match lstrip s with
  | String c r =>
      if Ascii.eqb c "+" then int_body false r
      else if Ascii.eqb c "-" then int_body true r
      else int_body false (String c r)
  | EmptyString => int_body false EmptyString
  end.

(** ** The size resolver (lines 39-55) *)

(** [x + 4 & ~7]: the sum binds tighter than [&]. *)
Definition align8 (x : Z) : Z := Z.land (x + 4) (Z.lnot 7).

Definition target_size (width height : Z) (force_size : string) : result (Z * Z) :=
  if negb (String.eqb force_size "Disabled") then
    let force_size := split_on "x" force_size in
    p0 <- index force_size 0 ;;
    if String.eqb p0 "?" then
      p1 <- index force_size 1 ;;
      n <- py_int p1 ;;
      width <- py_floordiv (width * n) height ;;
      let width := align8 width in
      p1 <- index force_size 1 ;;
      height <- py_int p1 ;;
      Ok (width, height)
    else
      p1 <- index force_size 1 ;;
      if String.eqb p1 "?" then
        p0 <- index force_size 0 ;;
        n <- py_int p0 ;;
        height <- py_floordiv (height * n) width ;;
        let height := align8 height in
        p0 <- index force_size 0 ;;
        width <- py_int p0 ;;
        Ok (width, height)
      else
        p0 <- index force_size 0 ;;
        width <- py_int p0 ;;
        p1 <- index force_size 1 ;;
        height <- py_int p1 ;;
        Ok (width, height)
  else Ok (width, height).

Local Close Scope string_scope.

(** ** The external collaborators *)

(** OpenCV's capture object and the two tensor primitives, as the loader
    uses them.  A capture is a state [VideoCapture]; [cap_read] returns
    the frame when [ret] is true and [None] otherwise, with the capture's
    next state.  A batch of frames is the list of its images, so that
    [torch.cat(images, dim=0)] is the list itself, and [common_upscale]
    with the "lanczos" method resamples each image of the batch. *)
Record Backend (Frame Image VideoCapture : Type) : Type := {
  cap_open : string -> VideoCapture;                        (* cv2.VideoCapture(video) *)
  cap_isOpened : VideoCapture -> bool;
  cap_meta : VideoCapture -> SourceMeta.t;                    (* the four int(video_cap.get(...)) *)
  cap_set_pos : VideoCapture -> Z -> VideoCapture;          (* set(CAP_PROP_POS_FRAMES, i) *)
  cap_read : VideoCapture -> option Frame * VideoCapture;   (* read() *)
  frame_to_tensor : Frame -> Image;
  lanczos : Z -> Z -> Image -> Image
}.

Arguments cap_open {Frame Image VideoCapture} b video.
Arguments cap_isOpened {Frame Image VideoCapture} b video_cap.
Arguments cap_meta {Frame Image VideoCapture} b video_cap.
Arguments cap_set_pos {Frame Image VideoCapture} b video_cap i.
Arguments cap_read {Frame Image VideoCapture} b video_cap.
Arguments frame_to_tensor {Frame Image VideoCapture} b frame.
Arguments lanczos {Frame Image VideoCapture} b w h image.

Section Loader.

Context {Frame Image VideoCapture : Type}.
Variable B : Backend Frame Image VideoCapture.

Definition common_upscale (samples : list Image) (w h : Z) : list Image :=
  map (lanczos B w h) samples.

(** *** The acquisition loop (lines 108-129)

    One unit of [fuel] per iteration of [while True]. *)
Fixpoint frame_loop (fuel : nat) (frame_load_cap : Z) (end_frame : float) (step : Z)
    (video_cap : VideoCapture) (curr_frame : float)
    (images : list Image) (frames_added : Z) : result (list Image * Z) :=
  match fuel with
  | O => NoFuel
  | S fuel' =>
      int_curr_frame <- PyFloat.to_int curr_frame ;;
      let video_cap := cap_set_pos B video_cap int_curr_frame in
      match cap_read B video_cap with
      | (None, _) => Ok (images, frames_added)
      | (Some frame, video_cap) =>
          let image := frame_to_tensor B frame in
          let images := images ++ [image] in
          let frames_added := frames_added + 1 in
          if (0 <? frame_load_cap) && (frame_load_cap <=? frames_added)
          then Ok (images, frames_added)
          else if PyFloat.ge curr_frame end_frame
          then Ok (images, frames_added)
          else
            curr_frame <- PyFloat.add_int curr_frame step ;;
            frame_loop fuel' frame_load_cap end_frame step
                       video_cap curr_frame images frames_added
      end
  end.

(** *** [process_video_cap] (lines 67-133)

    The loop appends one frame per iteration and leaves when
    [frames_added] reaches the cap, which is positive after line 79:
    [frame_load_cap] iterations are all it can make. *)
Definition process_video_cap (video_cap : VideoCapture)
    (start_sec end_sec : float) (frame_load_cap : Z) (max_fps : option Z)
  : result (list Image * Z * Z * Z * Z) :=
  let m := cap_meta B video_cap in
  p <- sampling_plan m start_sec end_sec frame_load_cap max_fps ;;
  '(images, frames_added) <-
     frame_loop (Z.to_nat (SamplingPlan.frame_load_cap p))
                (SamplingPlan.frame_load_cap p)
                (SamplingPlan.end_frame p) (SamplingPlan.step p)
                video_cap (SamplingPlan.start_frame p) [] 0 ;;
  Ok (images, frames_added, SamplingPlan.new_fps p,
      SourceMeta.width m, SourceMeta.height m).

(** *** The resize stage (lines 161-168 of [load_video_cv])

    Returns the batch, its size, and the list of [common_upscale] calls
    that were made, each recorded by its target size. *)
Definition resize_stage (images : list Image) (width height : Z) (force_size : string)
  : result (list Image * Z * Z * list (Z * Z)) :=
  if negb (String.eqb force_size "Disabled") then
    new_size <- target_size width height force_size ;;
    if negb (fst new_size =? width) || negb (snd new_size =? height) then
      let s := common_upscale images (fst new_size) (snd new_size) in
      Ok (s, fst new_size, snd new_size, [new_size])
    else Ok (images, width, height, [])
  else Ok (images, width, height, []).

(** *** [load_video_cv] (lines 136-176) *)
Definition load_video_cv (video : string) (start_sec end_sec : float)
    (frame_load_cap : Z) (max_fps : Z) (force_size : string)
  : result (list Image * Z * Z * Z * Z) :=
  let video_cap := cap_open B video in
  if negb (cap_isOpened B video_cap) then
    Raise (ValueError "could not be loaded with cv.")
  else
    '(images, frames_added, fps, width, height) <-
       process_video_cap video_cap start_sec end_sec frame_load_cap (Some max_fps) ;;
    if (List.length images =? 0)%nat then Raise (RuntimeError "No frames generated")
    else
      '(images, width, height, _) <- resize_stage images width height force_size ;;
      Ok (images, frames_added, fps, width, height).

End Loader.

(** ** The ranges the node declares for a request (lines 24-30)

    [COMMON_REQUIRED_INPUTS]: seconds between 0.0 and 10000.0, [max_fps]
    between -1 and 30, [frame_load_cap] between 1 and 10000. *)
Definition valid_request (start_sec end_sec : float) (frame_load_cap max_fps : Z) : bool :=
  PyFloat.ge start_sec PyFloat.zero && PyFloat.ge (PyFloat.lit 10000) start_sec
  && PyFloat.ge end_sec PyFloat.zero && PyFloat.ge (PyFloat.lit 10000) end_sec
  && (-1 <=? max_fps) && (max_fps <=? 30)
  && (1 <=? frame_load_cap) && (frame_load_cap <=? 10000).

(** ** A sample decoder

    A capture over a clip of [total] frames: a read at a position inside
    the clip returns that frame's index and moves to the next position. *)
Module Sample.

Record capture : Type := { opened : bool; meta : SourceMeta.t; pos : Z }.

Definition read (c : capture) : option Z * capture :=
  if (0 <=? pos c) && (pos c <? SourceMeta.frame_count (meta c))
  then (Some (pos c), {| opened := opened c; meta := meta c; pos := pos c + 1 |})
  else (None, c).

(** An image is the index of its frame together with its size. *)
Definition backend (m : SourceMeta.t) : Backend Z (Z * (Z * Z)) capture :=
  {| cap_open := fun video =>
       {| opened := negb (String.eqb video ""); meta := m; pos := 0 |};
     cap_isOpened := opened;
     cap_meta := meta;
     cap_set_pos := fun c i => {| opened := opened c; meta := meta c; pos := i |};
     cap_read := read;
     frame_to_tensor := fun i => (i, (SourceMeta.width m, SourceMeta.height m));
     lanczos := fun w h image => (fst image, (w, h)) |}.

(** A 10 second clip at 30 frames per second. *)
Definition clip : SourceMeta.t :=
  {| SourceMeta.fps := 30; SourceMeta.width := 640; SourceMeta.height := 480;
     SourceMeta.frame_count := 300 |}.

(** A source of 300 frames whose reported rate is 49 * 2^52, an integer
    that a float holds exactly. *)
Definition fast_clip : SourceMeta.t :=
  {| SourceMeta.fps := 49 * 2 ^ 52; SourceMeta.width := 640; SourceMeta.height := 480;
     SourceMeta.frame_count := 300 |}.

(** A source whose reported rate is the largest finite float,
    (2^53 - 1) * 2^971. *)
Definition fastest_clip : SourceMeta.t :=
  {| SourceMeta.fps := (2 ^ 53 - 1) * 2 ^ 971; SourceMeta.width := 640;
     SourceMeta.height := 480; SourceMeta.frame_count := 300 |}.

(** The float 6755399441055746 * 2^-563, about 2.2e-154. *)
Definition tiny_sec : float := S754_finite false 6755399441055746 (-563).

End Sample.

(** ** The real value of a float

    [F2R m e] is the real number m * 2^e, the value of the finite float
    of mantissa [m] and exponent [e]; [eps] = 2^-52 bounds the relative
    error of one rounding to 53 bits. *)
Definition bpow (e : Z) : R := powerRZ 2 e.

Definition F2R (m e : Z) : R := (IZR m * bpow e)%R.

Definition eps : R := bpow (-52).

(** ** Characters of a string *)

Fixpoint all_chars (P : ascii -> bool) (s : string) : bool :=
  match s with
  | EmptyString => true
  | String c s' => P c && all_chars P s'
  end.

(** The characters an integer literal is made of. *)
Definition int_char (c : ascii) : bool :=
  is_space c || Ascii.eqb c "+" || Ascii.eqb c "-" || Ascii.eqb c "_"
  || match digit_val c with Some _ => true | None => false end.

Definition differs (sep : ascii) (c : ascii) : bool := negb (Ascii.eqb c sep).

(** ** Module constants (lines 21-22) *)
Definition video_extensions : list string := ["webm"; "mp4"; "mkv"; "gif"]%string.

Definition force_sizes : list string :=
  ["Disabled"; "256x?"; "?x256"; "256x256"; "512x?"; "?x512"; "512x512";
   "?x768"; "768x?"]%string.

(** ** File names: [is_gif] and the upload list of [INPUT_TYPES] *)

(** [s.endswith(suffix)]: some tail of [s] is [suffix]. *)
Fixpoint endswith (s suffix : string) : bool :=
  String.eqb s suffix
  || match s with
     | String _ s' => endswith s' suffix
     | EmptyString => false
     end.

(** Lines 179-180. *)
Definition is_gif (filename : string) : bool := endswith filename "gif".

(** [sep.join(parts)], the inverse of [split_on]. *)
Fixpoint join (sep : ascii) (parts : list string) : string :=
  match parts with
  | [] => EmptyString
  | [x] => x
  | x :: rest => x ++ String sep (join sep rest)
  end.

(** Lines 285-286: [file_parts = f.split('.')] and the test
    [len(file_parts) > 1 and file_parts[-1] in video_extensions]. *)
Definition has_video_extension (f : string) : bool :=
  let file_parts := split_on "." f in
  (1 <? List.length file_parts)%nat
  && existsb (String.eqb (last file_parts EmptyString)) video_extensions.

(** [sorted] on a list of strings, by insertion; strings compare by
    their characters' codes. *)
Fixpoint insert_sorted (x : string) (l : list string) : list string :=
  match l with
  | [] => [x]
  | y :: l' => if String.leb x y then x :: l else y :: insert_sorted x l'
  end.

Definition sorted (l : list string) : list string := fold_right insert_sorted [] l.

(** Lines 282-287 and 294: the entries [listdir] of the input directory
    for which [os.path.isfile] holds and the extension test passes, in
    directory order, then sorted for the "upload" choice. *)
Definition upload_files (listdir : list string) (isfile : string -> bool) : list string :=
  filter (fun f => isfile f && has_video_extension f) listdir.

Definition upload_choices (listdir : list string) (isfile : string -> bool) : list string :=
  sorted (upload_files listdir isfile).

(** ** The node: [download_youtube_video] and [UltimateVideoLoader.load_video] *)

(** Exceptions at the level of the node: those of [exn], and the ones
    of a class outside it, named by the class (pytube's and the
    filesystem's, and [UnboundLocalError]). *)
Inductive node_exn : Type :=
| Builtin (e : exn)
| OtherError (class_name : string).

Inductive node_result (A : Type) : Type :=
| Returned (a : A)
| Failed (e : node_exn)
| Unfinished.

Arguments Returned {A} a.
Arguments Failed {A} e.
Arguments Unfinished {A}.

Definition lift {A : Type} (r : result A) : node_result A :=
  match r with
  | Ok a => Returned a
  | Raise e => Failed (Builtin e)
  | NoFuel => Unfinished
  end.

(** What lines 206-218 of [download_youtube_video] end in: the path of
    the downloaded file, or the exception that the directory set-up,
    [YouTube(...)], the stream selection or the download raised. *)
Inductive fetched : Type :=
| Downloaded (video_path : string)
| FetchError (class_name : string).

(** The collaborators of the node beside the capture backend: the
    download just described, [folder_paths.get_annotated_filepath] (for
    the user of the context) and the all-zero image of a given height
    and width. *)
Record Node (Frame Image VideoCapture : Type) : Type := {
  backend : Backend Frame Image VideoCapture;
  yt_download : string -> option string -> fetched;
  get_annotated_filepath : string -> string;
  zero_image : Z -> Z -> Image
}.

Arguments backend {Frame Image VideoCapture} n.
Arguments yt_download {Frame Image VideoCapture} n youtube_url output_dir.
Arguments get_annotated_filepath {Frame Image VideoCapture} n name.
Arguments zero_image {Frame Image VideoCapture} n height width.

(** [s.strip(q)] for a one-character [q]. *)
Fixpoint lstrip_char (q : ascii) (s : string) : string :=
  match s with
  | String c s' => if Ascii.eqb c q then lstrip_char q s' else s
  | EmptyString => s
  end.

Fixpoint rstrip_char (q : ascii) (s : string) : string :=
  match s with
  | EmptyString => EmptyString
  | String c s' =>
      match rstrip_char q s' with
      | EmptyString => if Ascii.eqb c q then EmptyString else String c EmptyString
      | r => String c r
      end
  end.

Definition strip_char (q : ascii) (s : string) : string :=
  rstrip_char q (lstrip_char q s).

(** The keyword arguments the node is called with: its required inputs. *)
Module Kwargs.
Record t : Type := {
  source : string;
  youtube_url : string;
  video : string;
  upload : string;
  start_sec : float;
  end_sec : float;
  max_fps : Z;
  force_size : string;
  frame_load_cap : Z;
  width : Z;
  height : Z;
  frame_count : Z;
  fps : Z
}.
End Kwargs.

Section NodeCode.

Context {Frame Image VideoCapture : Type}.
Variable N : Node Frame Image VideoCapture.

(** Lines 228-242, which are also lines 158-176 of [load_video_cv]: the
    check for an empty list and the resize stage. *)
Definition finish_load (r : list Image * Z * Z * Z * Z) (force_size : string)
  : result (list Image * Z * Z * Z * Z) :=
  let '(images, frames_added, fps, width, height) := r in
  if (List.length images =? 0)%nat then Raise (RuntimeError "No frames generated")
  else
    '(images, width, height, _) <- resize_stage (backend N) images width height force_size ;;
    Ok (images, frames_added, fps, width, height).

(** Lines 195-242. *)
Definition download_youtube_video (youtube_url : string) (start_sec end_sec : float)
    (frame_load_cap : Z) (output_dir : option string) (force_size : string)
    (max_fps : option Z) : node_result (list Image * Z * Z * Z * Z) :=
  match yt_download N youtube_url output_dir with
  | FetchError class_name => Failed (OtherError class_name)
  | Downloaded video_path =>
      let cap := cap_open (backend N) video_path in
      lift (r <- process_video_cap (backend N) cap start_sec end_sec frame_load_cap max_fps ;;
            finish_load r force_size)
  end.

(** [torch.zeros([frames_count, height, width, 3])] as a batch. *)
Definition torch_zeros (frames_count height width : Z) : result (list Image) :=
  if (frames_count <? 0) || (height <? 0) || (width <? 0)
  then Raise (RuntimeError "Trying to create tensor with negative dimension")
  else Ok (repeat (zero_image N height width) (Z.to_nat frames_count)).

(** Lines 311-328 of [UltimateVideoLoader]. *)
Definition load_video (kwargs : Kwargs.t) : node_result (list Image * Z * Z * Z * Z) :=
  let source := Kwargs.source kwargs in
  if String.eqb source "YouTube" then
    download_youtube_video (Kwargs.youtube_url kwargs)
      (Kwargs.start_sec kwargs) (Kwargs.end_sec kwargs) (Kwargs.frame_load_cap kwargs)
      None (Kwargs.force_size kwargs) (Some (Kwargs.max_fps kwargs))
  else if String.eqb source "filepath" then
    lift (load_video_cv (backend N) (Kwargs.video kwargs)
            (Kwargs.start_sec kwargs) (Kwargs.end_sec kwargs) (Kwargs.frame_load_cap kwargs)
            (Kwargs.max_fps kwargs) (Kwargs.force_size kwargs))
  else if String.eqb source "fileupload" then
    let video := get_annotated_filepath N (strip_char "034" (Kwargs.upload kwargs)) in
    lift (load_video_cv (backend N) video
            (Kwargs.start_sec kwargs) (Kwargs.end_sec kwargs) (Kwargs.frame_load_cap kwargs)
            (Kwargs.max_fps kwargs) (Kwargs.force_size kwargs))
  else if String.eqb source "emptyvideo" then
    let frames_count := Kwargs.frame_count kwargs in
    let width := Kwargs.width kwargs in
    let height := Kwargs.height kwargs in
    let fps := Kwargs.fps kwargs in
    lift (images <- torch_zeros frames_count height width ;;
          Ok (images, frames_count, fps, width, height))
  else Failed (OtherError "UnboundLocalError").

End NodeCode.

(** The order [sorted] sorts by. *)
Definition string_le (a b : string) : Prop := String.leb a b = true.

(** A sample node over the sample clip: every non-empty URL downloads
    to the same file, and an all-zero image carries its size. *)
Definition sample_node : Node Z (Z * (Z * Z)) Sample.capture :=
  {| backend := Sample.backend Sample.clip;
     yt_download := fun youtube_url _ =>
       if String.eqb youtube_url "" then FetchError "RegexMatchError"
       else Downloaded "youtube/clip.mp4";
     get_annotated_filepath := fun name => ("input/" ++ name)%string;
     zero_image := fun h w => (0, (w, h)) |}.

Definition sample_kwargs (source : string) : Kwargs.t :=
  {| Kwargs.source := source;
     Kwargs.youtube_url := "https://youtu.be/x";
     Kwargs.video := "a.mp4";
     Kwargs.upload := "a.mp4";
     Kwargs.start_sec := PyFloat.zero;
     Kwargs.end_sec := PyFloat.zero;
     Kwargs.max_fps := -1;
     Kwargs.force_size := "Disabled";
     Kwargs.frame_load_cap := 5;
     Kwargs.width := 64;
     Kwargs.height := 64;
     Kwargs.frame_count := 3;
     Kwargs.fps := 10 |}.

(** ** Reasoning about results *)

Lemma bind_Ok {A B : Type} (r : result A) (k : A -> result B) (b : B) :
  bind r k = Ok b -> exists a, r = Ok a /\ k a = Ok b.
Proof.
  destruct r as [a | e |]; simpl; intros H; try discriminate.
  exists a. split; [reflexivity | exact H].
Qed.

Lemma bind_NoFuel {A B : Type} (r : result A) (k : A -> result B) :
  bind r k = NoFuel -> r = NoFuel \/ exists a, r = Ok a /\ k a = NoFuel.
Proof.
  destruct r as [a | e |]; simpl; intros H; try discriminate.
  - right. exists a. split; [reflexivity | exact H].
  - left. reflexivity.
Qed.

(** Splits a hypothesis [bind r k = Ok b] into its two halves, again and
    again, destructing the tuples bound on the way. *)
Ltac inv_bind H :=
  let a := fresh "a" in
  let Ha := fresh "Ha" in
  apply bind_Ok in H; destruct H as (a & Ha & H);
  repeat match type of H with
         | context [let '(_, _) := ?x in _] => destruct x
         end;
  simpl in H.

(** ** Number facts *)

Lemma py_floordiv_Ok a b : b <> 0 -> py_floordiv a b = Ok (a / b).
Proof.
  intros Hb. unfold py_floordiv. destruct (Z.eqb_spec b 0); [contradiction | reflexivity].
Qed.

Lemma py_floordiv_inv a b q : py_floordiv a b = Ok q -> b <> 0 /\ q = a / b.
Proof.
  unfold py_floordiv. destruct (Z.eqb_spec b 0); intros H; [discriminate |].
  injection H as <-. split; [assumption | reflexivity].
Qed.

Lemma py_mod_mul s n : n <> 0 -> py_mod (s * n) n = Ok 0.
Proof.
  intros Hn. unfold py_mod. destruct (Z.eqb_spec n 0); [contradiction |].
  rewrite Z.mod_mul by assumption. reflexivity.
Qed.

Lemma of_int_not_NoFuel z : PyFloat.of_int z <> NoFuel.
Proof.
  unfold PyFloat.of_int.
  destruct (binary_normalize PyFloat.prec PyFloat.emax z 0 false); discriminate.
Qed.

Lemma to_int_not_NoFuel x : PyFloat.to_int x <> NoFuel.
Proof. destruct x; discriminate. Qed.

Lemma add_int_not_NoFuel x n : PyFloat.add_int x n <> NoFuel.
Proof.
  unfold PyFloat.add_int. pose proof (of_int_not_NoFuel n) as H.
  destruct (PyFloat.of_int n); simpl; congruence.
Qed.

Lemma effective_cap_pos c : 1 <= effective_cap c.
Proof. unfold effective_cap. destruct (Z.leb_spec c 0); lia. Qed.

Lemma clamp_applies_spec mx n :
  clamp_applies (Some mx) n = true <-> 0 < mx < n.
Proof.
  unfold clamp_applies.
  destruct (Z.eqb_spec mx 0), (Z.ltb_spec 0 mx), (Z.ltb_spec mx n); simpl;
    split; intros Hc; try discriminate; try reflexivity; lia.
Qed.

(** ** The acquisition loop: frame count, cap and termination *)

Section LoopFacts.

Context {Frame Image VideoCapture : Type}.
Variable B : Backend Frame Image VideoCapture.

(** One iteration, as the three exits and the advance of the source. *)
Lemma frame_loop_step fuel cap endf st vc curr imgs fa i frame vc' :
  PyFloat.to_int curr = Ok i ->
  cap_read B (cap_set_pos B vc i) = (Some frame, vc') ->
  frame_loop B (S fuel) cap endf st vc curr imgs fa =
  if (0 <? cap) && (cap <=? fa + 1) then Ok (imgs ++ [frame_to_tensor B frame], fa + 1)
  else if PyFloat.ge curr endf then Ok (imgs ++ [frame_to_tensor B frame], fa + 1)
  else curr' <- PyFloat.add_int curr st ;;
       frame_loop B fuel cap endf st vc' curr' (imgs ++ [frame_to_tensor B frame]) (fa + 1).
Proof.
  intros Hi Hr. simpl. rewrite Hi. simpl. rewrite Hr. reflexivity.
Qed.

Lemma frame_loop_eos fuel cap endf st vc curr imgs fa i vc' :
  PyFloat.to_int curr = Ok i ->
  cap_read B (cap_set_pos B vc i) = (None, vc') ->
  frame_loop B (S fuel) cap endf st vc curr imgs fa = Ok (imgs, fa).
Proof.
  intros Hi Hr. simpl. rewrite Hi. simpl. rewrite Hr. reflexivity.
Qed.

(** The counter moves with the list: what is added to one is added to
    the other. *)
Lemma frame_loop_count fuel : forall cap endf st vc curr imgs fa imgs' fa',
  frame_loop B fuel cap endf st vc curr imgs fa = Ok (imgs', fa') ->
  fa' - fa = Z.of_nat (List.length imgs') - Z.of_nat (List.length imgs)
  /\ (List.length imgs <= List.length imgs')%nat.
Proof.
  induction fuel as [| fuel IH]; intros cap endf st vc curr imgs fa imgs' fa' H.
  - discriminate.
  - simpl in H. destruct (PyFloat.to_int curr) as [i | e |]; simpl in H; try discriminate.
    destruct (cap_read B (cap_set_pos B vc i)) as [[frame |] vc'].
    + assert (Hlen : List.length (imgs ++ [frame_to_tensor B frame])
                     = S (List.length imgs)).
      { rewrite length_app. simpl. lia. }
      destruct ((0 <? cap) && (cap <=? fa + 1)).
      { injection H as <- <-. rewrite Hlen. lia. }
      destruct (PyFloat.ge curr endf).
      { injection H as <- <-. rewrite Hlen. lia. }
      destruct (PyFloat.add_int curr st) as [c | e |]; simpl in H; try discriminate.
      apply IH in H. rewrite Hlen in H. lia.
    + injection H as <- <-. lia.
Qed.

(** With a positive cap not yet reached, the counter never passes it. *)
Lemma frame_loop_cap fuel : forall cap endf st vc curr imgs fa imgs' fa',
  0 < cap -> fa < cap ->
  frame_loop B fuel cap endf st vc curr imgs fa = Ok (imgs', fa') ->
  fa' <= cap.
Proof.
  induction fuel as [| fuel IH]; intros cap endf st vc curr imgs fa imgs' fa' Hc Hfa H.
  - discriminate.
  - simpl in H. destruct (PyFloat.to_int curr) as [i | e |]; simpl in H; try discriminate.
    destruct (cap_read B (cap_set_pos B vc i)) as [[frame |] vc'].
    + destruct (Z.ltb_spec 0 cap); [| lia].
      destruct (Z.leb_spec cap (fa + 1)); simpl in H.
      { injection H as _ <-. lia. }
      destruct (PyFloat.ge curr endf).
      { injection H as _ <-. lia. }
      destruct (PyFloat.add_int curr st) as [c | e |]; simpl in H; try discriminate.
      apply IH in H; lia.
    + injection H as _ <-. lia.
Qed.

(** [cap - frames_added] iterations are enough: the loop never runs out
    of fuel. *)
Lemma frame_loop_fuel fuel : forall cap endf st vc curr imgs fa,
  0 < cap -> fa < cap -> (Z.to_nat (cap - fa) <= fuel)%nat ->
  frame_loop B fuel cap endf st vc curr imgs fa <> NoFuel.
Proof.
  induction fuel as [| fuel IH]; intros cap endf st vc curr imgs fa Hc Hfa Hfuel.
  - lia.
  - simpl. pose proof (to_int_not_NoFuel curr) as Hti.
    destruct (PyFloat.to_int curr) as [i | e |]; simpl; try congruence.
    destruct (cap_read B (cap_set_pos B vc i)) as [[frame |] vc']; [| discriminate].
    destruct (Z.ltb_spec 0 cap); [| lia].
    destruct (Z.leb_spec cap (fa + 1)); simpl; [discriminate |].
    destruct (PyFloat.ge curr endf); [discriminate |].
    pose proof (add_int_not_NoFuel curr st) as Hai.
    destruct (PyFloat.add_int curr st) as [c | e |]; simpl; try congruence.
    apply IH; lia.
Qed.

End LoopFacts.

(** ** The planner, taken apart *)

Lemma warning_condition_false s n : n <> 0 -> warning_condition s n = Ok false.
Proof.
  intros Hn. unfold warning_condition. rewrite py_mod_mul by assumption. reflexivity.
Qed.

Lemma raw_stride_inv fps start_sec end_sec cap w s0 n0 :
  cap <> 0 ->
  raw_stride fps start_sec end_sec cap = Ok (w, s0, n0) ->
  (exists x, PyFloat.mul_int (PyFloat.sub end_sec start_sec) fps = Ok x
             /\ PyFloat.to_int x = Ok w)
  /\ s0 = Z.max (w / cap) 1 /\ n0 = fps / s0.
Proof.
  intros Hcap H. unfold raw_stride in H.
  inv_bind H. inv_bind H.
  rewrite py_floordiv_Ok in H by assumption. simpl in H.
  rewrite py_floordiv_Ok in H by lia. simpl in H.
  injection H as <- <- <-.
  split; [exists a; split; assumption | split; reflexivity].
Qed.

Lemma raw_stride_fps_float fps start_sec end_sec cap r :
  raw_stride fps start_sec end_sec cap = Ok r ->
  exists f, PyFloat.of_int fps = Ok f.
Proof.
  intros H. unfold raw_stride, PyFloat.mul_int in H.
  destruct (PyFloat.of_int fps) as [f | e |]; simpl in H; try discriminate.
  exists f. reflexivity.
Qed.

Lemma clamp_off max_fps s0 n0 :
  clamp_applies max_fps n0 = false -> clamp max_fps s0 n0 = Ok (s0, n0, false).
Proof.
  intros H. unfold clamp. destruct max_fps as [mx |]; [| reflexivity].
  rewrite H. reflexivity.
Qed.

Lemma clamp_on mx s0 n0 :
  0 < mx < n0 ->
  clamp (Some mx) s0 n0 = (step' <- clamp_step s0 mx n0 ;; Ok (step', mx, false)).
Proof.
  intros H. unfold clamp.
  rewrite (proj2 (clamp_applies_spec mx n0) H).
  rewrite warning_condition_false by lia. reflexivity.
Qed.

Lemma clamp_warned max_fps s0 n0 s n w :
  clamp max_fps s0 n0 = Ok (s, n, w) -> w = false.
Proof.
  intros H. destruct max_fps as [mx |]; [| simpl in H; congruence].
  destruct (clamp_applies (Some mx) n0) eqn:Ha.
  - rewrite clamp_on in H by (apply clamp_applies_spec; assumption).
    inv_bind H. congruence.
  - rewrite clamp_off in H by assumption. congruence.
Qed.

Lemma sampling_plan_inv m start_sec end_sec cap max_fps p :
  sampling_plan m start_sec end_sec cap max_fps = Ok p ->
  exists s0 n0,
    effective_end_sec m end_sec = Ok (SamplingPlan.end_sec p)
    /\ raw_stride (SourceMeta.fps m) start_sec (SamplingPlan.end_sec p) (effective_cap cap)
       = Ok (SamplingPlan.original_frame_length p, s0, n0)
    /\ clamp max_fps s0 n0
       = Ok (SamplingPlan.step p, SamplingPlan.new_fps p, SamplingPlan.warned p)
    /\ SamplingPlan.frame_load_cap p = effective_cap cap
    /\ PyFloat.int_mul (SourceMeta.fps m) start_sec = Ok (SamplingPlan.start_frame p)
    /\ PyFloat.int_mul (SourceMeta.fps m) (SamplingPlan.end_sec p)
       = Ok (SamplingPlan.end_frame p).
Proof.
  intros H. unfold sampling_plan in H.
  inv_bind H. inv_bind H. inv_bind H. inv_bind H. inv_bind H.
  injection H as <-. simpl.
  do 2 eexists. repeat split; eassumption.
Qed.

(** ** The sampling planner: the specification's statements *)

(** C1.  For a source with fps = 30 and frame_count = 300, the request
    start_sec = 0, end_sec = 0, frame_load_cap = 50, max_fps = -1 is
    planned with a window of 300 frames, a stride of 6 and an output rate
    of 5; these are the values of the algorithm
    window_frames = int((end_sec - start_sec) * fps),
    step = max(window_frames // cap, 1), output_fps = fps // step, with
    end_sec = frame_count / fps = 10.0 and cap = 50. *)
Theorem sampling_plan_30fps_300frames_cap50 (m : SourceMeta.t) :
  SourceMeta.fps m = 30 -> SourceMeta.frame_count m = 300 ->
  exists p,
    sampling_plan m PyFloat.zero PyFloat.zero 50 (Some (-1)) = Ok p
    /\ SamplingPlan.original_frame_length p = 300
    /\ SamplingPlan.step p = 6
    /\ SamplingPlan.new_fps p = 5
    /\ SamplingPlan.end_sec p = PyFloat.lit 10
    /\ SamplingPlan.frame_load_cap p = 50
    /\ (x <- PyFloat.mul_int (PyFloat.sub (SamplingPlan.end_sec p) PyFloat.zero)
                             (SourceMeta.fps m) ;;
        PyFloat.to_int x) = Ok (SamplingPlan.original_frame_length p)
    /\ SamplingPlan.step p
       = Z.max (SamplingPlan.original_frame_length p / SamplingPlan.frame_load_cap p) 1
    /\ SamplingPlan.new_fps p = SourceMeta.fps m / SamplingPlan.step p.
Proof.
  intros Hfps Hcount. destruct m as [f w h c]. simpl in Hfps, Hcount. subst f c.
  eexists. split; [vm_compute; reflexivity |].
  vm_compute. repeat split; reflexivity.
Qed.

Lemma sampling_plan_30fps_300frames_cap50_witness :
  exists p,
    sampling_plan Sample.clip PyFloat.zero PyFloat.zero 50 (Some (-1)) = Ok p
    /\ SamplingPlan.original_frame_length p = 300
    /\ SamplingPlan.step p = 6
    /\ SamplingPlan.new_fps p = 5
    /\ SamplingPlan.end_sec p = PyFloat.lit 10
    /\ SamplingPlan.frame_load_cap p = 50
    /\ (x <- PyFloat.mul_int (PyFloat.sub (SamplingPlan.end_sec p) PyFloat.zero)
                             (SourceMeta.fps Sample.clip) ;;
        PyFloat.to_int x) = Ok (SamplingPlan.original_frame_length p)
    /\ SamplingPlan.step p
       = Z.max (SamplingPlan.original_frame_length p / SamplingPlan.frame_load_cap p) 1
    /\ SamplingPlan.new_fps p = SourceMeta.fps Sample.clip / SamplingPlan.step p.
Proof.
  apply (sampling_plan_30fps_300frames_cap50 Sample.clip); reflexivity.
Defined.

(** ** Binary64 rounding: the size of a mantissa *)

Lemma digits2_pos_bounds p :
  2 ^ (Zpos (digits2_pos p) - 1) <= Zpos p < 2 ^ Zpos (digits2_pos p).
Proof.
  induction p as [p IH | p IH |]; simpl digits2_pos.
  - rewrite Pos2Z.inj_succ.
    replace (Z.succ (Zpos (digits2_pos p)) - 1) with (Z.succ (Zpos (digits2_pos p) - 1)) by lia.
    rewrite !Z.pow_succ_r by lia. lia.
  - rewrite Pos2Z.inj_succ.
    replace (Z.succ (Zpos (digits2_pos p)) - 1) with (Z.succ (Zpos (digits2_pos p) - 1)) by lia.
    rewrite !Z.pow_succ_r by lia. lia.
  - simpl. lia.
Qed.

Lemma Zdigits2_bounds m :
  0 < m -> 2 ^ (Zdigits2 m - 1) <= m < 2 ^ Zdigits2 m /\ 1 <= Zdigits2 m.
Proof.
  destruct m as [| p | p]; try lia. intros _. simpl Zdigits2.
  split; [apply digits2_pos_bounds | lia].
Qed.

Lemma Zdigits2_unique m k :
  2 ^ (k - 1) <= m < 2 ^ k -> 1 <= k -> Zdigits2 m = k.
Proof.
  intros Hm Hk.
  assert (Hpos : 0 < m).
  { assert (0 < 2 ^ (k - 1)) by (apply Z.pow_pos_nonneg; lia). lia. }
  destruct (Zdigits2_bounds m Hpos) as [Hd Hd1].
  destruct (Z.lt_trichotomy (Zdigits2 m) k) as [Hlt | [Heq | Hgt]]; [| assumption |].
  - assert (2 ^ Zdigits2 m <= 2 ^ (k - 1)) by (apply Z.pow_le_mono_r; lia). lia.
  - assert (2 ^ k <= 2 ^ (Zdigits2 m - 1)) by (apply Z.pow_le_mono_r; lia). lia.
Qed.

(** ** Shifting a mantissa right *)

Lemma shr_m_shr_1 mrs : 0 <= shr_m mrs -> shr_m (shr_1 mrs) = shr_m mrs / 2.
Proof.
  destruct mrs as [m r s]. simpl shr_m. intros Hm.
  destruct m as [| p | p]; [reflexivity | | lia].
  destruct p as [p | p |]; simpl.
  - rewrite Pos2Z.inj_xI. apply (Z.div_unique _ 2 _ 1); lia.
  - rewrite Pos2Z.inj_xO. apply (Z.div_unique _ 2 _ 0); lia.
  - reflexivity.
Qed.

Lemma shr_m_iter p : forall mrs,
  0 <= shr_m mrs ->
  shr_m (SpecFloat.iter_pos shr_1 p mrs) = shr_m mrs / 2 ^ Zpos p.
Proof.
  assert (Hnn : forall mrs, 0 <= shr_m mrs -> 0 <= shr_m (shr_1 mrs)).
  { intros mrs H. rewrite shr_m_shr_1 by assumption. apply Z.div_pos; lia. }
  induction p as [p IH | p IH |]; intros mrs Hm; simpl SpecFloat.iter_pos.
  - assert (Hp : 0 < 2 ^ Zpos p) by (apply Z.pow_pos_nonneg; lia).
    assert (H1 := Hnn mrs Hm).
    assert (H2 : 0 <= shr_m (SpecFloat.iter_pos shr_1 p (shr_1 mrs))).
    { rewrite IH by assumption. apply Z.div_pos; assumption. }
    rewrite IH, IH, shr_m_shr_1 by assumption.
    rewrite !Z.div_div by lia.
    f_equal. replace (Zpos p~1) with (Zpos p + Zpos p + 1) by lia.
    rewrite !Z.pow_add_r, Z.pow_1_r by lia. lia.
  - assert (Hp : 0 < 2 ^ Zpos p) by (apply Z.pow_pos_nonneg; lia).
    assert (H2 : 0 <= shr_m (SpecFloat.iter_pos shr_1 p mrs)).
    { rewrite IH by assumption. apply Z.div_pos; assumption. }
    rewrite IH, IH by assumption.
    rewrite !Z.div_div by lia.
    f_equal. replace (Zpos p~0) with (Zpos p + Zpos p) by lia.
    rewrite Z.pow_add_r by lia. reflexivity.
  - rewrite shr_m_shr_1 by assumption. reflexivity.
Qed.

Lemma shr_m_of_loc m l : shr_m (shr_record_of_loc m l) = m.
Proof. destruct l as [| []]; reflexivity. Qed.

(** [shr_fexp] divides the mantissa by the power of two that brings the
    exponent up to [fexp]. *)
Lemma shr_fexp_spec prec emax m e l :
  0 <= m ->
  let n := fexp prec emax (Zdigits2 m + e) - e in
  shr_m (fst (shr_fexp prec emax m e l)) = m / 2 ^ Z.max n 0
  /\ snd (shr_fexp prec emax m e l) = e + Z.max n 0.
Proof.
  intros Hm n. unfold shr_fexp. fold n. unfold shr.
  destruct n as [| p | p] eqn:Hn; simpl fst; simpl snd.
  - rewrite shr_m_of_loc. simpl. rewrite Z.div_1_r. lia.
  - rewrite shr_m_iter by (rewrite shr_m_of_loc; assumption).
    rewrite shr_m_of_loc. rewrite Z.max_l by lia. split; reflexivity.
  - rewrite shr_m_of_loc. rewrite Z.max_r by lia. simpl. rewrite Z.div_1_r. lia.
Qed.

Lemma round_nearest_even_bounds m l :
  m <= round_nearest_even m l <= m + 1.
Proof.
  unfold round_nearest_even. destruct l as [| []]; try lia.
  destruct (Z.even m); lia.
Qed.

Lemma fexp64 x : fexp 53 1024 x = Z.max (x - 53) (-1074).
Proof. reflexivity. Qed.

(** Rounding a mantissa of at least 53 bits in the normal range: the
    result has a 53-bit mantissa, and lies between the mantissa cut to
    53 bits and its successor. *)
Lemma binary_round_aux_normal sx mx ex lx :
  0 < mx -> 53 <= Zdigits2 mx -> -1074 <= Zdigits2 mx + ex - 53 ->
  let n := Zdigits2 mx - 53 in
  let m' := mx / 2 ^ n in
  exists (m : positive) (e : Z),
    binary_round_aux 53 1024 sx mx ex lx
    = (if e <=? 971 then S754_finite sx m e else S754_infinity sx)
    /\ 2 ^ 52 <= Zpos m < 2 ^ 53
    /\ 2 ^ 52 <= m' < 2 ^ 53
    /\ m' * 2 ^ n <= mx < (m' + 1) * 2 ^ n
    /\ (e = ex + n /\ m' <= Zpos m <= m' + 1
        \/ e = ex + n + 1 /\ Zpos m = 2 ^ 52 /\ m' + 1 = 2 ^ 53).
Proof.
  intros Hmx Hd Hnorm n m'.
  assert (Hn : 0 <= n) by (unfold n; lia).
  assert (Hpn : 0 < 2 ^ n) by (apply Z.pow_pos_nonneg; lia).
  destruct (Zdigits2_bounds mx Hmx) as [[Hlo Hhi] _].
  assert (Hlo' : 2 ^ 52 * 2 ^ n <= mx).
  { rewrite <- Z.pow_add_r by lia. replace (52 + n) with (Zdigits2 mx - 1) by (unfold n; lia).
    exact Hlo. }
  assert (Hhi' : mx < 2 ^ 53 * 2 ^ n).
  { rewrite <- Z.pow_add_r by lia. replace (53 + n) with (Zdigits2 mx) by (unfold n; lia).
    exact Hhi. }
  assert (Hm' : 2 ^ 52 <= m' < 2 ^ 53).
  { unfold m'. split.
    - apply Z.div_le_lower_bound; lia.
    - apply Z.div_lt_upper_bound; lia. }
  assert (Hcut : m' * 2 ^ n <= mx < (m' + 1) * 2 ^ n).
  { unfold m'. pose proof (Z.mul_div_le mx (2 ^ n) Hpn).
    pose proof (Z.mul_succ_div_gt mx (2 ^ n) Hpn). lia. }
  unfold binary_round_aux.
  pose proof (shr_fexp_spec 53 1024 mx ex lx ltac:(lia)) as Hs1. cbv zeta in Hs1.
  rewrite fexp64 in Hs1.
  replace (Z.max (Z.max (Zdigits2 mx + ex - 53) (-1074) - ex) 0) with n in Hs1
    by (unfold n; lia).
  destruct (shr_fexp 53 1024 mx ex lx) as [mrs' e'] eqn:E1.
  simpl fst in Hs1; simpl snd in Hs1. destruct Hs1 as [Hm1 He1]. fold m' in Hm1.
  set (m1 := round_nearest_even (shr_m mrs') (loc_of_shr_record mrs')).
  pose proof (round_nearest_even_bounds (shr_m mrs') (loc_of_shr_record mrs')) as Hr.
  fold m1 in Hr. rewrite Hm1 in Hr.
  pose proof (shr_fexp_spec 53 1024 m1 e' loc_Exact ltac:(lia)) as Hs2. cbv zeta in Hs2.
  rewrite fexp64 in Hs2.
  destruct (shr_fexp 53 1024 m1 e' loc_Exact) as [mrs'' e''] eqn:E2.
  simpl fst in Hs2; simpl snd in Hs2. destruct Hs2 as [Hm2 He2].
  change (1024 - 53) with 971.
  destruct (Z.eq_dec m1 (2 ^ 53)) as [Htop | Hntop].
  - assert (Hd1 : Zdigits2 m1 = 54).
    { apply Zdigits2_unique; [| lia]. rewrite Htop. change (54 - 1) with 53. split; [lia |].
      apply Z.pow_lt_mono_r; lia. }
    rewrite Hd1 in Hm2, He2.
    replace (Z.max (Z.max (54 + e' - 53) (-1074) - e') 0) with 1 in Hm2, He2 by lia.
    rewrite Htop in Hm2. change (2 ^ 53 / 2 ^ 1) with (2 ^ 52) in Hm2.
    rewrite Hm2. change (2 ^ 52) with (Zpos (2 ^ 52)%positive) at 1.
    exists (2 ^ 52)%positive, e''. split; [reflexivity |].
    split; [split; [reflexivity | reflexivity] |].
    split; [assumption |]. split; [assumption |].
    right. split; [lia | split; [reflexivity | lia]].
  - assert (Hd1 : Zdigits2 m1 = 53).
    { apply Zdigits2_unique; [| lia]. change (53 - 1) with 52. lia. }
    rewrite Hd1 in Hm2, He2.
    replace (Z.max (Z.max (53 + e' - 53) (-1074) - e') 0) with 0 in Hm2, He2 by lia.
    rewrite Z.pow_0_r, Z.div_1_r in Hm2.
    assert (Hpos1 : 0 < m1) by lia.
    rewrite Hm2. destruct m1 as [| p1 | p1]; try lia.
    exists p1, e''. split; [reflexivity |].
    split; [lia |]. split; [assumption |]. split; [assumption |].
    left. split; lia.
Qed.

(** ** Binary64 rounding: real bounds *)

Lemma bpow_pos e : (0 < bpow e)%R.
Proof. apply powerRZ_lt. lra. Qed.

Lemma bpow_add a b : bpow (a + b) = (bpow a * bpow b)%R.
Proof. apply powerRZ_add. lra. Qed.

Lemma bpow_IZR k : 0 <= k -> bpow k = IZR (2 ^ k).
Proof.
  intros Hk. unfold bpow. rewrite <- (Z2Nat.id k Hk) at 1 2.
  rewrite <- pow_powerRZ. rewrite pow_IZR. reflexivity.
Qed.

Lemma bpow_le a b : a <= b -> (bpow a <= bpow b)%R.
Proof.
  intros H. replace b with (a + (b - a)) by lia. rewrite bpow_add.
  rewrite (bpow_IZR (b - a)) by lia.
  assert (H1 : (1 <= IZR (2 ^ (b - a)))%R).
  { apply IZR_le. assert (0 < 2 ^ (b - a)) by (apply Z.pow_pos_nonneg; lia). lia. }
  pose proof (bpow_pos a). nra.
Qed.

Lemma bpow_lt_inv a b : (bpow a < bpow b)%R -> a < b.
Proof.
  intros H. destruct (Z.lt_ge_cases a b) as [Hlt | Hge]; [assumption |].
  apply bpow_le in Hge. lra.
Qed.

Lemma eps_spec : (eps * IZR (2 ^ 52) = 1)%R.
Proof.
  unfold eps. rewrite <- (bpow_IZR 52) by lia. rewrite <- bpow_add. reflexivity.
Qed.

Lemma eps_pos : (0 < eps)%R.
Proof. apply bpow_pos. Qed.

(** One rounding in the normal range, in real numbers: the result [V]
    of rounding a value [v] located between two consecutive multiples of
    [2^ex] satisfies [V <= v (1 + eps)] and [v <= V (1 + eps)]. *)
Lemma round_bounds sx mx ex lx (v : R) :
  0 < mx -> 53 <= Zdigits2 mx -> -1074 <= Zdigits2 mx + ex - 53 ->
  (F2R mx ex <= v <= F2R (mx + 1) ex)%R ->
  exists (m : positive) (e : Z),
    binary_round_aux 53 1024 sx mx ex lx
    = (if e <=? 971 then S754_finite sx m e else S754_infinity sx)
    /\ 2 ^ 52 <= Zpos m < 2 ^ 53
    /\ (F2R (Zpos m) e <= v * (1 + eps))%R
    /\ (v <= F2R (Zpos m) e * (1 + eps))%R.
Proof.
  intros Hmx Hd Hnorm Hv.
  destruct (binary_round_aux_normal sx mx ex lx Hmx Hd Hnorm)
    as (m & e & Hbra & Hm & Hm' & Hcut & Hcase).
  set (n := Zdigits2 mx - 53) in *. set (m' := mx / 2 ^ n) in *.
  assert (Hn : 0 <= n) by (unfold n; lia).
  exists m, e. split; [exact Hbra | split; [exact Hm |]].
  set (B := bpow (ex + n)).
  assert (HB : (0 < B)%R) by apply bpow_pos.
  assert (Hlow : (IZR m' * B <= v)%R).
  { apply Rle_trans with (2 := proj1 Hv). unfold F2R, B.
    rewrite (Z.add_comm ex n), bpow_add, (bpow_IZR n) by lia.
    rewrite <- Rmult_assoc, <- mult_IZR.
    apply Rmult_le_compat_r; [apply Rlt_le, bpow_pos | apply IZR_le; lia]. }
  assert (Hupp : (v <= IZR (m' + 1) * B)%R).
  { apply Rle_trans with (1 := proj2 Hv). unfold F2R, B.
    rewrite (Z.add_comm ex n), bpow_add, (bpow_IZR n) by lia.
    rewrite <- Rmult_assoc, <- mult_IZR.
    apply Rmult_le_compat_r; [apply Rlt_le, bpow_pos | apply IZR_le; lia]. }
  rewrite plus_IZR in Hupp.
  assert (Ha : (IZR (2 ^ 52) <= IZR m')%R) by (apply IZR_le; lia).
  pose proof eps_spec as He. pose proof eps_pos as Hep.
  assert (Hunit : (B <= eps * (IZR m' * B))%R).
  { assert (1 <= eps * IZR m')%R by nra. nra. }
  destruct Hcase as [(-> & Hmm) | (-> & Hmtop & Htop)].
  - fold B. unfold F2R. fold B.
    assert (Hm1 : (IZR m' <= IZR (Zpos m) <= IZR m' + 1)%R).
    { split; [apply IZR_le; lia |]. rewrite <- plus_IZR. apply IZR_le; lia. }
    split; nra.
  - unfold F2R. replace (ex + n + 1) with (1 + (ex + n)) by lia.
    rewrite bpow_add. fold B. rewrite Hmtop.
    assert (Htwo : (IZR (2 ^ 52) * (bpow 1 * B) = (IZR m' + 1) * B)%R).
    { rewrite <- plus_IZR, Htop. rewrite (bpow_IZR 1) by lia.
      rewrite <- Rmult_assoc, <- mult_IZR. reflexivity. }
    rewrite Htwo. split; nra.
Qed.

Lemma Zdigits2_ge m k : 0 <= k -> 2 ^ k <= m -> k + 1 <= Zdigits2 m.
Proof.
  intros Hk Hm.
  assert (Hpos : 0 < m).
  { assert (0 < 2 ^ k) by (apply Z.pow_pos_nonneg; lia). lia. }
  destruct (Zdigits2_bounds m Hpos) as [[_ Hhi] Hd].
  destruct (Z.lt_ge_cases k (Zdigits2 m)) as [Hlt | Hge]; [lia |].
  assert (2 ^ Zdigits2 m <= 2 ^ k) by (apply Z.pow_le_mono_r; lia). lia.
Qed.

Lemma Zdigits2_le m k : 0 < m -> 0 <= k -> m < 2 ^ k -> Zdigits2 m <= k.
Proof.
  intros Hpos Hk Hm.
  destruct (Zdigits2_bounds m Hpos) as [[Hlo _] Hd].
  destruct (Z.lt_ge_cases k (Zdigits2 m)) as [Hlt | Hge]; [| lia].
  assert (2 ^ k <= 2 ^ (Zdigits2 m - 1)) by (apply Z.pow_le_mono_r; lia). lia.
Qed.

Lemma F2R_mantissa_bounds (m : positive) e :
  2 ^ 52 <= Zpos m < 2 ^ 53 ->
  (bpow (52 + e) <= F2R (Zpos m) e < bpow (53 + e))%R.
Proof.
  intros Hm. unfold F2R. rewrite !bpow_add, (bpow_IZR 52), (bpow_IZR 53) by lia.
  pose proof (bpow_pos e).
  assert (IZR (2 ^ 52) <= IZR (Zpos m))%R by (apply IZR_le; lia).
  assert (IZR (Zpos m) < IZR (2 ^ 53))%R by (apply IZR_lt; lia).
  split; nra.
Qed.

Lemma Pos_iter_xO p d : Zpos (Pos.iter xO p d) = Zpos p * 2 ^ Zpos d.
Proof.
  induction d as [| d IH] using Pos.peano_ind.
  - simpl. lia.
  - rewrite Pos.iter_succ, Pos2Z.inj_xO, IH, Pos2Z.inj_succ, Z.pow_succ_r by lia. lia.
Qed.

(** [float(n)] for a positive integer. *)
Lemma of_int_bounds n :
  0 < n ->
  exists (m : positive) (e : Z),
    binary_normalize 53 1024 n 0 false
    = (if e <=? 971 then S754_finite false m e else S754_infinity false)
    /\ 2 ^ 52 <= Zpos m < 2 ^ 53
    /\ (F2R (Zpos m) e <= IZR n * (1 + eps))%R
    /\ (IZR n <= F2R (Zpos m) e * (1 + eps))%R.
Proof.
  intros Hn. destruct n as [| p | p]; try lia.
  unfold binary_normalize, binary_round.
  destruct (Zdigits2_bounds (Zpos p) Hn) as [[Hlo Hhi] Hd]. simpl Zdigits2 in *.
  set (d := Zpos (digits2_pos p)) in *.
  rewrite fexp64. replace (Z.max (d + 0 - 53) (-1074)) with (d - 53) by lia.
  unfold shl_align.
  destruct (d - 53 - 0) as [| k | k] eqn:Hk.
  - apply round_bounds; try lia.
    + simpl Zdigits2. fold d. lia.
    + simpl Zdigits2. fold d. lia.
    + unfold F2R. rewrite plus_IZR. change (bpow 0) with 1%R. lra.
  - apply round_bounds; try lia.
    + simpl Zdigits2. fold d. lia.
    + simpl Zdigits2. fold d. lia.
    + unfold F2R. rewrite plus_IZR. change (bpow 0) with 1%R. lra.
  - assert (Hkd : Zpos k = 53 - d) by lia.
    assert (Hmz : Zpos (Pos.iter xO p k) = Zpos p * 2 ^ (53 - d)).
    { rewrite Pos_iter_xO, Hkd. reflexivity. }
    assert (Hp2 : 0 < 2 ^ (53 - d)) by (apply Z.pow_pos_nonneg; lia).
    assert (Hb : 2 ^ 52 <= Zpos (Pos.iter xO p k) < 2 ^ 53).
    { rewrite Hmz.
      replace (2 ^ 52) with (2 ^ (d - 1) * 2 ^ (53 - d))
        by (rewrite <- Z.pow_add_r by lia; f_equal; lia).
      replace (2 ^ 53) with (2 ^ d * 2 ^ (53 - d))
        by (rewrite <- Z.pow_add_r by lia; f_equal; lia).
      nia. }
    assert (Hdz : Zdigits2 (Zpos (Pos.iter xO p k)) = 53).
    { apply Zdigits2_unique; [exact Hb | lia]. }
    apply round_bounds; try lia.
    assert (Hval : F2R (Zpos (Pos.iter xO p k)) (d - 53) = IZR (Zpos p)).
    { unfold F2R. rewrite Hmz, mult_IZR, <- (bpow_IZR (53 - d)) by lia.
      rewrite Rmult_assoc, <- bpow_add. replace (53 - d + (d - 53)) with 0 by lia.
      change (bpow 0) with 1%R. lra. }
    unfold F2R in *. rewrite plus_IZR. pose proof (bpow_pos (d - 53)). lra.
Qed.

(** [a / b] for two positive integers. *)
Lemma truediv_bounds (a b : positive) :
  Zpos b < 2 ^ 1000 ->
  exists (m : positive) (e : Z),
    SFdiv 53 1024 (S754_finite false a 0) (S754_finite false b 0)
    = (if e <=? 971 then S754_finite false m e else S754_infinity false)
    /\ 2 ^ 52 <= Zpos m < 2 ^ 53
    /\ (F2R (Zpos m) e <= IZR (Zpos a) / IZR (Zpos b) * (1 + eps))%R
    /\ (IZR (Zpos a) / IZR (Zpos b) <= F2R (Zpos m) e * (1 + eps))%R.
Proof.
  intros Hb1000. unfold SFdiv, SFdiv_core_binary.
  destruct (Zdigits2_bounds (Zpos a) ltac:(lia)) as [[Halo Hahi] Hda].
  destruct (Zdigits2_bounds (Zpos b) ltac:(lia)) as [[Hblo Hbhi] Hdb].
  assert (Hdb1000 : Zdigits2 (Zpos b) <= 1000) by (apply Zdigits2_le; lia).
  set (d1 := Zdigits2 (Zpos a)) in *. set (d2 := Zdigits2 (Zpos b)) in *.
  rewrite fexp64.
  replace (Z.max (d1 + 0 - (d2 + 0) - 53) (-1074)) with (d1 - d2 - 53) by lia.
  replace (0 - 0) with 0 by lia.
  set (e' := Z.min (d1 - d2 - 53) 0). replace (0 - e') with (- e') by lia.
  set (Q := match - e' with
            | 0 => Zpos a
            | Zpos _ => Z.shiftl (Zpos a) (- e')
            | Zneg _ => 0
            end).
  assert (HQ : Q = Zpos a * 2 ^ (- e')).
  { unfold Q. destruct (- e') as [| s | s] eqn:Hs.
    - simpl. lia.
    - rewrite Z.shiftl_mul_pow2 by lia. reflexivity.
    - unfold e' in Hs. lia. }
  clearbody Q.
  assert (Hq : fst (Z.div_eucl Q (Zpos b)) = Q / Zpos b) by reflexivity.
  destruct (Z.div_eucl Q (Zpos b)) as [q r]. simpl fst in Hq. subst q.
  simpl xorb.
  assert (Hs : 0 <= - e') by (unfold e'; lia).
  assert (Hps : 0 < 2 ^ (- e')) by (apply Z.pow_pos_nonneg; lia).
  assert (Hdiv : Q / Zpos b * Zpos b <= Q < (Q / Zpos b + 1) * Zpos b).
  { pose proof (Z.mul_div_le Q (Zpos b) ltac:(lia)).
    pose proof (Z.mul_succ_div_gt Q (Zpos b) ltac:(lia)). lia. }
  assert (Hq52 : 2 ^ 52 <= Q / Zpos b).
  { apply Z.div_le_lower_bound; [lia |].
    apply Z.le_trans with (2 ^ d2 * 2 ^ 52).
    - apply Z.mul_le_mono_nonneg_r; lia.
    - rewrite HQ, <- Z.pow_add_r by lia.
      apply Z.le_trans with (2 ^ (d1 - 1) * 2 ^ (- e')).
      + rewrite <- Z.pow_add_r by lia. apply Z.pow_le_mono_r; unfold e'; lia.
      + apply Z.mul_le_mono_nonneg_r; lia. }
  assert (Hdq : 53 <= Zdigits2 (Q / Zpos b)) by (apply (Zdigits2_ge _ 52); lia).
  apply round_bounds; try (unfold e'; lia).
  assert (Hbpos : (0 < IZR (Zpos b))%R) by (apply IZR_lt; lia).
  assert (Hee : (bpow (- e') * bpow e' = 1)%R).
  { rewrite <- bpow_add. replace (- e' + e') with 0 by lia. reflexivity. }
  assert (HQR : (IZR Q * bpow e' = IZR (Zpos a))%R).
    { rewrite HQ, mult_IZR, <- (bpow_IZR (- e')) by lia. rewrite Rmult_assoc, Hee. lra. }
    assert (H1 : (IZR (Q / Zpos b) * IZR (Zpos b) <= IZR Q)%R).
    { rewrite <- mult_IZR. apply IZR_le. lia. }
    assert (H2 : (IZR Q <= IZR (Q / Zpos b + 1) * IZR (Zpos b))%R).
    { rewrite <- mult_IZR. apply IZR_le. lia. }
    pose proof (bpow_pos e') as Hbe.
    unfold F2R. unfold Rdiv. rewrite <- HQR.
    split.
    + apply Rmult_le_reg_r with (IZR (Zpos b)); [assumption |].
      replace (IZR Q * bpow e' * / IZR (Zpos b) * IZR (Zpos b))%R
        with (IZR Q * bpow e')%R by (field; lra).
      nra.
    + apply Rmult_le_reg_r with (IZR (Zpos b)); [assumption |].
      replace (IZR Q * bpow e' * / IZR (Zpos b) * IZR (Zpos b))%R
        with (IZR Q * bpow e')%R by (field; lra).
      nra.
Qed.

(** The product of two floats with 53-bit mantissas. *)
Lemma mul_bounds (mx : positive) ex (my : positive) ey :
  2 ^ 52 <= Zpos mx < 2 ^ 53 -> 2 ^ 52 <= Zpos my < 2 ^ 53 ->
  -1126 <= ex + ey ->
  exists (m : positive) (e : Z),
    SFmul 53 1024 (S754_finite false mx ex) (S754_finite false my ey)
    = (if e <=? 971 then S754_finite false m e else S754_infinity false)
    /\ 2 ^ 52 <= Zpos m < 2 ^ 53
    /\ (F2R (Zpos m) e <= F2R (Zpos mx) ex * F2R (Zpos my) ey * (1 + eps))%R
    /\ (F2R (Zpos mx) ex * F2R (Zpos my) ey <= F2R (Zpos m) e * (1 + eps))%R.
Proof.
  intros Hx Hy HE. unfold SFmul. simpl xorb.
  assert (HM : 2 ^ 104 <= Zpos (mx * my)).
  { rewrite Pos2Z.inj_mul. change (2 ^ 104) with (2 ^ 52 * 2 ^ 52). nia. }
  assert (HdM : 105 <= Zdigits2 (Zpos (mx * my))) by (apply (Zdigits2_ge _ 104); lia).
  apply round_bounds; try lia.
  assert (Hval : (F2R (Zpos (mx * my)) (ex + ey)
                  = F2R (Zpos mx) ex * F2R (Zpos my) ey)%R).
  { unfold F2R. rewrite Pos2Z.inj_mul, mult_IZR, bpow_add. ring. }
  rewrite <- Hval. unfold F2R. rewrite plus_IZR.
  pose proof (bpow_pos (ex + ey)). lra.
Qed.

(** [int(x)] for a float that is at least 1. *)
Lemma to_int_ge_1 (m : positive) e :
  (1 <= F2R (Zpos m) e)%R ->
  exists k, PyFloat.to_int (S754_finite false m e) = Ok k /\ 1 <= k.
Proof.
  intros H. simpl. eexists. split; [reflexivity |].
  destruct (Z.le_gt_cases 0 e) as [He | He].
  - rewrite Z.shiftl_mul_pow2 by assumption.
    assert (0 < 2 ^ e) by (apply Z.pow_pos_nonneg; lia). nia.
  - rewrite Z.shiftl_div_pow2 by lia.
    assert (Hp : 0 < 2 ^ (- e)) by (apply Z.pow_pos_nonneg; lia).
    apply Z.div_le_lower_bound; [assumption |]. rewrite Z.mul_1_r.
    apply le_IZR. rewrite <- (bpow_IZR (- e)) by lia.
    unfold F2R in H.
    assert (Hee : (bpow (- e) * bpow e = 1)%R).
    { rewrite <- bpow_add. replace (- e + e) with 0 by lia. reflexivity. }
    pose proof (bpow_pos e). pose proof (bpow_pos (- e)). nra.
Qed.

(** ** Line 94 in real numbers *)

Lemma eps_le_quarter : (4 * eps <= 1)%R.
Proof.
  pose proof eps_spec as H. pose proof eps_pos as Hp.
  assert (H4 : (4 <= IZR (2 ^ 52))%R) by (apply IZR_le; vm_compute; discriminate).
  nra.
Qed.

Lemma bpow_opp e : (bpow (- e) * bpow e = 1)%R.
Proof. rewrite <- bpow_add. replace (- e + e) with 0 by lia. reflexivity. Qed.

Lemma bpow_double e : (2 * bpow e = bpow (e + 1))%R.
Proof. rewrite bpow_add. replace (bpow 1) with 2%R by (unfold bpow; simpl; lra). ring. Qed.

Lemma exponent_upper (m : positive) e b :
  2 ^ 52 <= Zpos m < 2 ^ 53 -> (F2R (Zpos m) e < bpow b)%R -> e + 52 < b.
Proof.
  intros Hm H. pose proof (F2R_mantissa_bounds m e Hm) as [Hlo _].
  assert (Hlt : (bpow (52 + e) < bpow b)%R) by lra.
  apply bpow_lt_inv in Hlt. lia.
Qed.

Lemma exponent_lower (m : positive) e a :
  2 ^ 52 <= Zpos m < 2 ^ 53 -> (bpow a <= F2R (Zpos m) e)%R -> a < 53 + e.
Proof.
  intros Hm H. pose proof (F2R_mantissa_bounds m e Hm) as [_ Hhi].
  assert (Hlt : (bpow a < bpow (53 + e))%R) by lra.
  apply bpow_lt_inv in Hlt. lia.
Qed.

(** Line 94 with a ceiling up to 2^50: whenever it returns, the
    recomputed stride is at least 1, whatever the source rate. *)
Lemma clamp_step_ge_1 s0 mx n0 s' :
  1 <= s0 -> 0 < mx < n0 -> mx <= 2 ^ 50 ->
  clamp_step s0 mx n0 = Ok s' -> 1 <= s'.
Proof.
  intros Hs Hm Hmx50 Hok.
  assert (Hmx : mx < 2 ^ 1000).
  { apply Z.le_lt_trans with (2 ^ 50); [assumption |].
    apply Z.pow_lt_mono_r; lia. }
  destruct s0 as [| a | a]; try lia. destruct mx as [| b | b]; try lia.
  destruct (truediv_bounds a b Hmx) as (mq & eq & Hq & Hmq & Hq1 & Hq2).
  destruct (of_int_bounds n0 ltac:(lia)) as (mf & ef & Hf & Hmf & Hf1 & Hf2).
  pose proof eps_pos as Heps. pose proof eps_le_quarter as Heps4.
  set (S := IZR (Zpos a)) in *. set (X := IZR (Zpos b)) in *. set (N := IZR n0) in *.
  assert (HS : (1 <= S)%R) by (apply IZR_le; lia).
  assert (HX : (1 <= X)%R) by (apply IZR_le; lia).
  assert (HN : (X + 1 <= N)%R).
  { unfold X, N. rewrite <- plus_IZR. apply IZR_le. lia. }
  assert (HX50 : (4 * eps * X <= 1)%R).
  { pose proof eps_spec as He. unfold X.
    assert (H50 : (IZR (Zpos b) <= IZR (2 ^ 50))%R) by (apply IZR_le; assumption).
    assert (H52 : (IZR (2 ^ 52) = 4 * IZR (2 ^ 50))%R).
    { rewrite <- mult_IZR. reflexivity. }
    nra. }
  set (r := (S / X)%R) in *.
  assert (Hr : (r * X = S)%R) by (unfold r; field; lra).
  assert (Hr0 : (0 < r)%R) by (unfold r; apply Rdiv_lt_0_compat; lra).
  assert (Hr4 : (4 * eps <= r)%R).
  { apply Rmult_le_reg_r with X; [lra |]. nra. }
  pose proof (F2R_mantissa_bounds mq eq Hmq) as [Hq0 _].
  pose proof (F2R_mantissa_bounds mf ef Hmf) as [Hf0 _].
  pose proof (bpow_pos (52 + eq)) as Hq0'. pose proof (bpow_pos (52 + ef)) as Hf0'.
  set (Vq := F2R (Zpos mq) eq) in *. set (Vf := F2R (Zpos mf) ef) in *.
  assert (Heq_lo : -103 <= eq).
  { assert (Hle : (bpow (-51) <= Vq)%R).
    { pose proof (bpow_double (-51)) as Hd. simpl Z.add in Hd.
      assert (H4e : (4 * eps = bpow (-50))%R).
      { unfold eps. replace (-50) with (2 + -52) by lia. rewrite bpow_add.
        replace (bpow 2) with 4%R by (unfold bpow; simpl; lra). reflexivity. }
      pose proof (bpow_pos (-51)). nra. }
    apply exponent_lower in Hle; [lia | assumption]. }
  assert (Hef_lo : -53 <= ef).
  { assert (Hle : (bpow (-1) <= Vf)%R).
    { pose proof (bpow_double (-1)) as Hd. change (bpow (-1 + 1)) with 1%R in Hd.
      pose proof (bpow_pos (-1)). nra. }
    apply exponent_lower in Hle; [lia | assumption]. }
  destruct (mul_bounds mq eq mf ef Hmq Hmf ltac:(lia)) as (my & ey & Hy & Hmy & Hy1 & Hy2).
  fold Vq Vf in Hy1, Hy2.
  unfold clamp_step, clamp_ratio, PyFloat.truediv_int, PyFloat.prec, PyFloat.emax in Hok.
  rewrite Hq in Hok.
  destruct (eq <=? 971); [| discriminate Hok].
  cbn [bind] in Hok.
  unfold PyFloat.mul_int, PyFloat.of_int, PyFloat.prec, PyFloat.emax in Hok.
  rewrite Hf in Hok.
  destruct (ef <=? 971); [| discriminate Hok].
  cbn [bind] in Hok. unfold PyFloat.mul, PyFloat.prec, PyFloat.emax in Hok.
  rewrite Hy in Hok.
  destruct (ey <=? 971); [| discriminate Hok].
  assert (Hone : (1 <= F2R (Zpos my) ey)%R).
  { set (Vy := F2R (Zpos my) ey) in *.
    assert (HrN : (1 + 4 * eps <= r * N)%R) by nra.
    assert (Hqf : (r * N <= Vq * Vf * ((1 + eps) * (1 + eps)))%R).
    { replace (Vq * Vf * ((1 + eps) * (1 + eps)))%R
        with ((Vq * (1 + eps)) * (Vf * (1 + eps)))%R by ring.
      apply Rmult_le_compat; lra. }
    assert (Hcube : (r * N <= Vy * ((1 + eps) * ((1 + eps) * (1 + eps))))%R).
    { apply Rle_trans with (1 := Hqf).
      replace (Vy * ((1 + eps) * ((1 + eps) * (1 + eps))))%R
        with (Vy * (1 + eps) * ((1 + eps) * (1 + eps)))%R by ring.
      apply Rmult_le_compat_r; [nra | assumption]. }
    assert (He3 : ((1 + eps) * ((1 + eps) * (1 + eps)) <= 1 + 4 * eps)%R) by nra.
    assert (Hpos3 : (0 < (1 + eps) * ((1 + eps) * (1 + eps)))%R).
    { repeat apply Rmult_lt_0_compat; lra. }
    destruct (Rle_or_lt 1 Vy) as [Hge | Hlt]; [assumption | exfalso].
    assert (Hy0 : (0 < Vy)%R).
    { pose proof (F2R_mantissa_bounds my ey Hmy) as [Hlo _].
      pose proof (bpow_pos (52 + ey)). unfold Vy. lra. }
    nra. }
  destruct (to_int_ge_1 my ey Hone) as (k & Hk & Hk1).
  simpl in Hok. simpl in Hk. congruence.
Qed.

(** ** Rounding in the subnormal range and at the top of the range *)

(** Rounding a mantissa that sits at or below its canonical exponent,
    in the normal or in the subnormal range: the result is a zero or a
    canonical float, between the mantissa cut at the canonical exponent
    and its successor. *)
Lemma binary_round_aux_canonical sx mx ex lx :
  0 < mx -> ex <= fexp 53 1024 (Zdigits2 mx + ex) ->
  let e1 := fexp 53 1024 (Zdigits2 mx + ex) in
  let k := e1 - ex in
  let m' := mx / 2 ^ k in
  m' * 2 ^ k <= mx < (m' + 1) * 2 ^ k
  /\ exists m3 e3,
       binary_round_aux 53 1024 sx mx ex lx
       = match m3 with
         | Z0 => S754_zero sx
         | Zpos p => if e3 <=? 971 then S754_finite sx p e3 else S754_infinity sx
         | Zneg _ => S754_nan
         end
       /\ 0 <= m3 < 2 ^ 53
       /\ (e3 = -1074 \/ 2 ^ 52 <= m3)
       /\ (e3 = e1 /\ m' <= m3 <= m' + 1
           \/ e3 = e1 + 1 /\ m3 = 2 ^ 52 /\ m' + 1 = 2 ^ 53).
Proof.
  intros Hmx Hcan e1 k m'.
  assert (Hk : 0 <= k) by (unfold k, e1; lia).
  assert (Hpk : 0 < 2 ^ k) by (apply Z.pow_pos_nonneg; lia).
  destruct (Zdigits2_bounds mx Hmx) as [[Hlo Hhi] Hd1].
  assert (He1 : e1 = Z.max (Zdigits2 mx + ex - 53) (-1074)) by (unfold e1; apply fexp64).
  assert (Hcut : m' * 2 ^ k <= mx < (m' + 1) * 2 ^ k).
  { unfold m'. pose proof (Z.mul_div_le mx (2 ^ k) Hpk).
    pose proof (Z.mul_succ_div_gt mx (2 ^ k) Hpk). lia. }
  split; [exact Hcut |].
  assert (Hm'0 : 0 <= m') by (unfold m'; apply Z.div_pos; lia).
  assert (Hm'hi : m' < 2 ^ 53).
  { unfold m'. apply Z.div_lt_upper_bound; [assumption |].
    apply Z.lt_le_trans with (2 ^ Zdigits2 mx); [assumption |].
    rewrite <- Z.pow_add_r by lia. apply Z.pow_le_mono_r; lia. }
  assert (Hm'lo : e1 = -1074 \/ 2 ^ 52 <= m').
  { destruct (Z.eq_dec e1 (-1074)) as [E | E]; [left; assumption | right].
    assert (Hk53 : k = Zdigits2 mx - 53) by (unfold k; lia).
    unfold m'. apply Z.div_le_lower_bound; [assumption |].
    rewrite Z.mul_comm, <- Z.pow_add_r by lia.
    replace (52 + k) with (Zdigits2 mx - 1) by lia. exact Hlo. }
  unfold binary_round_aux.
  pose proof (shr_fexp_spec 53 1024 mx ex lx ltac:(lia)) as Hs1. cbv zeta in Hs1.
  fold e1 in Hs1. fold k in Hs1. rewrite Z.max_l in Hs1 by assumption. fold m' in Hs1.
  destruct (shr_fexp 53 1024 mx ex lx) as [mrs' e'] eqn:E1.
  simpl fst in Hs1; simpl snd in Hs1. destruct Hs1 as [Hm1 He'].
  replace (ex + k) with e1 in He' by (unfold k; lia).
  set (m1 := round_nearest_even (shr_m mrs') (loc_of_shr_record mrs')).
  pose proof (round_nearest_even_bounds (shr_m mrs') (loc_of_shr_record mrs')) as Hr.
  fold m1 in Hr. rewrite Hm1 in Hr.
  pose proof (shr_fexp_spec 53 1024 m1 e' loc_Exact ltac:(lia)) as Hs2. cbv zeta in Hs2.
  rewrite fexp64 in Hs2.
  destruct (shr_fexp 53 1024 m1 e' loc_Exact) as [mrs'' e''] eqn:E2.
  simpl fst in Hs2; simpl snd in Hs2. destruct Hs2 as [Hm2 He2].
  change (1024 - 53) with 971. subst e'.
  destruct (Z.eq_dec m1 (2 ^ 53)) as [Htop | Hntop].
  - assert (Hdm : Zdigits2 m1 = 54).
    { apply Zdigits2_unique; [| lia]. rewrite Htop. change (54 - 1) with 53. split; [lia |].
      apply Z.pow_lt_mono_r; lia. }
    rewrite Hdm in Hm2, He2.
    replace (Z.max (Z.max (54 + e1 - 53) (-1074) - e1) 0) with 1 in Hm2, He2 by lia.
    rewrite Htop in Hm2. change (2 ^ 53 / 2 ^ 1) with (2 ^ 52) in Hm2.
    exists (2 ^ 52), e''. rewrite Hm2.
    split; [reflexivity |].
    split; [split; [discriminate | reflexivity] |].
    split; [right; lia |].
    right. split; [lia | split; [reflexivity | lia]].
  - assert (Hshift : Z.max (Z.max (Zdigits2 m1 + e1 - 53) (-1074) - e1) 0 = 0).
    { destruct (Z.eq_dec m1 0) as [-> | Hnz]; [simpl Zdigits2; lia |].
      assert (Zdigits2 m1 <= 53) by (apply Zdigits2_le; lia). lia. }
    rewrite Hshift in Hm2, He2. rewrite Z.pow_0_r, Z.div_1_r in Hm2.
    exists m1, e''. rewrite Hm2.
    split; [reflexivity |].
    split; [lia |].
    split; [destruct Hm'lo; [left | right]; lia |].
    left. split; lia.
Qed.

Lemma F2R_le m1 m2 e : m1 <= m2 -> (F2R m1 e <= F2R m2 e)%R.
Proof.
  intros H. unfold F2R. apply Rmult_le_compat_r; [apply Rlt_le, bpow_pos |].
  apply IZR_le. exact H.
Qed.

Lemma F2R_shift m k e : 0 <= k -> F2R (m * 2 ^ k) e = F2R m (e + k).
Proof.
  intros Hk. unfold F2R. rewrite mult_IZR, <- (bpow_IZR k) by assumption.
  rewrite bpow_add. ring.
Qed.

(** One rounding at or below the canonical exponent, in real numbers:
    the error is at most [eps] times the value, or at most 2^-1074. *)
Lemma round_canonical sx mx ex lx (v : R) :
  0 < mx -> ex <= fexp 53 1024 (Zdigits2 mx + ex) ->
  (F2R mx ex <= v <= F2R (mx + 1) ex)%R ->
  exists m3 e3 (err : R),
    binary_round_aux 53 1024 sx mx ex lx
    = match m3 with
      | Z0 => S754_zero sx
      | Zpos p => if e3 <=? 971 then S754_finite sx p e3 else S754_infinity sx
      | Zneg _ => S754_nan
      end
    /\ 0 <= m3 < 2 ^ 53
    /\ (e3 = -1074 \/ 2 ^ 52 <= m3)
    /\ (F2R m3 e3 <= v + err)%R
    /\ (v <= F2R m3 e3 + err)%R
    /\ (err = bpow (-1074) \/ (err <= v * eps)%R).
Proof.
  intros Hmx Hcan Hv.
  destruct (binary_round_aux_canonical sx mx ex lx Hmx Hcan)
    as (Hcut & m3 & e3 & Hres & Hm3 & Hcanon & Hcase).
  set (e1 := fexp 53 1024 (Zdigits2 mx + ex)) in *.
  set (k := e1 - ex) in *. set (m' := mx / 2 ^ k) in *.
  assert (Hk : 0 <= k) by (unfold k; lia).
  exists m3, e3, (bpow e1).
  split; [exact Hres |]. split; [exact Hm3 |]. split; [exact Hcanon |].
  assert (Hlow : (F2R m' e1 <= v)%R).
  { apply Rle_trans with (2 := proj1 Hv).
    replace e1 with (ex + k) by (unfold k; lia). rewrite <- F2R_shift by assumption.
    apply F2R_le. lia. }
  assert (Hupp : (v <= F2R (m' + 1) e1)%R).
  { apply Rle_trans with (1 := proj2 Hv).
    replace e1 with (ex + k) by (unfold k; lia). rewrite <- F2R_shift by assumption.
    apply F2R_le. lia. }
  assert (Hres_lo : (F2R m' e1 <= F2R m3 e3)%R /\ (F2R m3 e3 <= F2R (m' + 1) e1)%R).
  { destruct Hcase as [(-> & Hmm) | (-> & -> & Htop)].
    - split; apply F2R_le; lia.
    - replace (2 ^ 52) with (2 ^ 52 * 2 ^ 0) by reflexivity.
      assert (Heq : F2R (2 ^ 52 * 2 ^ 0) (e1 + 1) = F2R (m' + 1) e1).
      { rewrite Htop. change (2 ^ 53) with (2 ^ 52 * 2 ^ 1).
        rewrite (F2R_shift (2 ^ 52) 1 e1) by lia. reflexivity. }
      rewrite Heq. split; [apply F2R_le; lia | apply Rle_refl]. }
  assert (Hsucc : (F2R (m' + 1) e1 = F2R m' e1 + bpow e1)%R).
  { unfold F2R. rewrite plus_IZR. ring. }
  split; [lra |]. split; [lra |].
  assert (He1 : e1 = Z.max (Zdigits2 mx + ex - 53) (-1074)) by (unfold e1; apply fexp64).
  destruct (Z.eq_dec e1 (-1074)) as [E | E]; [left; rewrite E; reflexivity | right].
  destruct (Zdigits2_bounds mx Hmx) as [[Hlo _] Hd1].
  assert (Hbig : (bpow (e1 + 52) <= v)%R).
  { apply Rle_trans with (2 := proj1 Hv).
    replace (e1 + 52) with (ex + (Zdigits2 mx - 1)) by lia.
    replace (bpow (ex + (Zdigits2 mx - 1))) with (F2R 1 (ex + (Zdigits2 mx - 1)))
      by (unfold F2R; lra).
    rewrite <- F2R_shift by lia. apply F2R_le. lia. }
  rewrite bpow_add in Hbig. pose proof eps_spec as He.
  rewrite <- (bpow_IZR 52) in He by lia.
  pose proof (bpow_pos e1). pose proof (bpow_pos 52). pose proof eps_pos.
  assert (bpow e1 = bpow e1 * bpow 52 * eps)%R by (rewrite Rmult_assoc, (Rmult_comm (bpow 52)), He; ring).
  nra.
Qed.

(** [a / b] for two positive integers, whatever the size of the
    quotient: a zero or a canonical float within one rounding of it. *)
Lemma truediv_canonical (a b : positive) :
  Zpos b < 2 ^ 1074 ->
  exists m3 e3 (err : R),
    SFdiv 53 1024 (S754_finite false a 0) (S754_finite false b 0)
    = match m3 with
      | Z0 => S754_zero false
      | Zpos p => if e3 <=? 971 then S754_finite false p e3 else S754_infinity false
      | Zneg _ => S754_nan
      end
    /\ 0 <= m3 < 2 ^ 53
    /\ (e3 = -1074 \/ 2 ^ 52 <= m3)
    /\ (F2R m3 e3 <= IZR (Zpos a) / IZR (Zpos b) + err)%R
    /\ (IZR (Zpos a) / IZR (Zpos b) <= F2R m3 e3 + err)%R
    /\ (err = bpow (-1074) \/ (err <= IZR (Zpos a) / IZR (Zpos b) * eps)%R).
Proof.
  intros Hb. unfold SFdiv, SFdiv_core_binary.
  destruct (Zdigits2_bounds (Zpos a) ltac:(lia)) as [[Halo Hahi] Hda].
  destruct (Zdigits2_bounds (Zpos b) ltac:(lia)) as [[Hblo Hbhi] Hdb].
  set (d1 := Zdigits2 (Zpos a)) in *. set (d2 := Zdigits2 (Zpos b)) in *.
  rewrite fexp64. replace (0 - 0) with 0 by lia.
  replace (d1 + 0 - (d2 + 0) - 53) with (d1 - d2 - 53) by lia.
  set (e' := Z.min (Z.max (d1 - d2 - 53) (-1074)) 0). replace (0 - e') with (- e') by lia.
  set (Q := match - e' with
            | 0 => Zpos a
            | Zpos _ => Z.shiftl (Zpos a) (- e')
            | Zneg _ => 0
            end).
  assert (HQ : Q = Zpos a * 2 ^ (- e')).
  { unfold Q. destruct (- e') as [| s | s] eqn:Hs.
    - simpl. lia.
    - rewrite Z.shiftl_mul_pow2 by lia. reflexivity.
    - unfold e' in Hs. lia. }
  clearbody Q.
  assert (Hq : fst (Z.div_eucl Q (Zpos b)) = Q / Zpos b) by reflexivity.
  destruct (Z.div_eucl Q (Zpos b)) as [q r]. simpl fst in Hq. subst q.
  simpl xorb.
  assert (Hs : 0 <= - e') by (unfold e'; lia).
  assert (Hps : 0 < 2 ^ (- e')) by (apply Z.pow_pos_nonneg; lia).
  assert (Hdiv : Q / Zpos b * Zpos b <= Q < (Q / Zpos b + 1) * Zpos b).
  { pose proof (Z.mul_div_le Q (Zpos b) ltac:(lia)).
    pose proof (Z.mul_succ_div_gt Q (Zpos b) ltac:(lia)). lia. }
  assert (Hqcan : 0 < Q / Zpos b
                  /\ e' <= Z.max (Zdigits2 (Q / Zpos b) + e' - 53) (-1074)).
  { destruct (Z.eq_dec e' (-1074)) as [E | E].
    - split; [| lia].
      apply Z.div_str_pos. split; [lia |]. rewrite HQ, E. simpl Z.opp.
      assert (1 * 2 ^ 1074 <= Zpos a * 2 ^ 1074)
        by (apply Z.mul_le_mono_nonneg_r; lia).
      lia.
    - assert (Hle : e' <= d1 - d2 - 53) by (unfold e' in *; lia).
      assert (Hq52 : 2 ^ 52 <= Q / Zpos b).
      { apply Z.div_le_lower_bound; [lia |].
        apply Z.le_trans with (2 ^ d2 * 2 ^ 52).
        - apply Z.mul_le_mono_nonneg_r; lia.
        - rewrite HQ, <- Z.pow_add_r by lia.
          apply Z.le_trans with (2 ^ (d1 - 1) * 2 ^ (- e')).
          + rewrite <- Z.pow_add_r by lia. apply Z.pow_le_mono_r; lia.
          + apply Z.mul_le_mono_nonneg_r; lia. }
      assert (Hdq : 53 <= Zdigits2 (Q / Zpos b)) by (apply (Zdigits2_ge _ 52); lia).
      split; [| lia].
      assert (0 < 2 ^ 52) by (apply Z.pow_pos_nonneg; lia). lia. }
  destruct Hqcan as [Hqpos Hcan].
  apply round_canonical; [assumption | rewrite fexp64; assumption |].
  assert (Hbpos : (0 < IZR (Zpos b))%R) by (apply IZR_lt; lia).
  assert (Hee : (bpow (- e') * bpow e' = 1)%R).
  { rewrite <- bpow_add. replace (- e' + e') with 0 by lia. reflexivity. }
  assert (HQR : (IZR Q * bpow e' = IZR (Zpos a))%R).
  { rewrite HQ, mult_IZR, <- (bpow_IZR (- e')) by lia. rewrite Rmult_assoc, Hee. lra. }
  assert (H1 : (IZR (Q / Zpos b) * IZR (Zpos b) <= IZR Q)%R).
  { rewrite <- mult_IZR. apply IZR_le. lia. }
  assert (H2 : (IZR Q <= IZR (Q / Zpos b + 1) * IZR (Zpos b))%R).
  { rewrite <- mult_IZR. apply IZR_le. lia. }
  pose proof (bpow_pos e') as Hbe.
  unfold F2R. unfold Rdiv. rewrite <- HQR.
  split.
  + apply Rmult_le_reg_r with (IZR (Zpos b)); [assumption |].
    replace (IZR Q * bpow e' * / IZR (Zpos b) * IZR (Zpos b))%R
      with (IZR Q * bpow e')%R by (field; lra).
    nra.
  + apply Rmult_le_reg_r with (IZR (Zpos b)); [assumption |].
    replace (IZR Q * bpow e' * / IZR (Zpos b) * IZR (Zpos b))%R
      with (IZR Q * bpow e')%R by (field; lra).
    nra.
Qed.

(** The product of a float with a float of 53-bit mantissa, when the
    product is not tiny. *)
Lemma mul_canonical (mx : positive) ex (my : positive) ey :
  2 ^ 52 <= Zpos my < 2 ^ 53 ->
  (bpow (-1000) <= F2R (Zpos mx) ex * F2R (Zpos my) ey)%R ->
  exists (m : positive) (e : Z),
    SFmul 53 1024 (S754_finite false mx ex) (S754_finite false my ey)
    = (if e <=? 971 then S754_finite false m e else S754_infinity false)
    /\ 2 ^ 52 <= Zpos m < 2 ^ 53
    /\ (F2R (Zpos m) e <= F2R (Zpos mx) ex * F2R (Zpos my) ey * (1 + eps))%R
    /\ (F2R (Zpos mx) ex * F2R (Zpos my) ey <= F2R (Zpos m) e * (1 + eps))%R.
Proof.
  intros Hy Hv. unfold SFmul. simpl xorb.
  assert (Hval : (F2R (Zpos (mx * my)) (ex + ey)
                  = F2R (Zpos mx) ex * F2R (Zpos my) ey)%R).
  { unfold F2R. rewrite Pos2Z.inj_mul, mult_IZR, bpow_add. ring. }
  assert (HM : 2 ^ 52 <= Zpos (mx * my)).
  { rewrite Pos2Z.inj_mul. nia. }
  assert (HdM : 53 <= Zdigits2 (Zpos (mx * my))) by (apply (Zdigits2_ge _ 52); lia).
  destruct (Zdigits2_bounds (Zpos (mx * my)) ltac:(lia)) as [[_ Hhi] _].
  assert (Hnorm : -1000 < Zdigits2 (Zpos (mx * my)) + (ex + ey)).
  { apply bpow_lt_inv. apply Rle_lt_trans with (1 := Hv). rewrite <- Hval.
    rewrite bpow_add, (bpow_IZR (Zdigits2 (Zpos (mx * my)))) by lia.
    unfold F2R. apply Rmult_lt_compat_r; [apply bpow_pos |].
    apply IZR_lt. exact Hhi. }
  apply round_bounds; try lia.
  rewrite <- Hval. unfold F2R. rewrite plus_IZR.
  pose proof (bpow_pos (ex + ey)). lra.
Qed.

(** Rounding never produces a NaN. *)
Lemma binary_round_aux_not_nan sx mx ex lx :
  0 <= mx -> binary_round_aux 53 1024 sx mx ex lx <> S754_nan.
Proof.
  intros Hmx. unfold binary_round_aux.
  pose proof (shr_fexp_spec 53 1024 mx ex lx Hmx) as Hs1. cbv zeta in Hs1.
  destruct (shr_fexp 53 1024 mx ex lx) as [mrs' e'].
  simpl fst in Hs1. destruct Hs1 as [Hm1 _].
  set (m1 := round_nearest_even (shr_m mrs') (loc_of_shr_record mrs')).
  assert (Hm1pos : 0 <= m1).
  { pose proof (round_nearest_even_bounds (shr_m mrs') (loc_of_shr_record mrs')) as Hr.
    fold m1 in Hr. rewrite Hm1 in Hr.
    assert (0 <= mx / 2 ^ Z.max (fexp 53 1024 (Zdigits2 mx + ex) - ex) 0).
    { apply Z.div_pos; [assumption | apply Z.pow_pos_nonneg; lia]. }
    lia. }
  pose proof (shr_fexp_spec 53 1024 m1 e' loc_Exact Hm1pos) as Hs2. cbv zeta in Hs2.
  destruct (shr_fexp 53 1024 m1 e' loc_Exact) as [mrs'' e''].
  simpl fst in Hs2. destruct Hs2 as [Hm2 _].
  assert (Hpos2 : 0 <= shr_m mrs'').
  { rewrite Hm2. apply Z.div_pos; [assumption | apply Z.pow_pos_nonneg; lia]. }
  destruct (shr_m mrs'') as [| p | p]; [discriminate | | lia].
  destruct (e'' <=? 1024 - 53); discriminate.
Qed.

Lemma truediv_int_value a b q :
  0 < a -> 0 < b -> PyFloat.truediv_int a b = Ok q ->
  exists s, q = S754_zero s \/ exists m e, q = S754_finite s m e.
Proof.
  intros Ha Hb H. destruct a as [| x | x]; try lia. destruct b as [| y | y]; try lia.
  unfold PyFloat.truediv_int in H.
  assert (Hnn : SFdiv PyFloat.prec PyFloat.emax (S754_finite false x 0) (S754_finite false y 0)
                <> S754_nan).
  { unfold SFdiv, SFdiv_core_binary, PyFloat.prec, PyFloat.emax.
    match goal with |- context [Z.div_eucl ?Q ?B] =>
      assert (HQ : 0 <= Q);
      [| assert (Hq : fst (Z.div_eucl Q B) = Q / B) by reflexivity;
         destruct (Z.div_eucl Q B) as [q0 r0]; simpl fst in Hq; subst q0;
         apply binary_round_aux_not_nan; apply Z.div_pos; lia ]
    end.
    match goal with |- 0 <= match ?s with _ => _ end => destruct s end;
      [lia | apply Z.shiftl_nonneg; lia | lia]. }
  destruct (SFdiv PyFloat.prec PyFloat.emax (S754_finite false x 0) (S754_finite false y 0))
    as [s | s | | s m e]; try discriminate H; try contradiction.
  - injection H as <-. exists s. left. reflexivity.
  - injection H as <-. exists s. right. exists m, e. reflexivity.
Qed.

Lemma of_int_value n f :
  0 < n -> PyFloat.of_int n = Ok f ->
  exists s, f = S754_zero s \/ exists m e, f = S754_finite s m e.
Proof.
  intros Hn H. destruct n as [| p | p]; try lia.
  unfold PyFloat.of_int in H.
  assert (Hnn : binary_normalize PyFloat.prec PyFloat.emax (Zpos p) 0 false <> S754_nan).
  { unfold binary_normalize, binary_round, PyFloat.prec, PyFloat.emax.
    destruct (shl_align p 0 (fexp 53 1024 (Zpos (digits2_pos p) + 0))) as [mz ez].
    apply binary_round_aux_not_nan. lia. }
  destruct (binary_normalize PyFloat.prec PyFloat.emax (Zpos p) 0 false)
    as [s | s | | s m e]; try discriminate H; try contradiction.
  - injection H as <-. exists s. left. reflexivity.
  - injection H as <-. exists s. right. exists m, e. reflexivity.
Qed.

(** Line 94 raises nothing but OverflowError. *)
Lemma clamp_step_raises s0 mx n0 e :
  0 < s0 -> 0 < mx -> 0 < n0 ->
  (q <- PyFloat.truediv_int s0 mx ;;
   x <- PyFloat.mul_int q n0 ;;
   PyFloat.to_int x) = Raise e ->
  e = OverflowError.
Proof.
  intros Hs Hm Hn H.
  destruct (PyFloat.truediv_int s0 mx) as [q | e1 |] eqn:Hq; cbn [bind] in H;
    [| | discriminate H].
  - destruct (truediv_int_value _ _ _ Hs Hm Hq) as (sq & Hqv).
    unfold PyFloat.mul_int in H.
    destruct (PyFloat.of_int n0) as [f | e1 |] eqn:Hf; cbn [bind] in H;
      [| | discriminate H].
    + destruct (of_int_value _ _ Hn Hf) as (sf & Hfv).
      assert (Hnn : PyFloat.mul q f <> S754_nan).
      { unfold PyFloat.mul, PyFloat.prec, PyFloat.emax.
        destruct Hqv as [-> | (m1 & e1 & ->)]; destruct Hfv as [-> | (m2 & e2 & ->)];
          try (simpl; discriminate).
        unfold SFmul. apply binary_round_aux_not_nan. lia. }
      unfold PyFloat.to_int in H.
      destruct (PyFloat.mul q f) as [s | s | | s m e']; try discriminate H;
        try contradiction.
      injection H as <-. reflexivity.
    + unfold PyFloat.of_int in Hf.
      destruct (binary_normalize PyFloat.prec PyFloat.emax n0 0 false);
        try discriminate Hf. injection Hf as <-. injection H as <-. reflexivity.
  - injection H as <-.
    destruct s0 as [| x | x]; try lia. destruct mx as [| y | y]; try lia.
    unfold PyFloat.truediv_int in Hq.
    destruct (SFdiv PyFloat.prec PyFloat.emax (S754_finite false x 0) (S754_finite false y 0));
      try discriminate Hq. injection Hq as <-. reflexivity.
Qed.

Lemma eps_small : (1024 * eps <= 1)%R.
Proof.
  pose proof eps_spec as H. pose proof eps_pos as Hp.
  assert (H4 : (1024 <= IZR (2 ^ 52))%R) by (apply IZR_le; vm_compute; discriminate).
  nra.
Qed.

Lemma F2R_pos_inv m e : (0 < F2R m e)%R -> 0 < m.
Proof.
  intros H. unfold F2R in H. pose proof (bpow_pos e) as Hb.
  apply lt_IZR. nra.
Qed.

(** A float that [float(n)] returns is below 2^1024. *)
Lemma of_int_finite n f :
  0 < n -> PyFloat.of_int n = Ok f -> (IZR n < bpow 1024 * (1 + eps))%R.
Proof.
  intros Hn H.
  destruct (of_int_bounds n Hn) as (m & e & Hb & Hm & _ & Hup).
  unfold PyFloat.of_int, PyFloat.prec, PyFloat.emax in H. rewrite Hb in H.
  destruct (e <=? 971) eqn:He; [| discriminate H]. apply Z.leb_le in He.
  pose proof (F2R_mantissa_bounds m e Hm) as [_ Hhi].
  assert (Hle : (bpow (53 + e) <= bpow 1024)%R) by (apply bpow_le; lia).
  pose proof eps_pos.
  apply Rle_lt_trans with (1 := Hup). apply Rmult_lt_compat_r; lra.
Qed.

(** A value rounded once from at most 2^1023 (1 + eps) stays below
    2^1024. *)
Lemma quotient_below (B e t r Vq : R) :
  (1024 <= B -> 0 < e -> 1024 * e <= 1 -> 0 <= t -> t <= / 2 ->
   0 <= r -> r <= B * (1 + e) -> Vq <= r * (1 + e) + t -> Vq < 2 * B)%R.
Proof.
  intros HB He He' Ht Ht' Hr HrB Hq.
  assert (Hu2 : ((1 + e) * (1 + e) <= 1 + 3 * e)%R) by nra.
  assert (H1 : (r * (1 + e) <= B * (1 + e) * (1 + e))%R).
  { apply Rmult_le_compat_r; lra. }
  assert (H2 : (B * (1 + e) * (1 + e) <= B * (1 + 3 * e))%R).
  { rewrite Rmult_assoc. apply Rmult_le_compat_l; lra. }
  assert (H3 : (B * (3 * e) <= B * (3 / 1024))%R).
  { apply Rmult_le_compat_l; lra. }
  lra.
Qed.

(** The rounded product stays below 2^1024. *)
Lemma product_below (B e t r N Vq Vf Vy : R) :
  (1024 <= B -> 0 < e -> 1024 * e <= 1 -> 0 <= t -> 0 < r -> 0 <= N ->
   r * N <= B * (1 + e) -> t * N <= / 2 ->
   0 <= Vq -> Vq <= r * (1 + e) + t -> 0 <= Vf -> Vf <= N * (1 + e) ->
   Vy <= Vq * Vf * (1 + e) -> Vy < 2 * B)%R.
Proof.
  intros HB He He' Ht Hr HN HrN HtN Hq0 Hq Hf0 Hf Hy.
  assert (Hu : (0 < 1 + e <= 1 + / 1024)%R) by lra.
  assert (Hqf : (Vq * Vf <= (r * (1 + e) + t) * (N * (1 + e)))%R).
  { apply Rmult_le_compat; lra. }
  assert (Hexp : ((r * (1 + e) + t) * (N * (1 + e))
                  = r * N * ((1 + e) * (1 + e)) + t * N * (1 + e))%R) by ring.
  assert (Hu2 : ((1 + e) * (1 + e) <= 1 + 3 * e)%R) by nra.
  assert (HrN0 : (0 <= r * N)%R) by (apply Rmult_le_pos; lra).
  assert (H1 : (r * N * ((1 + e) * (1 + e)) <= B * (1 + e) * (1 + 3 * e))%R).
  { apply Rmult_le_compat; try lra. apply Rmult_le_pos; lra. }
  assert (Hu3 : ((1 + e) * (1 + 3 * e) <= 1 + 5 * e)%R) by nra.
  assert (H2 : (B * (1 + e) * (1 + 3 * e) <= B * (1 + 5 * e))%R).
  { rewrite Rmult_assoc. apply Rmult_le_compat_l; lra. }
  assert (H3 : (t * N * (1 + e) <= 1)%R).
  { assert (0 <= t * N)%R by (apply Rmult_le_pos; lra).
    apply Rle_trans with (/ 2 * 2)%R; [| lra].
    apply Rmult_le_compat; lra. }
  assert (H4 : (Vq * Vf <= B * (1 + 5 * e) + 1)%R) by lra.
  assert (H5 : (Vq * Vf * (1 + e) <= (B * (1 + 5 * e) + 1) * (1 + e))%R).
  { apply Rmult_le_compat_r; lra. }
  assert (Hu4 : ((1 + 5 * e) * (1 + e) <= 1 + 7 * e)%R) by nra.
  assert (H6 : (B * (1 + 5 * e) * (1 + e) <= B * (1 + 7 * e))%R).
  { rewrite Rmult_assoc. apply Rmult_le_compat_l; lra. }
  assert (H7 : ((B * (1 + 5 * e) + 1) * (1 + e)
                = B * (1 + 5 * e) * (1 + e) + (1 + e))%R) by ring.
  assert (H8 : (B * (7 * e) <= B * (7 / 1024))%R).
  { apply Rmult_le_compat_l; lra. }
  lra.
Qed.

(** Line 94 returns whenever the ceiling is at least 2, or the source
    rate is below 2^1023. *)
Lemma clamp_step_returns fps s0 mx n0 f :
  1 <= s0 -> 0 < mx < n0 -> n0 = fps / s0 -> PyFloat.of_int fps = Ok f ->
  2 <= mx \/ fps < 2 ^ 1023 ->
  exists q x s',
    PyFloat.truediv_int s0 mx = Ok q
    /\ PyFloat.mul_int q n0 = Ok x
    /\ PyFloat.to_int x = Ok s'.
Proof.
  intros Hs Hm Hn0 Hf Hcase.
  assert (Hprod : s0 * n0 <= fps) by (rewrite Hn0; apply Z.mul_div_le; lia).
  assert (Hfpos : 0 < fps) by nia.
  pose proof (of_int_finite fps f Hfpos Hf) as Hfin.
  pose proof eps_pos as Heps. pose proof eps_small as Heps'.
  set (B := bpow 1023) in *.
  assert (HB2 : bpow 1024 = (2 * B)%R).
  { unfold B. rewrite bpow_double. reflexivity. }
  assert (HB4 : bpow 1025 = (4 * B)%R).
  { replace 1025 with (1024 + 1) by lia. rewrite <- bpow_double, HB2. ring. }
  assert (HB1 : (1024 <= B)%R).
  { unfold B. replace 1024%R with (bpow 10) by (rewrite (bpow_IZR 10) by lia; reflexivity).
    apply bpow_le. lia. }
  assert (HBe : (B * eps <= B * / 1024)%R) by (apply Rmult_le_compat_l; lra).
  assert (HBe0 : (0 <= B * eps)%R) by (apply Rmult_le_pos; lra).
  rewrite HB2 in Hfin.
  set (FPS := IZR fps) in *.
  assert (Hfps25 : fps < 2 ^ 1025).
  { apply lt_IZR. rewrite <- (bpow_IZR 1025) by lia. rewrite HB4. fold FPS. lra. }
  assert (Hmx74 : mx < 2 ^ 1074).
  { apply Z.lt_trans with (2 ^ 1025); [nia | apply Z.pow_lt_mono_r; lia]. }
  destruct s0 as [| a | a]; try lia. destruct mx as [| b | b]; try lia.
  destruct (truediv_canonical a b Hmx74)
    as (m3 & e3 & err & Hq & Hm3 & Hcan & Hq1 & Hq2 & Herr).
  destruct (of_int_bounds n0 ltac:(lia)) as (mf & ef & Hfn & Hmf & Hf1 & Hf2).
  set (S := IZR (Zpos a)) in *. set (X := IZR (Zpos b)) in *. set (N := IZR n0) in *.
  assert (HS : (1 <= S)%R) by (apply IZR_le; lia).
  assert (HX : (1 <= X)%R) by (apply IZR_le; lia).
  assert (HN : (X + 1 <= N)%R).
  { unfold X, N. rewrite <- plus_IZR. apply IZR_le. lia. }
  assert (HSN : (S * N <= FPS)%R).
  { unfold S, N, FPS. rewrite <- mult_IZR. apply IZR_le. exact Hprod. }
  set (r := (S / X)%R) in *.
  assert (Hr : (r * X = S)%R) by (unfold r; field; lra).
  assert (Hr0 : (0 < r)%R) by (unfold r; apply Rdiv_lt_0_compat; lra).
  assert (HrNX : (r * X <= r * N)%R) by (apply Rmult_le_compat_l; lra).
  assert (HNSN : (1 * N <= S * N)%R) by (apply Rmult_le_compat_r; lra).
  assert (HN4 : (N < 4 * B)%R) by lra.
  assert (HrN0 : (0 <= r * N)%R) by (apply Rmult_le_pos; lra).
  assert (HrNeq : (r * N * X = S * N)%R) by (rewrite <- Hr; ring).
  (* the exact quotient times the rate is at most about 2^1023 *)
  assert (HrN : (r * N <= B * (1 + eps))%R).
  { destruct Hcase as [H2 | H23].
    - assert (HX2 : (2 <= X)%R) by (apply IZR_le; exact H2).
      assert (r * N * 2 <= r * N * X)%R by (apply Rmult_le_compat_l; lra).
      lra.
    - assert (HF : (FPS < B)%R).
      { unfold FPS, B. rewrite (bpow_IZR 1023) by lia. apply IZR_lt. exact H23. }
      assert (r * N * 1 <= r * N * X)%R by (apply Rmult_le_compat_l; lra).
      lra. }
  assert (HrB : (r <= B * (1 + eps))%R).
  { assert (r * 1 <= r * N)%R by (apply Rmult_le_compat_l; lra). lra. }
  (* the quotient *)
  pose proof (bpow_pos (-1074)) as Ht0.
  set (t := bpow (-1074)) in *.
  assert (Ht49 : (t * (4 * B) <= / 2)%R).
  { unfold t. rewrite <- HB4, <- bpow_add. simpl Z.add.
    replace (/ 2)%R with (bpow (-1)).
    - apply bpow_le. lia.
    - pose proof (bpow_double (-1)) as Hd. change (bpow (-1 + 1)) with 1%R in Hd. lra. }
  assert (HtN : (t * N <= / 2)%R).
  { assert (t * N <= t * (4 * B))%R by (apply Rmult_le_compat_l; lra). lra. }
  assert (HtX : (t * X <= / 2)%R).
  { assert (t * X <= t * N)%R by (apply Rmult_le_compat_l; lra). lra. }
  assert (Ht2 : (t <= / 2)%R).
  { assert (t * 1 <= t * X)%R by (apply Rmult_le_compat_l; lra). lra. }
  assert (Hre : (0 <= r * eps <= r * / 1024)%R).
  { split; [apply Rmult_le_pos; lra | apply Rmult_le_compat_l; lra]. }
  assert (Herr2 : (err <= r * eps + t)%R).
  { destruct Herr as [-> | Hrel]; [fold t |]; lra. }
  assert (Herr_half : (2 * err <= r)%R).
  { destruct Herr as [-> | Hrel]; [fold t | lra].
    apply Rmult_le_reg_r with X; lra. }
  set (Vq := F2R m3 e3) in *.
  assert (HVq_lo : (r <= 2 * Vq)%R) by lra.
  assert (HVq_hi : (Vq <= r * (1 + eps) + t)%R) by lra.
  assert (Hm3pos : 0 < m3) by (apply (F2R_pos_inv m3 e3); fold Vq; lra).
  destruct m3 as [| p | p]; try lia.
  assert (He3 : e3 <= 971).
  { destruct Hcan as [-> | H52]; [lia |].
    assert (Hlt : (Vq < bpow 1024)%R).
    { rewrite HB2. apply (quotient_below B eps t r Vq); lra. }
    apply exponent_upper in Hlt; [lia | lia]. }
  rewrite (proj2 (Z.leb_le e3 971) He3) in Hq.
  (* the rate as a float *)
  pose proof (F2R_mantissa_bounds mf ef Hmf) as [Hf0 _].
  pose proof (bpow_pos (52 + ef)) as Hf0'.
  set (Vf := F2R (Zpos mf) ef) in *.
  assert (Hef : ef <= 971).
  { destruct (Z.eq_dec (Zpos a) 1) as [E1 | E1].
    - rewrite E1, Z.div_1_r in Hn0. subst n0.
      unfold PyFloat.of_int, PyFloat.prec, PyFloat.emax in Hf. rewrite Hfn in Hf.
      destruct (ef <=? 971) eqn:E; [apply Z.leb_le; exact E | discriminate Hf].
    - assert (HS2 : (2 <= S)%R) by (apply IZR_le; lia).
      assert (2 * N <= S * N)%R by (apply Rmult_le_compat_r; lra).
      assert (HNB : (N <= B * (1 + eps))%R) by lra.
      assert (Hlt : (Vf < bpow 1024)%R).
      { rewrite HB2. apply (quotient_below B eps 0 N Vf); lra. }
      apply exponent_upper in Hlt; [lia | assumption]. }
  rewrite (proj2 (Z.leb_le ef 971) Hef) in Hfn.
  (* the product *)
  assert (HVf_lo : (N <= 2 * Vf)%R).
  { assert (Vf * eps <= Vf * 1)%R by (apply Rmult_le_compat_l; lra). lra. }
  assert (Hquarter : (bpow (-1000) <= Vq * Vf)%R).
  { apply Rle_trans with (bpow (-2)); [apply bpow_le; lia |].
    assert (H4 : (4 * bpow (-2) = 1)%R).
    { pose proof (bpow_double (-2)) as H1. pose proof (bpow_double (-1)) as H2.
      simpl Z.add in H1. change (bpow (-1 + 1)) with 1%R in H2. lra. }
    assert (HrN1 : (1 <= r * N)%R) by lra.
    assert (Hrn4 : (r * N <= (2 * Vq) * (2 * Vf))%R).
    { apply Rmult_le_compat; lra. }
    lra. }
  destruct (mul_canonical p e3 mf ef Hmf Hquarter) as (my & ey & Hy & Hmy & Hy1 & Hy2).
  fold Vq Vf in Hy1, Hy2.
  assert (Hey : ey <= 971).
  { assert (Hlt : (F2R (Zpos my) ey < bpow 1024)%R).
    { rewrite HB2.
      apply (product_below B eps t r N Vq Vf (F2R (Zpos my) ey)); lra. }
    apply exponent_upper in Hlt; [lia | assumption]. }
  rewrite (proj2 (Z.leb_le ey 971) Hey) in Hy.
  exists (S754_finite false p e3), (S754_finite false my ey), (Z.shiftl (Zpos my) ey).
  split.
  - unfold PyFloat.truediv_int, PyFloat.prec, PyFloat.emax. rewrite Hq. reflexivity.
  - split; [| reflexivity].
    unfold PyFloat.mul_int, PyFloat.of_int, PyFloat.prec, PyFloat.emax. rewrite Hfn.
    cbn [bind]. unfold PyFloat.mul, PyFloat.prec, PyFloat.emax. rewrite Hy. reflexivity.
Qed.

(** ** The sampling planner: rates and the max-fps ceiling *)

(** The stride and the rate before the ceiling, read off a returned plan. *)
Lemma sampling_plan_raw m start_sec end_sec cap max_fps p :
  sampling_plan m start_sec end_sec cap max_fps = Ok p ->
  let s0 := Z.max (SamplingPlan.original_frame_length p / SamplingPlan.frame_load_cap p) 1 in
  clamp max_fps s0 (SourceMeta.fps m / s0)
  = Ok (SamplingPlan.step p, SamplingPlan.new_fps p, SamplingPlan.warned p).
Proof.
  intros H. apply sampling_plan_inv in H.
  destruct H as (s0 & n0 & _ & Hraw & Hclamp & Hcap & _).
  pose proof (effective_cap_pos cap) as Hpos.
  apply raw_stride_inv in Hraw; [| lia]. destruct Hraw as (_ & -> & ->).
  rewrite Hcap. exact Hclamp.
Qed.

(** C9.  The lossy-adjustment test [(step * new_fps) % new_fps != 0] is
    false for every integer step and every new_fps >= 1; the planner
    therefore never logs the warning: in every plan it returns the
    warning flag is off. *)
Theorem warning_never_logged :
  (forall step new_fps, 1 <= new_fps -> warning_condition step new_fps = Ok false)
  /\ (forall m start_sec end_sec cap max_fps p,
        sampling_plan m start_sec end_sec cap max_fps = Ok p ->
        SamplingPlan.warned p = false).
Proof.
  split.
  - intros s n Hn. apply warning_condition_false. lia.
  - intros m start_sec end_sec cap max_fps p H.
    apply sampling_plan_raw in H. cbv zeta in H.
    eapply clamp_warned. exact H.
Qed.

Lemma warning_never_logged_witness :
  warning_condition 6 5 = Ok false
  /\ (forall p, sampling_plan Sample.clip PyFloat.zero PyFloat.zero 50 (Some 3) = Ok p ->
                SamplingPlan.warned p = false).
Proof.
  split.
  - apply (proj1 warning_never_logged 6 5). lia.
  - intros p. apply (proj2 warning_never_logged).
Defined.

(** C3, the counterexamples.  First, a 30 fps clip of 300 frames,
    requested whole with a cap of 5 frames (a request inside the ranges
    the node declares), is planned with a stride of 60 and an output rate
    of 30 // 60 = 0, which is below 1.  Second, a source of 300 frames
    reporting the rate 49 * 2^52 (the integer of a float), requested
    whole with no cap (frame_load_cap = 0) and the ceiling
    max_fps = 49 * 2^52 - 1, has the stride 1 and the rate 49 * 2^52
    before the ceiling, and the ceiling recomputes the stride as
    int(1 / max_fps * new_fps) = 0, which is below 1: the quotient is
    rounded down and its product with the rate stays under 1.0. *)
Lemma sampling_plan_rate_zero_step_zero :
  (1 <= SourceMeta.fps Sample.clip
   /\ valid_request PyFloat.zero PyFloat.zero 5 (-1) = true
   /\ exists p,
        sampling_plan Sample.clip PyFloat.zero PyFloat.zero 5 (Some (-1)) = Ok p
        /\ SamplingPlan.step p = 60
        /\ SamplingPlan.new_fps p = 0
        /\ SamplingPlan.new_fps p < 1)
  /\ (1 <= SourceMeta.fps Sample.fast_clip
      /\ PyFloat.to_int (PyFloat.lit (SourceMeta.fps Sample.fast_clip))
         = Ok (SourceMeta.fps Sample.fast_clip)
      /\ exists p,
           sampling_plan Sample.fast_clip PyFloat.zero PyFloat.zero 0
             (Some (49 * 2 ^ 52 - 1)) = Ok p
           /\ Z.max (SamplingPlan.original_frame_length p / SamplingPlan.frame_load_cap p) 1 = 1
           /\ SamplingPlan.new_fps p = 49 * 2 ^ 52 - 1
           /\ SamplingPlan.step p = 0
           /\ SamplingPlan.step p < 1).
Proof.
  split.
  - split; [vm_compute; discriminate |].
    split; [vm_compute; reflexivity |].
    eexists. split; [vm_compute; reflexivity |].
    vm_compute. repeat split; reflexivity.
  - split; [vm_compute; discriminate |].
    split; [vm_compute; reflexivity |].
    eexists. split; [vm_compute; reflexivity |].
    vm_compute. repeat split; reflexivity.
Qed.

(** Line 94 taken apart: the three operations of a returned stride. *)
Lemma clamp_step_inv s0 mx n0 s' :
  clamp_step s0 mx n0 = Ok s' ->
  exists q x,
    PyFloat.truediv_int s0 mx = Ok q
    /\ PyFloat.mul_int q n0 = Ok x
    /\ PyFloat.to_int x = Ok s'.
Proof.
  intros H. unfold clamp_step, clamp_ratio in H.
  destruct (PyFloat.truediv_int s0 mx) as [q | e |]; cbn [bind] in H;
    try discriminate H.
  destruct (PyFloat.mul_int q n0) as [x | e |] eqn:Hx; cbn [bind] in H;
    try discriminate H.
  exists q, x. split; [reflexivity | split; [exact Hx | exact H]].
Qed.

(** C3, as amended.  For every source with fps >= 1 and every request
    (any window, any cap, zero included, with or without a ceiling) on
    which the planner returns a plan: the stride before the max-fps
    ceiling, s0 = max(window_frames // cap, 1), is at least 1; unless the
    ceiling applies it is the final step, with output_fps = fps // s0;
    when the ceiling applies, output_fps = max_fps and the final step is
    int(s0 / max_fps * (fps // s0)); the final step is at least 1
    whenever max_fps is absent or at most 2^50, whatever the source rate
    (so for every value the node's max_fps input admits);
    0 <= output_fps <= fps; and output_fps >= 1 exactly when
    s0 <= fps. *)
Theorem sampling_plan_rates m start_sec end_sec cap max_fps p :
  1 <= SourceMeta.fps m ->
  sampling_plan m start_sec end_sec cap max_fps = Ok p ->
  let s0 := Z.max (SamplingPlan.original_frame_length p / SamplingPlan.frame_load_cap p) 1 in
  1 <= s0
  /\ (clamp_applies max_fps (SourceMeta.fps m / s0) = false ->
      SamplingPlan.step p = s0 /\ SamplingPlan.new_fps p = SourceMeta.fps m / s0)
  /\ (forall mx, max_fps = Some mx ->
      clamp_applies max_fps (SourceMeta.fps m / s0) = true ->
      SamplingPlan.new_fps p = mx
      /\ exists q x,
           PyFloat.truediv_int s0 mx = Ok q
           /\ PyFloat.mul_int q (SourceMeta.fps m / s0) = Ok x
           /\ PyFloat.to_int x = Ok (SamplingPlan.step p))
  /\ (match max_fps with Some mx => mx <= 2 ^ 50 | None => True end ->
      1 <= SamplingPlan.step p)
  /\ 0 <= SamplingPlan.new_fps p <= SourceMeta.fps m
  /\ (1 <= SamplingPlan.new_fps p <-> s0 <= SourceMeta.fps m).
Proof.
  intros Hfps H s0.
  apply sampling_plan_raw in H. fold s0 in H.
  assert (Hs0 : 1 <= s0) by (unfold s0; lia).
  set (n0 := SourceMeta.fps m / s0) in *.
  assert (Hn0 : 0 <= n0 <= SourceMeta.fps m).
  { unfold n0. split; [apply Z.div_pos; lia |].
    apply Z.div_le_upper_bound; [lia | nia]. }
  assert (Hn1 : 1 <= n0 <-> s0 <= SourceMeta.fps m).
  { unfold n0. split; intros Hle.
    - destruct (Z.le_gt_cases s0 (SourceMeta.fps m)) as [Hc | Hc]; [assumption |].
      rewrite Z.div_small in Hle by lia. lia.
    - apply Z.div_le_lower_bound; lia. }
  destruct (clamp_applies max_fps n0) eqn:Hca.
  - destruct max_fps as [mx |]; [| discriminate Hca].
    apply clamp_applies_spec in Hca.
    rewrite clamp_on in H by assumption.
    apply bind_Ok in H. destruct H as (s' & Hstep & H). injection H as Hs Hn _.
    split; [exact Hs0 |]. split; [discriminate |].
    split; [| split; [| split; [lia | split; intros; lia]]].
    + intros mx' Hmx' _. injection Hmx' as <-. split; [symmetry; exact Hn |].
      rewrite <- Hs. apply clamp_step_inv. exact Hstep.
    + intros H50. rewrite <- Hs.
      exact (clamp_step_ge_1 s0 mx n0 s' Hs0 Hca H50 Hstep).
  - rewrite clamp_off in H by assumption. injection H as Hs Hn _.
    split; [exact Hs0 |]. split; [intros _; split; congruence |].
    split; [discriminate |].
    split; [intros _; lia |]. split; [lia |]. rewrite <- Hn. exact Hn1.
Qed.

Lemma sampling_plan_rates_witness :
  exists p,
    sampling_plan Sample.clip PyFloat.zero PyFloat.zero 50 (Some 3) = Ok p
    /\ 1 <= SamplingPlan.step p
    /\ 0 <= SamplingPlan.new_fps p <= 30.
Proof.
  eexists. split; [vm_compute; reflexivity |].
  pose proof (sampling_plan_rates Sample.clip PyFloat.zero PyFloat.zero 50 (Some 3) _
                ltac:(vm_compute; discriminate) eq_refl) as H.
  cbv zeta in H. destruct H as (_ & _ & _ & Hstep & Hfps & _).
  split; [apply Hstep; vm_compute; discriminate | exact Hfps].
Defined.

(** The ceiling branch of the planner, with line 94 written out. *)
Lemma sampling_plan_ceiling m start_sec end_sec cap mx es w s0 n0 :
  effective_end_sec m end_sec = Ok es ->
  raw_stride (SourceMeta.fps m) start_sec es (effective_cap cap) = Ok (w, s0, n0) ->
  0 < mx < n0 ->
  exists sf ef,
    sampling_plan m start_sec end_sec cap (Some mx)
    = (q <- PyFloat.truediv_int s0 mx ;;
       x <- PyFloat.mul_int q n0 ;;
       step' <- PyFloat.to_int x ;;
       Ok {| SamplingPlan.frame_load_cap := effective_cap cap;
             SamplingPlan.end_sec := es;
             SamplingPlan.original_frame_length := w;
             SamplingPlan.step := step';
             SamplingPlan.new_fps := mx;
             SamplingPlan.start_frame := sf;
             SamplingPlan.end_frame := ef;
             SamplingPlan.warned := false |}).
Proof.
  intros Hes Hraw Hmx.
  destruct (raw_stride_fps_float _ _ _ _ _ Hraw) as (f & Hf).
  exists (PyFloat.mul f start_sec), (PyFloat.mul f es).
  unfold sampling_plan. rewrite Hes. cbn [bind]. rewrite Hraw. cbn [bind].
  rewrite clamp_on by assumption. unfold PyFloat.int_mul. rewrite Hf.
  unfold clamp_step, clamp_ratio.
  destruct (PyFloat.truediv_int s0 mx) as [q | e |]; cbn [bind]; try reflexivity.
  destruct (PyFloat.mul_int q n0) as [x | e |]; cbn [bind]; try reflexivity.
  destruct (PyFloat.to_int x) as [s' | e |]; reflexivity.
Qed.

(** C4, the counterexample.  A source whose reported rate is the largest
    finite float, (2^53 - 1) * 2^971, asked for the window from 0 to
    6755399441055746 * 2^-563 seconds with frame_load_cap = 3 and
    max_fps = 1: the steps before the ceiling return (a stride and a rate
    above max_fps), the ceiling applies (0 < max_fps < new_fps), and the
    product step / max_fps * new_fps rounds to infinity, so that [int]
    raises OverflowError at line 94. *)
Lemma max_fps_ceiling_overflow :
  exists w s0 n0,
    effective_end_sec Sample.fastest_clip Sample.tiny_sec = Ok Sample.tiny_sec
    /\ raw_stride (SourceMeta.fps Sample.fastest_clip) PyFloat.zero Sample.tiny_sec
         (effective_cap 3) = Ok (w, s0, n0)
    /\ 0 < 1 < n0
    /\ PyFloat.to_int (PyFloat.lit (SourceMeta.fps Sample.fastest_clip))
       = Ok (SourceMeta.fps Sample.fastest_clip)
    /\ (q <- PyFloat.truediv_int s0 1 ;; PyFloat.mul_int q n0)
       = Ok (S754_infinity false)
    /\ PyFloat.to_int (S754_infinity false) = Raise OverflowError
    /\ sampling_plan Sample.fastest_clip PyFloat.zero Sample.tiny_sec 3 (Some 1)
       = Raise OverflowError.
Proof.
  do 3 eexists.
  split; [reflexivity |].
  split; [vm_compute; reflexivity |].
  split; [vm_compute; split; reflexivity |].
  split; [vm_compute; reflexivity |].
  split; [vm_compute; reflexivity |].
  split; [reflexivity |].
  vm_compute; reflexivity.
Qed.

(** C4, as amended.  Whenever max_fps > 0 and max_fps is below the rate
    new_fps computed before the ceiling: the warning test is evaluated
    without exception (to false); the planner's outcome is that of
    recomputing step as int(step / max_fps * new_fps), that is the
    quotient of the two integers as a float, its product with new_fps as
    a float, and the truncation of that product, with the final output
    rate exactly max_fps; every plan it returns has that step and that
    rate; no exception is raised, and a plan is returned, whenever
    max_fps >= 2 or the source rate is below 2^1023; and the only
    exception the planner can raise in this branch is OverflowError
    (with max_fps = 1 and a source rate within a factor 2 of the largest
    float the product can round to infinity). *)
Theorem max_fps_ceiling m start_sec end_sec cap mx es w s0 n0 :
  effective_end_sec m end_sec = Ok es ->
  raw_stride (SourceMeta.fps m) start_sec es (effective_cap cap) = Ok (w, s0, n0) ->
  0 < mx < n0 ->
  warning_condition s0 n0 = Ok false
  /\ (exists sf ef,
        sampling_plan m start_sec end_sec cap (Some mx)
        = (q <- PyFloat.truediv_int s0 mx ;;
           x <- PyFloat.mul_int q n0 ;;
           step' <- PyFloat.to_int x ;;
           Ok {| SamplingPlan.frame_load_cap := effective_cap cap;
                 SamplingPlan.end_sec := es;
                 SamplingPlan.original_frame_length := w;
                 SamplingPlan.step := step';
                 SamplingPlan.new_fps := mx;
                 SamplingPlan.start_frame := sf;
                 SamplingPlan.end_frame := ef;
                 SamplingPlan.warned := false |}))
  /\ (forall p, sampling_plan m start_sec end_sec cap (Some mx) = Ok p ->
        SamplingPlan.new_fps p = mx
        /\ exists q x,
             PyFloat.truediv_int s0 mx = Ok q
             /\ PyFloat.mul_int q n0 = Ok x
             /\ PyFloat.to_int x = Ok (SamplingPlan.step p))
  /\ (2 <= mx \/ SourceMeta.fps m < 2 ^ 1023 ->
      exists p q x,
        sampling_plan m start_sec end_sec cap (Some mx) = Ok p
        /\ SamplingPlan.new_fps p = mx
        /\ PyFloat.truediv_int s0 mx = Ok q
        /\ PyFloat.mul_int q n0 = Ok x
        /\ PyFloat.to_int x = Ok (SamplingPlan.step p))
  /\ (forall e, sampling_plan m start_sec end_sec cap (Some mx) = Raise e ->
        e = OverflowError).
Proof.
  intros Hes Hraw Hmx.
  destruct (sampling_plan_ceiling _ _ _ _ _ _ _ _ _ Hes Hraw Hmx) as (sf & ef & Heq).
  destruct (raw_stride_fps_float _ _ _ _ _ Hraw) as (f & Hf).
  pose proof (effective_cap_pos cap) as Hcap.
  apply raw_stride_inv in Hraw; [| lia]. destruct Hraw as (_ & Hs0 & Hn0).
  assert (Hs1 : 1 <= s0) by lia.
  split; [apply warning_condition_false; lia |].
  split; [exists sf, ef; exact Heq |].
  split; [| split].
  - intros p Hp. rewrite Heq in Hp.
    destruct (PyFloat.truediv_int s0 mx) as [q | e |] eqn:Hq; cbn [bind] in Hp;
      try discriminate Hp.
    destruct (PyFloat.mul_int q n0) as [x | e |] eqn:Hx; cbn [bind] in Hp;
      try discriminate Hp.
    destruct (PyFloat.to_int x) as [s' | e |] eqn:Hs'; cbn [bind] in Hp;
      try discriminate Hp.
    injection Hp as <-. split; [reflexivity |].
    exists q, x. split; [reflexivity | split; [exact Hx | exact Hs']].
  - intros Hcase.
    destruct (clamp_step_returns (SourceMeta.fps m) s0 mx n0 f Hs1 Hmx Hn0 Hf Hcase)
      as (q & x & s' & Hq & Hx & Hs').
    rewrite Hq in Heq. cbn [bind] in Heq. rewrite Hx in Heq. cbn [bind] in Heq.
    rewrite Hs' in Heq. cbn [bind] in Heq.
    eexists. exists q, x. split; [exact Heq |].
    split; [reflexivity |]. split; [exact Hq |]. split; [exact Hx | exact Hs'].
  - intros e He. rewrite Heq in He.
    apply (clamp_step_raises s0 mx n0 e); try lia.
    destruct (PyFloat.truediv_int s0 mx) as [q | e1 |]; cbn [bind] in He |- *;
      [| congruence | discriminate He].
    destruct (PyFloat.mul_int q n0) as [x | e1 |]; cbn [bind] in He |- *;
      [| congruence | discriminate He].
    destruct (PyFloat.to_int x) as [s' | e1 |]; cbn [bind] in He |- *;
      [discriminate He | congruence | discriminate He].
Qed.

Lemma max_fps_ceiling_witness :
  exists p,
    sampling_plan Sample.clip PyFloat.zero PyFloat.zero 50 (Some 3) = Ok p
    /\ SamplingPlan.step p = 10
    /\ SamplingPlan.new_fps p = 3
    /\ PyFloat.truediv_int 6 3 = Ok (PyFloat.lit 2)
    /\ PyFloat.mul_int (PyFloat.lit 2) 5 = Ok (PyFloat.lit 10)
    /\ PyFloat.to_int (PyFloat.lit 10) = Ok (SamplingPlan.step p).
Proof.
  assert (Hc : 2 <= 3 \/ SourceMeta.fps Sample.clip < 2 ^ 1023)
    by (left; intros H; discriminate H).
  destruct (proj1 (proj2 (proj2 (proj2
    (max_fps_ceiling Sample.clip PyFloat.zero PyFloat.zero 50 3
       (PyFloat.lit 10) 300 6 5 eq_refl eq_refl (conj eq_refl eq_refl))))) Hc)
    as (p & q & x & Hp & Hn & Hq & Hx & Hs).
  exists p. split; [exact Hp |].
  vm_compute in Hp. injection Hp as <-.
  vm_compute in Hq. injection Hq as <-.
  vm_compute in Hx. injection Hx as <-.
  repeat split; vm_compute; reflexivity.
Defined.

(** ** Strings: what [int] accepts and how [split] cuts *)

Lemma all_chars_impl (P Q : ascii -> bool) s :
  (forall c, P c = true -> Q c = true) -> all_chars P s = true -> all_chars Q s = true.
Proof.
  intros HPQ. induction s as [| c s IH]; simpl; [reflexivity |].
  intros H. apply andb_true_iff in H. destruct H as [Hc Hs].
  rewrite (HPQ c Hc), (IH Hs). reflexivity.
Qed.

Lemma digits_value_chars s : forall acc b v,
  digits_value s acc b = Some v -> all_chars int_char s = true.
Proof.
  induction s as [| c s IH]; intros acc b v H; simpl in *; [reflexivity |].
  unfold int_char at 1.
  destruct (digit_val c) as [d |].
  - rewrite (IH _ _ _ H). rewrite !orb_true_r. reflexivity.
  - destruct (Ascii.eqb c "_"); simpl in H; [| discriminate].
    destruct b; [| discriminate].
    rewrite (IH _ _ _ H). rewrite !orb_true_r. reflexivity.
Qed.

Lemma lstrip_chars (P : ascii -> bool) s :
  (forall c, is_space c = true -> P c = true) ->
  all_chars P (lstrip s) = true -> all_chars P s = true.
Proof.
  intros Hsp. induction s as [| c s IH]; simpl; [reflexivity |].
  destruct (is_space c) eqn:Hc.
  - intros H. rewrite (Hsp c Hc), (IH H). reflexivity.
  - simpl. intros H. exact H.
Qed.

Lemma int_char_space c : is_space c = true -> int_char c = true.
Proof. intros H. unfold int_char. rewrite H. reflexivity. Qed.

Lemma all_chars_app (P : ascii -> bool) a b :
  all_chars P a = true -> all_chars P b = true -> all_chars P (a ++ b) = true.
Proof.
  intros Ha Hb. induction a as [| c a IH]; simpl in *; [exact Hb |].
  apply andb_true_iff in Ha. destruct Ha as [Hc Ha].
  rewrite Hc, (IH Ha). reflexivity.
Qed.

Lemma span_digits_app s :
  (fst (span_digits s) ++ snd (span_digits s))%string = s.
Proof.
  induction s as [| c s IH]; simpl; [reflexivity |].
  destruct (match digit_val c with Some _ => true | None => Ascii.eqb c "_" end);
    [| reflexivity].
  destruct (span_digits s) as [run rest]. simpl in *. rewrite IH. reflexivity.
Qed.

Lemma int_body_chars negative s v :
  int_body negative s = Ok v -> all_chars int_char s = true.
Proof.
  intros H. unfold int_body in H.
  pose proof (span_digits_app s) as Happ.
  destruct (span_digits s) as [run rest]. simpl in Happ.
  destruct (digits_value run 0 false) as [d |] eqn:Hd; [| discriminate].
  destruct (max_str_digits <? count_digits run); [discriminate |].
  destruct (lstrip rest) eqn:Hrest; [| discriminate].
  rewrite <- Happ. apply all_chars_app.
  - eapply digits_value_chars. exact Hd.
  - apply lstrip_chars; [exact int_char_space |]. rewrite Hrest. reflexivity.
Qed.

Lemma py_int_chars s v : py_int s = Ok v -> all_chars int_char s = true.
Proof.
  intros H. apply lstrip_chars; [exact int_char_space |].
  unfold py_int in H.
  destruct (lstrip s) as [| c r]; [reflexivity |].
  destruct (Ascii.eqb c "+") eqn:Hplus.
  { simpl. unfold int_char at 1. rewrite Hplus, !orb_true_r. simpl.
    eapply int_body_chars. exact H. }
  destruct (Ascii.eqb c "-") eqn:Hminus.
  { simpl. unfold int_char at 1. rewrite Hminus, !orb_true_r. simpl.
    eapply int_body_chars. exact H. }
  eapply int_body_chars. exact H.
Qed.

Lemma py_int_nonempty s v : py_int s = Ok v -> s <> EmptyString.
Proof. intros H ->. discriminate H. Qed.

(** Neither the separator "x", nor the wildcard "?", nor a letter is a
    character of an integer literal. *)
Lemma int_char_not c :
  int_char c = true ->
  Ascii.eqb c "x" = false /\ Ascii.eqb c "?" = false /\ Ascii.eqb c "D" = false.
Proof.
  destruct c as [[] [] [] [] [] [] [] []]; vm_compute; intros H;
    first [discriminate H | repeat split].
Qed.

Lemma split_on_whole sep s :
  all_chars (differs sep) s = true -> split_on sep s = [s].
Proof.
  induction s as [| c s IH]; simpl; [reflexivity |].
  intros H. apply andb_true_iff in H. destruct H as [Hc Hs].
  unfold differs in Hc. apply negb_true_iff in Hc. rewrite Hc, (IH Hs). reflexivity.
Qed.

Lemma split_on_app sep a b :
  all_chars (differs sep) a = true ->
  split_on sep (a ++ String sep b) = a :: split_on sep b.
Proof.
  induction a as [| c a IH]; simpl.
  - intros _. rewrite Ascii.eqb_refl. reflexivity.
  - intros H. apply andb_true_iff in H. destruct H as [Hc Ha].
    unfold differs in Hc. apply negb_true_iff in Hc. rewrite Hc, (IH Ha). reflexivity.
Qed.

Lemma py_int_no_x s v : py_int s = Ok v -> all_chars (differs "x") s = true.
Proof.
  intros H. apply py_int_chars in H. revert H. apply all_chars_impl.
  intros c Hc. unfold differs. apply int_char_not in Hc. destruct Hc as (-> & _).
  reflexivity.
Qed.

(** ** The size resolver: the specification's statements *)

Lemma target_size_width_wildcard src_w src_h s H :
  src_h <> 0 -> py_int s = Ok H ->
  target_size src_w src_h ("?x" ++ s) = Ok (align8 ((src_w * H) / src_h), H).
Proof.
  intros Hh Hs. unfold target_size. simpl.
  rewrite (split_on_whole "x" s (py_int_no_x _ _ Hs)). simpl.
  rewrite Hs. simpl. rewrite py_floordiv_Ok by assumption. reflexivity.
Qed.

Lemma target_size_height_wildcard src_w src_h s W :
  src_w <> 0 -> py_int s = Ok W ->
  target_size src_w src_h (s ++ "x?") = Ok (W, align8 ((src_h * W) / src_w)).
Proof.
  intros Hw Hs. unfold target_size.
  pose proof (py_int_chars _ _ Hs) as Hchars.
  pose proof (py_int_nonempty _ _ Hs) as Hne.
  destruct s as [| c r]; [contradiction |].
  simpl in Hchars. apply andb_true_iff in Hchars. destruct Hchars as [Hc _].
  apply int_char_not in Hc. destruct Hc as (_ & Hq & HD).
  rewrite (split_on_app "x" (String c r) "?" (py_int_no_x _ _ Hs)).
  assert (Hdis : String.eqb (String c r ++ "x?") "Disabled" = false).
  { simpl. rewrite HD. reflexivity. }
  rewrite Hdis. simpl. rewrite Hq. simpl.
  rewrite Hs. simpl. rewrite py_floordiv_Ok by assumption. reflexivity.
Qed.

(** C2.  For every source size (src_w, src_h) with src_h > 0 and every
    size spec "?xH" whose height axis is the integer literal H, the
    resolved size is (((src_w * H) // src_h + 4) & ~7, H); symmetrically,
    for src_w > 0 and a spec "Wx?", it is
    (W, ((src_h * W) // src_w + 4) & ~7).  In particular the sources
    (100, 50) and (101, 50) with "?x100" both resolve to (200, 100). *)
Theorem target_size_wildcard :
  (forall src_w src_h s H,
      0 < src_h -> py_int s = Ok H ->
      target_size src_w src_h ("?x" ++ s)
      = Ok (Z.land ((src_w * H) / src_h + 4) (Z.lnot 7), H))
  /\ (forall src_w src_h s W,
        0 < src_w -> py_int s = Ok W ->
        target_size src_w src_h (s ++ "x?")
        = Ok (W, Z.land ((src_h * W) / src_w + 4) (Z.lnot 7)))
  /\ target_size 100 50 "?x100" = Ok (200, 100)
  /\ target_size 101 50 "?x100" = Ok (200, 100).
Proof.
  split; [| split; [| split; reflexivity]].
  - intros src_w src_h s H Hh Hs.
    apply target_size_width_wildcard; [lia | assumption].
  - intros src_w src_h s W Hw Hs.
    apply target_size_height_wildcard; [lia | assumption].
Qed.

Lemma target_size_wildcard_witness :
  target_size 101 50 ("?x" ++ "100") = Ok (Z.land ((101 * 100) / 50 + 4) (Z.lnot 7), 100)
  /\ target_size 101 50 ("512" ++ "x?") = Ok (512, Z.land ((50 * 512) / 101 + 4) (Z.lnot 7)).
Proof.
  split.
  - apply (proj1 target_size_wildcard 101 50 "100"%string 100); [lia | reflexivity].
  - apply (proj1 (proj2 target_size_wildcard) 101 50 "512"%string 512); [lia | reflexivity].
Defined.

(** ** The planner never runs out of fuel *)

Lemma bind_not_NoFuel {A B : Type} (r : result A) (k : A -> result B) :
  r <> NoFuel -> (forall a, r = Ok a -> k a <> NoFuel) -> bind r k <> NoFuel.
Proof.
  intros Hr Hk. destruct r as [a | e |]; simpl.
  - apply Hk. reflexivity.
  - discriminate.
  - contradiction.
Qed.

Lemma truediv_int_not_NoFuel a b : PyFloat.truediv_int a b <> NoFuel.
Proof.
  unfold PyFloat.truediv_int.
  destruct a, b; try discriminate;
    match goal with |- context [SFdiv ?p ?e ?x ?y] => destruct (SFdiv p e x y) end;
    discriminate.
Qed.

Lemma mul_int_not_NoFuel x n : PyFloat.mul_int x n <> NoFuel.
Proof.
  unfold PyFloat.mul_int. apply bind_not_NoFuel; [apply of_int_not_NoFuel |].
  intros; discriminate.
Qed.

Lemma int_mul_not_NoFuel n x : PyFloat.int_mul n x <> NoFuel.
Proof.
  unfold PyFloat.int_mul. apply bind_not_NoFuel; [apply of_int_not_NoFuel |].
  intros; discriminate.
Qed.

Lemma py_floordiv_not_NoFuel a b : py_floordiv a b <> NoFuel.
Proof. unfold py_floordiv. destruct (b =? 0); discriminate. Qed.

Lemma py_mod_not_NoFuel a b : py_mod a b <> NoFuel.
Proof. unfold py_mod. destruct (b =? 0); discriminate. Qed.

Lemma clamp_ratio_not_NoFuel s m n : clamp_ratio s m n <> NoFuel.
Proof.
  unfold clamp_ratio. apply bind_not_NoFuel; [apply truediv_int_not_NoFuel |].
  intros; apply mul_int_not_NoFuel.
Qed.

Lemma clamp_not_NoFuel max_fps s n : clamp max_fps s n <> NoFuel.
Proof.
  unfold clamp. destruct max_fps as [m |]; [| discriminate].
  destruct (clamp_applies (Some m) n); [| discriminate].
  apply bind_not_NoFuel.
  { unfold warning_condition. apply bind_not_NoFuel; [apply py_mod_not_NoFuel |].
    intros; discriminate. }
  intros c _. apply bind_not_NoFuel.
  { destruct c; [| discriminate].
    apply bind_not_NoFuel; [apply clamp_ratio_not_NoFuel | intros; discriminate]. }
  intros w _. apply bind_not_NoFuel.
  { unfold clamp_step. apply bind_not_NoFuel; [apply clamp_ratio_not_NoFuel |].
    intros; apply to_int_not_NoFuel. }
  intros; discriminate.
Qed.

Lemma raw_stride_not_NoFuel fps start_sec end_sec cap :
  raw_stride fps start_sec end_sec cap <> NoFuel.
Proof.
  unfold raw_stride. apply bind_not_NoFuel; [apply mul_int_not_NoFuel |].
  intros x _. apply bind_not_NoFuel; [apply to_int_not_NoFuel |].
  intros w _. apply bind_not_NoFuel; [apply py_floordiv_not_NoFuel |].
  intros q _. apply bind_not_NoFuel; [apply py_floordiv_not_NoFuel |].
  intros; discriminate.
Qed.

Lemma sampling_plan_not_NoFuel m start_sec end_sec cap max_fps :
  sampling_plan m start_sec end_sec cap max_fps <> NoFuel.
Proof.
  unfold sampling_plan. apply bind_not_NoFuel.
  { unfold effective_end_sec. destruct (PyFloat.truthy end_sec);
      [discriminate | apply truediv_int_not_NoFuel]. }
  intros es _. apply bind_not_NoFuel; [apply raw_stride_not_NoFuel |].
  intros [[w s0] n0] _. apply bind_not_NoFuel; [apply clamp_not_NoFuel |].
  intros [[s n] wd] _. apply bind_not_NoFuel; [apply int_mul_not_NoFuel |].
  intros sf _. apply bind_not_NoFuel; [apply int_mul_not_NoFuel |].
  intros; discriminate.
Qed.

(** ** The loader, taken apart *)

Section LoaderFacts.

Context {Frame Image VideoCapture : Type}.
Variable B : Backend Frame Image VideoCapture.

Lemma process_video_cap_inv vc start_sec end_sec cap max_fps imgs fa f w h :
  process_video_cap B vc start_sec end_sec cap max_fps = Ok (imgs, fa, f, w, h) ->
  exists p,
    sampling_plan (cap_meta B vc) start_sec end_sec cap max_fps = Ok p
    /\ frame_loop B (Z.to_nat (SamplingPlan.frame_load_cap p))
                  (SamplingPlan.frame_load_cap p) (SamplingPlan.end_frame p)
                  (SamplingPlan.step p) vc (SamplingPlan.start_frame p) [] 0
       = Ok (imgs, fa)
    /\ f = SamplingPlan.new_fps p
    /\ w = SourceMeta.width (cap_meta B vc)
    /\ h = SourceMeta.height (cap_meta B vc).
Proof.
  intros H. unfold process_video_cap in H.
  apply bind_Ok in H. destruct H as (p & Hp & H).
  apply bind_Ok in H. destruct H as ([imgs' fa'] & Hloop & H).
  injection H as <- <- <- <- <-.
  exists p. repeat split; assumption.
Qed.

Lemma plan_cap_pos m start_sec end_sec cap max_fps p :
  sampling_plan m start_sec end_sec cap max_fps = Ok p ->
  SamplingPlan.frame_load_cap p = effective_cap cap /\ 1 <= SamplingPlan.frame_load_cap p.
Proof.
  intros H. apply sampling_plan_inv in H.
  destruct H as (s0 & n0 & _ & _ & _ & Hcap & _).
  rewrite Hcap. split; [reflexivity | apply effective_cap_pos].
Qed.

(** The counter returned by [process_video_cap] is the length of the
    list it returns, and is bounded by the effective cap. *)
Lemma process_video_cap_count vc start_sec end_sec cap max_fps imgs fa f w h :
  process_video_cap B vc start_sec end_sec cap max_fps = Ok (imgs, fa, f, w, h) ->
  fa = Z.of_nat (List.length imgs) /\ fa <= effective_cap cap.
Proof.
  intros H. apply process_video_cap_inv in H.
  destruct H as (p & Hp & Hloop & _).
  apply plan_cap_pos in Hp. destruct Hp as [Hcap Hpos].
  split.
  - apply frame_loop_count in Hloop. simpl in Hloop. lia.
  - apply frame_loop_cap in Hloop; lia.
Qed.

(** [process_video_cap] always comes back: the fuel it gives the loop
    is enough. *)
Lemma process_video_cap_terminates vc start_sec end_sec cap max_fps :
  process_video_cap B vc start_sec end_sec cap max_fps <> NoFuel.
Proof.
  unfold process_video_cap.
  apply bind_not_NoFuel; [apply sampling_plan_not_NoFuel |].
  intros p Hp. pose proof (plan_cap_pos _ _ _ _ _ _ Hp) as [_ Hpos].
  apply bind_not_NoFuel.
  - apply frame_loop_fuel; lia.
  - intros [imgs fa] _. discriminate.
Qed.

End LoaderFacts.

(** ** The loader: the specification's statements *)

Section LoadFacts.

Context {Frame Image VideoCapture : Type}.
Variable B : Backend Frame Image VideoCapture.

Lemma resize_stage_length images w h force_size images' w' h' calls :
resize_stage B images w h force_size = Ok (images', w', h', calls) ->
List.length images' = List.length images.
Proof.
unfold resize_stage. intros H.
destruct (negb (String.eqb force_size "Disabled")).
- apply bind_Ok in H. destruct H as (new_size & _ & H).
  destruct (negb (fst new_size =? w) || negb (snd new_size =? h)).
  + injection H as <- _ _ _. unfold common_upscale. apply length_map.
  + injection H as <- _ _ _. reflexivity.
- injection H as <- _ _ _. reflexivity.
Qed.

Lemma load_video_cv_inv video start_sec end_sec cap max_fps force_size imgs n f w h :
load_video_cv B video start_sec end_sec cap max_fps force_size = Ok (imgs, n, f, w, h) ->
exists imgs0 w0 h0 calls,
  cap_isOpened B (cap_open B video) = true
  /\ process_video_cap B (cap_open B video) start_sec end_sec cap (Some max_fps)
     = Ok (imgs0, n, f, w0, h0)
  /\ imgs0 <> []
  /\ resize_stage B imgs0 w0 h0 force_size = Ok (imgs, w, h, calls).
Proof.
unfold load_video_cv. intros H.
destruct (cap_isOpened B (cap_open B video)); simpl in H; [| discriminate].
apply bind_Ok in H. destruct H as ([[[[imgs0 n0] f0] w0] h0] & Hp & H).
destruct imgs0 as [| i0 imgs0]; simpl in H; [discriminate |].
apply bind_Ok in H. destruct H as ([[[imgs1 w1] h1] calls] & Hr & H).
injection H as <- <- <- <- <-.
exists (i0 :: imgs0), w0, h0, calls. repeat split; try assumption. discriminate.
Qed.

(** What [load_video_cv] does once [process_video_cap] has returned. *)
Lemma load_video_cv_after video start_sec end_sec cap max_fps force_size imgs n f w h :
cap_isOpened B (cap_open B video) = true ->
process_video_cap B (cap_open B video) start_sec end_sec cap (Some max_fps)
= Ok (imgs, n, f, w, h) ->
load_video_cv B video start_sec end_sec cap max_fps force_size
= match imgs with
  | [] => Raise (RuntimeError "No frames generated")
  | _ :: _ =>
      '(images, width, height, _) <- resize_stage B imgs w h force_size ;;
      Ok (images, n, f, width, height)
  end.
Proof.
intros Hopen Hp. unfold load_video_cv. rewrite Hopen, Hp. simpl.
destruct imgs; reflexivity.
Qed.

Lemma to_nat_cap_succ c : 1 <= c -> exists k, Z.to_nat c = S k.
Proof. intros H. exists (Z.to_nat (c - 1)). lia. Qed.

(** The first iteration of the loop inside [process_video_cap]. *)
Lemma process_video_cap_first_read vc start_sec end_sec cap max_fps p i :
sampling_plan (cap_meta B vc) start_sec end_sec cap max_fps = Ok p ->
PyFloat.to_int (SamplingPlan.start_frame p) = Ok i ->
match cap_read B (cap_set_pos B vc i) with
| (None, _) =>
    process_video_cap B vc start_sec end_sec cap max_fps
    = Ok ([], 0, SamplingPlan.new_fps p,
          SourceMeta.width (cap_meta B vc), SourceMeta.height (cap_meta B vc))
| (Some frame, _) =>
    PyFloat.ge (SamplingPlan.start_frame p) (SamplingPlan.end_frame p) = true ->
    process_video_cap B vc start_sec end_sec cap max_fps
    = Ok ([frame_to_tensor B frame], 1, SamplingPlan.new_fps p,
          SourceMeta.width (cap_meta B vc), SourceMeta.height (cap_meta B vc))
end.
Proof.
intros Hp Hi. unfold process_video_cap. rewrite Hp. cbn [bind].
pose proof (plan_cap_pos _ _ _ _ _ _ Hp) as [_ Hpos].
destruct (to_nat_cap_succ _ Hpos) as (k & ->).
destruct (cap_read B (cap_set_pos B vc i)) as [[frame |] vc'] eqn:Hr.
- intros Hge. rewrite (frame_loop_step B _ _ _ _ _ _ _ _ _ _ _ Hi Hr).
  rewrite Hge. destruct ((0 <? _) && _); reflexivity.
- rewrite (frame_loop_eos B _ _ _ _ _ _ _ _ _ _ Hi Hr). reflexivity.
Qed.

End LoadFacts.

(** C5, the counterexample.  On the 30 fps sample clip the request
    start_sec = 5, end_sec = 1 (end_sec positive, finite and below
    start_sec) is not rejected: the load returns a batch of one frame,
    the one at index 150. *)
Lemma load_video_cv_end_before_start :
  PyFloat.lt (PyFloat.lit 1) (PyFloat.lit 5) = true
  /\ PyFloat.lt PyFloat.zero (PyFloat.lit 1) = true
  /\ load_video_cv (Sample.backend Sample.clip) "a.mp4"
                   (PyFloat.lit 5) (PyFloat.lit 1) 50 (-1) "Disabled"
     = Ok ([(150, (640, 480))], 1, 30, 640, 480).
Proof. vm_compute. repeat split; reflexivity. Qed.

(** C5, as amended.  A window that ends before it starts is not an
    error of its own.  Whenever the capture opens, the planner returns
    and the planned end_frame does not exceed start_frame (as for
    start_sec = 5, end_sec = 1), the load reads the single frame at
    int(start_frame): it returns that frame as a batch of one with
    frame_count 1 (after the resize stage), and raises
    RuntimeError("No frames generated") when that read reports the end
    of the stream. *)
Theorem load_video_cv_empty_window
    {Frame Image VideoCapture : Type} (B : Backend Frame Image VideoCapture)
    video start_sec end_sec cap max_fps force_size p i :
  cap_isOpened B (cap_open B video) = true ->
  sampling_plan (cap_meta B (cap_open B video)) start_sec end_sec cap (Some max_fps) = Ok p ->
  PyFloat.ge (SamplingPlan.start_frame p) (SamplingPlan.end_frame p) = true ->
  PyFloat.to_int (SamplingPlan.start_frame p) = Ok i ->
  load_video_cv B video start_sec end_sec cap max_fps force_size
  = match fst (cap_read B (cap_set_pos B (cap_open B video) i)) with
    | Some frame =>
        '(images, width, height, _) <-
           resize_stage B [frame_to_tensor B frame]
                        (SourceMeta.width (cap_meta B (cap_open B video)))
                        (SourceMeta.height (cap_meta B (cap_open B video))) force_size ;;
        Ok (images, 1, SamplingPlan.new_fps p, width, height)
    | None => Raise (RuntimeError "No frames generated")
    end.
Proof.
  intros Hopen Hp Hge Hi.
  pose proof (process_video_cap_first_read B _ _ _ _ _ _ _ Hp Hi) as H.
  destruct (cap_read B (cap_set_pos B (cap_open B video) i)) as [[frame |] vc'].
  - rewrite (load_video_cv_after B _ _ _ _ _ _ _ _ _ _ _ Hopen (H Hge)). reflexivity.
  - rewrite (load_video_cv_after B _ _ _ _ _ _ _ _ _ _ _ Hopen H). reflexivity.
Qed.

Lemma load_video_cv_empty_window_witness :
  load_video_cv (Sample.backend Sample.clip) "a.mp4"
                (PyFloat.lit 5) (PyFloat.lit 1) 50 (-1) "Disabled"
  = Ok ([(150, (640, 480))], 1, 30, 640, 480).
Proof.
  refine (eq_trans
    (load_video_cv_empty_window (Sample.backend Sample.clip) "a.mp4"
       (PyFloat.lit 5) (PyFloat.lit 1) 50 (-1) "Disabled" _ 150 _ _ _ _) _);
    vm_compute; reflexivity.
Defined.

(** C6.  The load never returns an empty batch: a successful load has
    at least one frame; whenever the acquisition of an opened capture
    comes back with zero frames the load raises
    RuntimeError("No frames generated"); and that is the case as soon
    as the very first read, at int(start_frame), reports the end of the
    stream. *)
Theorem load_video_cv_no_frames
    {Frame Image VideoCapture : Type} (B : Backend Frame Image VideoCapture)
    video start_sec end_sec cap max_fps force_size :
  (forall imgs n f w h,
      load_video_cv B video start_sec end_sec cap max_fps force_size
      = Ok (imgs, n, f, w, h) -> imgs <> [])
  /\ (forall n f w h,
        cap_isOpened B (cap_open B video) = true ->
        process_video_cap B (cap_open B video) start_sec end_sec cap (Some max_fps)
        = Ok ([], n, f, w, h) ->
        load_video_cv B video start_sec end_sec cap max_fps force_size
        = Raise (RuntimeError "No frames generated"))
  /\ (forall p i,
        cap_isOpened B (cap_open B video) = true ->
        sampling_plan (cap_meta B (cap_open B video)) start_sec end_sec cap (Some max_fps)
        = Ok p ->
        PyFloat.to_int (SamplingPlan.start_frame p) = Ok i ->
        fst (cap_read B (cap_set_pos B (cap_open B video) i)) = None ->
        load_video_cv B video start_sec end_sec cap max_fps force_size
        = Raise (RuntimeError "No frames generated")).
Proof.
  split; [| split].
  - intros imgs n f w h H. apply load_video_cv_inv in H.
    destruct H as (imgs0 & w0 & h0 & calls & _ & _ & Hne & Hr).
    apply resize_stage_length in Hr. intros ->. destruct imgs0; [congruence | discriminate].
  - intros n f w h Hopen Hp.
    rewrite (load_video_cv_after B _ _ _ _ _ _ _ _ _ _ _ Hopen Hp). reflexivity.
  - intros p i Hopen Hp Hi Hread.
    pose proof (process_video_cap_first_read B _ _ _ _ _ _ _ Hp Hi) as H.
    destruct (cap_read B (cap_set_pos B (cap_open B video) i)) as [[frame |] vc'];
      [discriminate |].
    rewrite (load_video_cv_after B _ _ _ _ _ _ _ _ _ _ _ Hopen H). reflexivity.
Qed.

Lemma load_video_cv_no_frames_witness :
  load_video_cv (Sample.backend Sample.clip) "a.mp4"
                (PyFloat.lit 11) PyFloat.zero 50 (-1) "Disabled"
  = Raise (RuntimeError "No frames generated").
Proof.
  refine (proj2 (proj2
    (load_video_cv_no_frames (Sample.backend Sample.clip) "a.mp4"
       (PyFloat.lit 11) PyFloat.zero 50 (-1) "Disabled")) _ 330 _ _ _ _);
    vm_compute; reflexivity.
Defined.

(** C7.  The batch of a successful load has between 1 and
    [effective_cap frame_load_cap] frames.  In the loop, after a frame
    has been read and appended: the loop returns at once when the
    counter has reached the (positive) cap; it returns at once when
    curr >= end_frame, the frame just appended being the last one and
    curr not being advanced; otherwise it advances curr by step and
    goes on. *)
Theorem frame_batch_bounds
    {Frame Image VideoCapture : Type} (B : Backend Frame Image VideoCapture) :
  (forall video start_sec end_sec cap max_fps force_size imgs n f w h,
      load_video_cv B video start_sec end_sec cap max_fps force_size
      = Ok (imgs, n, f, w, h) ->
      1 <= Z.of_nat (List.length imgs) <= effective_cap cap)
  /\ (forall fuel cap endf st vc curr imgs fa i frame vc',
        PyFloat.to_int curr = Ok i ->
        cap_read B (cap_set_pos B vc i) = (Some frame, vc') ->
        (0 < cap -> cap <= fa + 1 ->
         frame_loop B (S fuel) cap endf st vc curr imgs fa
         = Ok (imgs ++ [frame_to_tensor B frame], fa + 1))
        /\ (PyFloat.ge curr endf = true ->
            frame_loop B (S fuel) cap endf st vc curr imgs fa
            = Ok (imgs ++ [frame_to_tensor B frame], fa + 1))
        /\ (fa + 1 < cap -> PyFloat.ge curr endf = false ->
            frame_loop B (S fuel) cap endf st vc curr imgs fa
            = (curr' <- PyFloat.add_int curr st ;;
               frame_loop B fuel cap endf st vc' curr'
                          (imgs ++ [frame_to_tensor B frame]) (fa + 1)))).
Proof.
  split.
  - intros video start_sec end_sec cap max_fps force_size imgs n f w h H.
    apply load_video_cv_inv in H.
    destruct H as (imgs0 & w0 & h0 & calls & _ & Hp & Hne & Hr).
    apply resize_stage_length in Hr. rewrite Hr.
    apply process_video_cap_count in Hp. destruct Hp as [Hn Hcap].
    destruct imgs0 as [| i0 imgs0]; [congruence |]. simpl List.length in *. lia.
  - intros fuel cap endf st vc curr imgs fa i frame vc' Hi Hr.
    rewrite (frame_loop_step B _ _ _ _ _ _ _ _ _ _ _ Hi Hr).
    split; [| split].
    + intros Hc Hfa.
      destruct (Z.ltb_spec 0 cap); [| lia].
      destruct (Z.leb_spec cap (fa + 1)); [| lia]. reflexivity.
    + intros Hge. rewrite Hge. destruct ((0 <? cap) && (cap <=? fa + 1)); reflexivity.
    + intros Hfa Hge. rewrite Hge.
      destruct (Z.leb_spec cap (fa + 1)); [lia |].
      rewrite andb_false_r. reflexivity.
Qed.

Lemma frame_batch_bounds_witness :
  1 <= Z.of_nat (List.length
         [(0, (640, 480)); (60, (640, 480)); (120, (640, 480));
          (180, (640, 480)); (240, (640, 480))]) <= effective_cap 5.
Proof.
  refine (proj1 (frame_batch_bounds (Sample.backend Sample.clip))
            "a.mp4"%string PyFloat.zero PyFloat.zero 5 (-1) "Disabled"%string
            _ 5 0 640 480 _).
  vm_compute. reflexivity.
Defined.

(** C8.  The resize stage is the identity in both of its no-op cases:
    with the spec "Disabled" it returns the batch unchanged with the
    source width and height, and so does the whole load return the
    frames of the acquisition; and whenever the resolved target size
    equals the source size it returns the identical batch.  In both
    cases [common_upscale] is not called. *)
Theorem resize_stage_identity
    {Frame Image VideoCapture : Type} (B : Backend Frame Image VideoCapture)
    (images : list Image) (width height : Z) :
  resize_stage B images width height "Disabled" = Ok (images, width, height, [])
  /\ (forall force_size,
        target_size width height force_size = Ok (width, height) ->
        resize_stage B images width height force_size = Ok (images, width, height, []))
  /\ (forall video start_sec end_sec cap max_fps n f,
        cap_isOpened B (cap_open B video) = true ->
        process_video_cap B (cap_open B video) start_sec end_sec cap (Some max_fps)
        = Ok (images, n, f, width, height) ->
        images <> [] ->
        load_video_cv B video start_sec end_sec cap max_fps "Disabled"
        = Ok (images, n, f, width, height)).
Proof.
  split; [reflexivity | split].
  - intros force_size Ht. unfold resize_stage.
    destruct (negb (String.eqb force_size "Disabled")); [| reflexivity].
    rewrite Ht. simpl. rewrite !Z.eqb_refl. reflexivity.
  - intros video start_sec end_sec cap max_fps n f Hopen Hp Hne.
    rewrite (load_video_cv_after B _ _ _ _ _ _ _ _ _ _ _ Hopen Hp).
    destruct images; [congruence | reflexivity].
Qed.

Lemma resize_stage_identity_witness :
  resize_stage (Sample.backend Sample.clip) [(0, (640, 480))] 640 480 "640x480"
  = Ok ([(0, (640, 480))], 640, 480, []).
Proof.
  refine (proj1 (proj2 (resize_stage_identity (Sample.backend Sample.clip)
                          [(0, (640, 480))] 640 480)) "640x480"%string _).
  vm_compute. reflexivity.
Defined.

(** C10.  On every successful load the returned frame_count is the
    length of the returned batch. *)
Theorem load_video_cv_frame_count
    {Frame Image VideoCapture : Type} (B : Backend Frame Image VideoCapture)
    video start_sec end_sec cap max_fps force_size imgs n f w h :
  load_video_cv B video start_sec end_sec cap max_fps force_size = Ok (imgs, n, f, w, h) ->
  n = Z.of_nat (List.length imgs).
Proof.
  intros H. apply load_video_cv_inv in H.
  destruct H as (imgs0 & w0 & h0 & calls & _ & Hp & _ & Hr).
  apply resize_stage_length in Hr. rewrite Hr.
  apply process_video_cap_count in Hp. tauto.
Qed.

Lemma load_video_cv_frame_count_witness :
  30 = Z.of_nat (List.length
         (map (fun k => (10 * Z.of_nat k, (344, 256))) (seq 0 30))).
Proof.
  refine (load_video_cv_frame_count (Sample.backend Sample.clip)
            "a.mp4"%string PyFloat.zero PyFloat.zero 50 3 "?x256"%string
            _ 30 3 344 256 _).
  vm_compute. reflexivity.
Defined.

(** * More of the module: sizes, file names, the node *)

Lemma align8_div x : align8 x = 8 * ((x + 4) / 8).
Proof.
  unfold align8. change (Z.lnot 7) with (Z.lnot (Z.ones 3)).
  rewrite <- Z.ldiff_land, Z.ldiff_ones_r by lia.
  rewrite Z.shiftl_mul_pow2, Z.shiftr_div_pow2 by lia.
  change (2 ^ 3) with 8. lia.
Qed.

Lemma align8_nearest x : align8 x mod 8 = 0 /\ x - 3 <= align8 x <= x + 4.
Proof.
  rewrite align8_div. split.
  - rewrite Z.mul_comm. apply Z.mod_mul. lia.
  - pose proof (Z.div_mod (x + 4) 8 ltac:(lia)).
    pose proof (Z.mod_pos_bound (x + 4) 8 ltac:(lia)). lia.
Qed.

Lemma align8_fixed x : x mod 8 = 0 -> align8 x = x.
Proof.
  intros H. rewrite align8_div.
  pose proof (Z.div_mod x 8 ltac:(lia)) as Hx. rewrite H in Hx.
  replace (x + 4) with (4 + (x / 8) * 8) by lia.
  rewrite Z.div_add by lia. change (4 / 8) with 0. lia.
Qed.

(** X1.  [target_size] with a wildcard axis: when the fixed axis is an
    integer literal and the source axis divided by is not zero, the
    wildcard axis is resolved to a multiple of 8 that lies between 3
    below and 4 above the aspect-preserving value
    (src_w * H) // src_h, resp. (src_h * W) // src_w. *)
Theorem target_size_aligned :
  (forall src_w src_h s H, src_h <> 0 -> py_int s = Ok H ->
     exists w, target_size src_w src_h ("?x" ++ s) = Ok (w, H)
               /\ w mod 8 = 0
               /\ (src_w * H) / src_h - 3 <= w <= (src_w * H) / src_h + 4)
  /\ (forall src_w src_h s W, src_w <> 0 -> py_int s = Ok W ->
        exists h, target_size src_w src_h (s ++ "x?") = Ok (W, h)
                  /\ h mod 8 = 0
                  /\ (src_h * W) / src_w - 3 <= h <= (src_h * W) / src_w + 4).
Proof.
  split.
  - intros src_w src_h s H Hh Hs. eexists. split.
    + apply target_size_width_wildcard; eassumption.
    + apply align8_nearest.
  - intros src_w src_h s W Hw Hs. eexists. split.
    + apply target_size_height_wildcard; eassumption.
    + apply align8_nearest.
Qed.

Lemma target_size_aligned_witness :
  exists w, target_size 1920 1080 ("?x" ++ "512") = Ok (w, 512)
            /\ w mod 8 = 0
            /\ (1920 * 512) / 1080 - 3 <= w <= (1920 * 512) / 1080 + 4.
Proof.
  apply (proj1 target_size_aligned 1920 1080 "512"%string 512); [lia | reflexivity].
Defined.

Lemma py_int_first_char c r v :
  py_int (String c r) = Ok v ->
  Ascii.eqb c "?" = false /\ Ascii.eqb c "D" = false.
Proof.
  intros H. apply py_int_chars in H. simpl in H.
  apply andb_true_iff in H. destruct H as [Hc _].
  apply int_char_not in Hc. tauto.
Qed.

Lemma py_int_not_wildcard s v : py_int s = Ok v -> String.eqb s "?" = false.
Proof.
  intros H. destruct s as [| c r]; [reflexivity |].
  apply py_int_first_char in H. destruct H as [H _]. simpl. rewrite H. reflexivity.
Qed.

Lemma target_size_explicit_eq src_w src_h s1 s2 W H :
  py_int s1 = Ok W -> py_int s2 = Ok H ->
  target_size src_w src_h (s1 ++ String "x" s2) = Ok (W, H).
Proof.
  intros H1 H2. unfold target_size.
  pose proof (py_int_nonempty _ _ H1) as Hne.
  destruct s1 as [| c r]; [contradiction |].
  destruct (py_int_first_char _ _ _ H1) as [Hq HD].
  rewrite (split_on_app "x" (String c r) s2 (py_int_no_x _ _ H1)).
  rewrite (split_on_whole "x" s2 (py_int_no_x _ _ H2)).
  assert (Hdis : String.eqb (String c r ++ String "x" s2) "Disabled" = false).
  { simpl. rewrite HD. reflexivity. }
  rewrite Hdis. simpl. rewrite Hq. simpl.
  rewrite (py_int_not_wildcard _ _ H2). simpl.
  rewrite H1. simpl. rewrite H2. reflexivity.
Qed.

(** X2.  [target_size] with both axes explicit, "WxH": the result is
    (W, H) whatever the source size, zero included; nothing is divided
    and nothing is aligned. *)
Theorem target_size_explicit src_w src_h s1 s2 W H :
  py_int s1 = Ok W -> py_int s2 = Ok H ->
  target_size src_w src_h (s1 ++ "x" ++ s2) = Ok (W, H).
Proof. apply target_size_explicit_eq. Qed.

Lemma target_size_explicit_witness :
  target_size 0 0 ("512" ++ "x" ++ "512") = Ok (512, 512).
Proof. apply (target_size_explicit 0 0 "512" "512" 512 512); reflexivity. Defined.

(** X3.  Resolving a wildcard spec again at the size it resolved to
    gives the same size (the fixed axis being non-zero): a batch that
    was resized with a spec is already at that spec's target size. *)
Theorem target_size_idempotent :
  (forall src_w src_h s H r, src_h <> 0 -> H <> 0 -> py_int s = Ok H ->
     target_size src_w src_h ("?x" ++ s) = Ok r ->
     target_size (fst r) (snd r) ("?x" ++ s) = Ok r)
  /\ (forall src_w src_h s W r, src_w <> 0 -> W <> 0 -> py_int s = Ok W ->
        target_size src_w src_h (s ++ "x?") = Ok r ->
        target_size (fst r) (snd r) (s ++ "x?") = Ok r).
Proof.
  split.
  - intros src_w src_h s H r Hh HH Hs Hr.
    rewrite (target_size_width_wildcard _ _ _ _ Hh Hs) in Hr. injection Hr as <-.
    simpl fst; simpl snd.
    rewrite (target_size_width_wildcard _ _ _ _ HH Hs).
    rewrite Z.div_mul by assumption.
    rewrite align8_fixed; [reflexivity | apply align8_nearest].
  - intros src_w src_h s W r Hw HW Hs Hr.
    rewrite (target_size_height_wildcard _ _ _ _ Hw Hs) in Hr. injection Hr as <-.
    simpl fst; simpl snd.
    rewrite (target_size_height_wildcard _ _ _ _ HW Hs).
    rewrite Z.div_mul by assumption.
    rewrite align8_fixed; [reflexivity | apply align8_nearest].
Qed.

Lemma target_size_idempotent_witness :
  target_size (fst (912, 512)) (snd (912, 512)) ("?x" ++ "512") = Ok (912, 512).
Proof.
  apply (proj1 target_size_idempotent 1920 1080 "512"%string 512 (912, 512));
    [lia | lia | reflexivity | reflexivity].
Defined.

(** X4.  The failures of [target_size]: a zero source height with a
    width wildcard, or a zero source width with a height wildcard,
    raises ZeroDivisionError; a spec other than "Disabled" with no "x"
    in it raises IndexError; "?x?" raises ValueError. *)
Theorem target_size_errors :
  (forall src_w s H, py_int s = Ok H ->
     target_size src_w 0 ("?x" ++ s) = Raise ZeroDivisionError)
  /\ (forall src_h s W, py_int s = Ok W ->
        target_size 0 src_h (s ++ "x?") = Raise ZeroDivisionError)
  /\ (forall src_w src_h force_size,
        force_size <> "Disabled"%string ->
        all_chars (differs "x") force_size = true ->
        target_size src_w src_h force_size = Raise IndexError)
  /\ (forall src_w src_h,
        target_size src_w src_h "?x?"
        = Raise (ValueError "invalid literal for int() with base 10")).
Proof.
  split; [| split; [| split]].
  - intros src_w s H Hs. unfold target_size. simpl.
    rewrite (split_on_whole "x" s (py_int_no_x _ _ Hs)). simpl.
    rewrite Hs. reflexivity.
  - intros src_h s W Hs. unfold target_size.
    pose proof (py_int_nonempty _ _ Hs) as Hne.
    destruct s as [| c r]; [contradiction |].
    destruct (py_int_first_char _ _ _ Hs) as [Hq HD].
    rewrite (split_on_app "x" (String c r) "?" (py_int_no_x _ _ Hs)).
    assert (Hdis : String.eqb (String c r ++ "x?") "Disabled" = false).
    { simpl. rewrite HD. reflexivity. }
    rewrite Hdis. simpl. rewrite Hq. simpl. rewrite Hs. reflexivity.
  - intros src_w src_h fs Hne Hx. unfold target_size.
    apply String.eqb_neq in Hne. rewrite Hne. simpl.
    rewrite (split_on_whole "x" fs Hx). simpl.
    destruct (String.eqb fs "?"); reflexivity.
  - intros. reflexivity.
Qed.

Lemma target_size_errors_witness :
  target_size 640 0 ("?x" ++ "256") = Raise ZeroDivisionError
  /\ target_size 640 480 "512" = Raise IndexError.
Proof.
  split.
  - apply (proj1 target_size_errors 640 "256"%string 256). reflexivity.
  - apply (proj1 (proj2 (proj2 target_size_errors)) 640 480 "512"%string);
      [discriminate | reflexivity].
Defined.

(** X5.  Every option of [force_sizes] but "Disabled", on a source of
    positive width and height, resolves without exception to a width
    and a height that are non-negative multiples of 8. *)
Theorem target_size_options src_w src_h force_size :
  In force_size force_sizes -> force_size <> "Disabled"%string ->
  0 < src_w -> 0 < src_h ->
  exists w h, target_size src_w src_h force_size = Ok (w, h)
              /\ w mod 8 = 0 /\ h mod 8 = 0 /\ 0 <= w /\ 0 <= h.
Proof.
  intros Hin Hne Hw Hh.
  assert (Ha : forall x, 0 <= x -> 0 <= align8 x /\ align8 x mod 8 = 0).
  { intros x Hx. pose proof (align8_nearest x) as [Hm _]. split; [| assumption].
    rewrite align8_div. apply Z.mul_nonneg_nonneg; [lia |].
    apply Z.div_pos; lia. }
  assert (Hq1 : forall n, 0 <= n -> 0 <= (src_w * n) / src_h).
  { intros n Hn. apply Z.div_pos; nia. }
  assert (Hq2 : forall n, 0 <= n -> 0 <= (src_h * n) / src_w).
  { intros n Hn. apply Z.div_pos; nia. }
  assert (Hwild_w : forall s n, py_int s = Ok n -> 0 <= n -> n mod 8 = 0 ->
            exists w h, target_size src_w src_h ("?x" ++ s) = Ok (w, h)
                        /\ w mod 8 = 0 /\ h mod 8 = 0 /\ 0 <= w /\ 0 <= h).
  { intros s n Hs Hn Hn8. do 2 eexists. split.
    - apply target_size_width_wildcard; [lia | exact Hs].
    - destruct (Ha _ (Hq1 n Hn)). repeat split; assumption. }
  assert (Hwild_h : forall s n, py_int s = Ok n -> 0 <= n -> n mod 8 = 0 ->
            exists w h, target_size src_w src_h (s ++ "x?") = Ok (w, h)
                        /\ w mod 8 = 0 /\ h mod 8 = 0 /\ 0 <= w /\ 0 <= h).
  { intros s n Hs Hn Hn8. do 2 eexists. split.
    - apply target_size_height_wildcard; [lia | exact Hs].
    - destruct (Ha _ (Hq2 n Hn)). repeat split; assumption. }
  simpl in Hin.
  destruct Hin as [<- | [<- | [<- | [<- | [<- | [<- | [<- | [<- | [<- | []]]]]]]]]].
  - congruence.
  - apply (Hwild_h "256"%string 256); [reflexivity | lia | reflexivity].
  - apply (Hwild_w "256"%string 256); [reflexivity | lia | reflexivity].
  - exists 256, 256. repeat split; reflexivity || lia.
  - apply (Hwild_h "512"%string 512); [reflexivity | lia | reflexivity].
  - apply (Hwild_w "512"%string 512); [reflexivity | lia | reflexivity].
  - exists 512, 512. repeat split; reflexivity || lia.
  - apply (Hwild_w "768"%string 768); [reflexivity | lia | reflexivity].
  - apply (Hwild_h "768"%string 768); [reflexivity | lia | reflexivity].
Qed.

Lemma target_size_options_witness :
  exists w h, target_size 1 1000 "?x256" = Ok (w, h)
              /\ w mod 8 = 0 /\ h mod 8 = 0 /\ 0 <= w /\ 0 <= h.
Proof.
  apply (target_size_options 1 1000 "?x256"%string);
    [simpl; tauto | discriminate | lia | lia].
Defined.

(** X8.  A capture that reports a frame rate of 0, asked for a window
    to the end of the clip (end_sec = 0), makes [process_video_cap]
    raise ZeroDivisionError at line 82, before any frame is read. *)
Theorem process_video_cap_zero_fps
    {Frame Image VideoCapture : Type} (B : Backend Frame Image VideoCapture)
    video_cap start_sec end_sec cap max_fps :
  SourceMeta.fps (cap_meta B video_cap) = 0 ->
  PyFloat.truthy end_sec = false ->
  process_video_cap B video_cap start_sec end_sec cap max_fps = Raise ZeroDivisionError.
Proof.
  intros Hfps Hend. unfold process_video_cap, sampling_plan, effective_end_sec.
  rewrite Hend, Hfps. unfold PyFloat.truediv_int.
  destruct (SourceMeta.frame_count (cap_meta B video_cap)); reflexivity.
Qed.

Lemma process_video_cap_zero_fps_witness :
  process_video_cap
    (Sample.backend {| SourceMeta.fps := 0; SourceMeta.width := 0;
                       SourceMeta.height := 0; SourceMeta.frame_count := 0 |})
    (cap_open (Sample.backend {| SourceMeta.fps := 0; SourceMeta.width := 0;
                       SourceMeta.height := 0; SourceMeta.frame_count := 0 |}) "a.mp4")
    PyFloat.zero PyFloat.zero 50 (Some (-1)) = Raise ZeroDivisionError.
Proof. apply process_video_cap_zero_fps; reflexivity. Defined.

Lemma index_not_NoFuel {A : Type} (l : list A) i : index l i <> NoFuel.
Proof. unfold index. destruct (nth_error l i); discriminate. Qed.

Lemma int_body_not_NoFuel negative s : int_body negative s <> NoFuel.
Proof.
  unfold int_body. destruct (span_digits s) as [run rest].
  destruct (digits_value run 0 false); [| discriminate].
  destruct (max_str_digits <? count_digits run); [discriminate |].
  destruct (lstrip rest); discriminate.
Qed.

Lemma py_int_not_NoFuel s : py_int s <> NoFuel.
Proof.
  unfold py_int. destruct (lstrip s) as [| c r]; [apply int_body_not_NoFuel |].
  destruct (Ascii.eqb c "+"); [apply int_body_not_NoFuel |].
  destruct (Ascii.eqb c "-"); apply int_body_not_NoFuel.
Qed.

Lemma target_size_not_NoFuel w h force_size : target_size w h force_size <> NoFuel.
Proof.
  unfold target_size.
  destruct (negb (String.eqb force_size "Disabled")); [| discriminate].
  apply bind_not_NoFuel; [apply index_not_NoFuel | intros p0 _].
  destruct (String.eqb p0 "?").
  - apply bind_not_NoFuel; [apply index_not_NoFuel | intros p1 _].
    apply bind_not_NoFuel; [apply py_int_not_NoFuel | intros n _].
    apply bind_not_NoFuel; [apply py_floordiv_not_NoFuel | intros q _].
    apply bind_not_NoFuel; [apply index_not_NoFuel | intros p1' _].
    apply bind_not_NoFuel; [apply py_int_not_NoFuel | intros; discriminate].
  - apply bind_not_NoFuel; [apply index_not_NoFuel | intros p1 _].
    destruct (String.eqb p1 "?").
    + apply bind_not_NoFuel; [apply index_not_NoFuel | intros p0' _].
      apply bind_not_NoFuel; [apply py_int_not_NoFuel | intros n _].
      apply bind_not_NoFuel; [apply py_floordiv_not_NoFuel | intros q _].
      apply bind_not_NoFuel; [apply index_not_NoFuel | intros p0'' _].
      apply bind_not_NoFuel; [apply py_int_not_NoFuel | intros; discriminate].
    + apply bind_not_NoFuel; [apply index_not_NoFuel | intros p0' _].
      apply bind_not_NoFuel; [apply py_int_not_NoFuel | intros n _].
      apply bind_not_NoFuel; [apply index_not_NoFuel | intros p1' _].
      apply bind_not_NoFuel; [apply py_int_not_NoFuel | intros; discriminate].
Qed.

Lemma resize_stage_not_NoFuel
    {Frame Image VideoCapture : Type} (B : Backend Frame Image VideoCapture)
    images w h force_size :
  resize_stage B images w h force_size <> NoFuel.
Proof.
  unfold resize_stage.
  destruct (negb (String.eqb force_size "Disabled")); [| discriminate].
  apply bind_not_NoFuel; [apply target_size_not_NoFuel |].
  intros new_size _. destruct (negb _ || negb _); discriminate.
Qed.

(** The loop of [process_video_cap] always ends: a load returns or raises. *)
Lemma load_video_cv_terminates
    {Frame Image VideoCapture : Type} (B : Backend Frame Image VideoCapture)
    video start_sec end_sec cap max_fps force_size :
  load_video_cv B video start_sec end_sec cap max_fps force_size <> NoFuel.
Proof.
  unfold load_video_cv.
  destruct (cap_isOpened B (cap_open B video)); simpl; [| discriminate].
  apply bind_not_NoFuel; [apply process_video_cap_terminates |].
  intros [[[[imgs n] f] w] h] _.
  destruct imgs as [| i0 imgs]; simpl; [discriminate |].
  apply bind_not_NoFuel; [apply resize_stage_not_NoFuel |].
  intros [[[imgs' w'] h'] calls] _. discriminate.
Qed.

Lemma frame_loop_prefix
    {Frame Image VideoCapture : Type} (B : Backend Frame Image VideoCapture) fuel :
  forall cap endf st vc curr imgs fa imgs' fa',
    frame_loop B fuel cap endf st vc curr imgs fa = Ok (imgs', fa') ->
    exists more, imgs' = imgs ++ more.
Proof.
  induction fuel as [| fuel IH]; intros cap endf st vc curr imgs fa imgs' fa' H.
  - discriminate.
  - simpl in H. destruct (PyFloat.to_int curr) as [i | e |]; simpl in H; try discriminate.
    destruct (cap_read B (cap_set_pos B vc i)) as [[frame |] vc'].
    + destruct ((0 <? cap) && (cap <=? fa + 1)).
      { injection H as <- _. eexists. reflexivity. }
      destruct (PyFloat.ge curr endf).
      { injection H as <- _. eexists. reflexivity. }
      destruct (PyFloat.add_int curr st) as [c | e |]; simpl in H; try discriminate.
      apply IH in H. destruct H as (more & ->).
      exists ([frame_to_tensor B frame] ++ more). rewrite app_assoc. reflexivity.
    + injection H as <- _. exists []. rewrite app_nil_r. reflexivity.
Qed.

Lemma clamp_applies_no_ceiling max_fps n :
  (forall mx, max_fps = Some mx -> mx <= 0) -> clamp_applies max_fps n = false.
Proof.
  intros H. destruct max_fps as [mx |]; [| reflexivity].
  specialize (H mx eq_refl).
  destruct (clamp_applies (Some mx) n) eqn:E; [| reflexivity].
  apply clamp_applies_spec in E. lia.
Qed.

(** X9.  When [process_video_cap] returns, the planner returned and
    int(start_frame) is defined; if the read at that position gave a
    frame, its conversion is the first image of the returned list, and
    if it reported the end of the stream the list is empty. *)
Theorem process_video_cap_first_frame
    {Frame Image VideoCapture : Type} (B : Backend Frame Image VideoCapture)
    video_cap start_sec end_sec cap max_fps imgs n f w h :
  process_video_cap B video_cap start_sec end_sec cap max_fps = Ok (imgs, n, f, w, h) ->
  exists p i,
    sampling_plan (cap_meta B video_cap) start_sec end_sec cap max_fps = Ok p
    /\ PyFloat.to_int (SamplingPlan.start_frame p) = Ok i
    /\ match fst (cap_read B (cap_set_pos B video_cap i)) with
       | Some frame => exists rest, imgs = frame_to_tensor B frame :: rest
       | None => imgs = []
       end.
Proof.
  intros H. apply process_video_cap_inv in H.
  destruct H as (p & Hp & Hloop & _).
  pose proof (plan_cap_pos _ _ _ _ _ _ Hp) as [_ Hpos].
  destruct (to_nat_cap_succ _ Hpos) as (k & Hk). rewrite Hk in Hloop.
  destruct (PyFloat.to_int (SamplingPlan.start_frame p)) as [i | e |] eqn:Hi;
    [| simpl in Hloop; rewrite Hi in Hloop; discriminate
     | simpl in Hloop; rewrite Hi in Hloop; discriminate].
  exists p, i. split; [assumption | split; [exact Hi |]].
  destruct (cap_read B (cap_set_pos B video_cap i)) as [[frame |] vc'] eqn:Hr; simpl.
  - rewrite (frame_loop_step B _ _ _ _ _ _ _ _ _ _ _ Hi Hr) in Hloop.
    destruct ((0 <? _) && _); [injection Hloop as <- _; eexists; reflexivity |].
    destruct (PyFloat.ge _ _); [injection Hloop as <- _; eexists; reflexivity |].
    apply bind_Ok in Hloop. destruct Hloop as (c & _ & Hloop).
    apply frame_loop_prefix in Hloop. destruct Hloop as (more & ->).
    eexists. reflexivity.
  - rewrite (frame_loop_eos B _ _ _ _ _ _ _ _ _ _ Hi Hr) in Hloop.
    injection Hloop as <- _. reflexivity.
Qed.

Lemma process_video_cap_first_frame_witness :
  exists p i,
    sampling_plan (cap_meta (Sample.backend Sample.clip)
                     (cap_open (Sample.backend Sample.clip) "a.mp4"))
                  (PyFloat.lit 5) (PyFloat.lit 1) 50 (Some (-1)) = Ok p
    /\ PyFloat.to_int (SamplingPlan.start_frame p) = Ok i
    /\ match fst (cap_read (Sample.backend Sample.clip)
                    (cap_set_pos (Sample.backend Sample.clip)
                       (cap_open (Sample.backend Sample.clip) "a.mp4") i)) with
       | Some frame =>
           exists rest, [(150, (640, 480))]
                        = frame_to_tensor (Sample.backend Sample.clip) frame :: rest
       | None => [(150, (640, 480))] = []
       end.
Proof.
  apply (process_video_cap_first_frame (Sample.backend Sample.clip)
           (cap_open (Sample.backend Sample.clip) "a.mp4")
           (PyFloat.lit 5) (PyFloat.lit 1) 50 (Some (-1))
           [(150, (640, 480))] 1 30 640 480).
  vm_compute. reflexivity.
Defined.

(** X10.  With frame_load_cap = 1 [process_video_cap] makes one read,
    at int(start_frame): it returns that one frame with a count of 1,
    or no frame with a count of 0. *)
Theorem process_video_cap_cap_one
    {Frame Image VideoCapture : Type} (B : Backend Frame Image VideoCapture)
    video_cap start_sec end_sec max_fps p i :
  sampling_plan (cap_meta B video_cap) start_sec end_sec 1 max_fps = Ok p ->
  PyFloat.to_int (SamplingPlan.start_frame p) = Ok i ->
  process_video_cap B video_cap start_sec end_sec 1 max_fps
  = match fst (cap_read B (cap_set_pos B video_cap i)) with
    | Some frame =>
        Ok ([frame_to_tensor B frame], 1, SamplingPlan.new_fps p,
            SourceMeta.width (cap_meta B video_cap),
            SourceMeta.height (cap_meta B video_cap))
    | None =>
        Ok ([], 0, SamplingPlan.new_fps p,
            SourceMeta.width (cap_meta B video_cap),
            SourceMeta.height (cap_meta B video_cap))
    end.
Proof.
  intros Hp Hi. unfold process_video_cap. rewrite Hp. cbn [bind].
  pose proof (plan_cap_pos _ _ _ _ _ _ Hp) as [Hcap _].
  change (effective_cap 1) with 1 in Hcap. rewrite Hcap.
  change (Z.to_nat 1) with 1%nat.
  destruct (cap_read B (cap_set_pos B video_cap i)) as [[frame |] vc'] eqn:Hr; simpl fst.
  - rewrite (frame_loop_step B _ _ _ _ _ _ _ _ _ _ _ Hi Hr). reflexivity.
  - rewrite (frame_loop_eos B _ _ _ _ _ _ _ _ _ _ Hi Hr). reflexivity.
Qed.

Lemma process_video_cap_cap_one_witness :
  process_video_cap (Sample.backend Sample.clip)
    (cap_open (Sample.backend Sample.clip) "a.mp4") PyFloat.zero PyFloat.zero 1 (Some (-1))
  = Ok ([(0, (640, 480))], 1, 0, 640, 480).
Proof.
  refine (eq_trans
    (process_video_cap_cap_one (Sample.backend Sample.clip)
       (cap_open (Sample.backend Sample.clip) "a.mp4")
       PyFloat.zero PyFloat.zero (Some (-1)) _ 0 _ _) _);
    vm_compute; reflexivity.
Defined.

(** X7.  With no max-fps ceiling (max_fps None, 0 or negative), every
    returned plan has output rate fps // step; a window of fewer than
    2 * cap frames is sampled with step 1 at the source rate; and a
    window of at least cap frames gets the stride with
    step * cap <= window < (step + 1) * cap. *)
Theorem sampling_plan_stride m start_sec end_sec cap max_fps p :
  sampling_plan m start_sec end_sec cap max_fps = Ok p ->
  (forall mx, max_fps = Some mx -> mx <= 0) ->
  let window := SamplingPlan.original_frame_length p in
  let c := SamplingPlan.frame_load_cap p in
  SamplingPlan.new_fps p = SourceMeta.fps m / SamplingPlan.step p
  /\ (window < 2 * c ->
      SamplingPlan.step p = 1 /\ SamplingPlan.new_fps p = SourceMeta.fps m)
  /\ (c <= window ->
      SamplingPlan.step p * c <= window < (SamplingPlan.step p + 1) * c).
Proof.
  intros Hp Hmax window c.
  pose proof (plan_cap_pos _ _ _ _ _ _ Hp) as [_ Hpos]. fold c in Hpos.
  apply sampling_plan_raw in Hp. cbv zeta in Hp. fold window c in Hp.
  rewrite clamp_off in Hp by (apply clamp_applies_no_ceiling; assumption).
  injection Hp as Hs Hn _. rewrite <- Hs.
  split; [rewrite <- Hn; reflexivity | split].
  - intros Hw.
    assert (Hq : window / c <= 1).
    { apply Z.lt_succ_r. apply Z.div_lt_upper_bound; lia. }
    assert (Hs1 : Z.max (window / c) 1 = 1) by lia.
    rewrite <- Hn, Hs1. split; [reflexivity | apply Z.div_1_r].
  - intros Hw.
    assert (Hq : 1 <= window / c) by (apply Z.div_le_lower_bound; lia).
    rewrite Z.max_l by assumption.
    pose proof (Z.mul_div_le window c ltac:(lia)).
    pose proof (Z.mul_succ_div_gt window c ltac:(lia)). lia.
Qed.

Lemma sampling_plan_stride_witness :
  exists p,
    sampling_plan Sample.clip PyFloat.zero PyFloat.zero 50 (Some (-1)) = Ok p
    /\ SamplingPlan.step p * 50 <= 300 < (SamplingPlan.step p + 1) * 50.
Proof.
  eexists. split; [vm_compute; reflexivity |].
  pose proof (sampling_plan_stride Sample.clip PyFloat.zero PyFloat.zero 50 (Some (-1)) _
                eq_refl) as H.
  cbv zeta in H.
  refine (proj2 (proj2 (H _)) _).
  - intros mx E. injection E as <-. lia.
  - vm_compute. discriminate.
Defined.

(** ** File names *)

Lemma split_on_nonempty sep s : split_on sep s <> [].
Proof.
  destruct s as [| c s]; simpl; [discriminate |].
  destruct (Ascii.eqb c sep); [discriminate |].
  destruct (split_on sep s); discriminate.
Qed.

(** Joining the pieces of a split gives the string back. *)
Lemma join_split sep s : join sep (split_on sep s) = s.
Proof.
  induction s as [| c s IH]; simpl; [reflexivity |].
  destruct (Ascii.eqb_spec c sep) as [-> | Hne].
  - pose proof (split_on_nonempty sep s) as Hn.
    destruct (split_on sep s) as [| h t] eqn:E; [contradiction |].
    change (join sep (EmptyString :: h :: t))
      with (EmptyString ++ String sep (join sep (h :: t)))%string.
    rewrite IH. reflexivity.
  - pose proof (split_on_nonempty sep s) as Hn.
    destruct (split_on sep s) as [| h t] eqn:E; [contradiction |].
    destruct t as [| h' t'].
    + simpl in *. rewrite IH. reflexivity.
    + change (join sep (String c h :: h' :: t'))
        with (String c (h ++ String sep (join sep (h' :: t'))))%string.
      change (join sep (h :: h' :: t'))
        with (h ++ String sep (join sep (h' :: t')))%string in IH.
      rewrite IH. reflexivity.
Qed.

Lemma string_app_assoc (a b c : string) : ((a ++ b) ++ c = a ++ (b ++ c))%string.
Proof. induction a as [| x a IH]; simpl; [reflexivity | rewrite IH; reflexivity]. Qed.

Lemma string_app_length (a b : string) :
  String.length (a ++ b) = (String.length a + String.length b)%nat.
Proof. induction a as [| x a IH]; simpl; [reflexivity | rewrite IH; reflexivity]. Qed.

Lemma join_last sep l d :
  (1 < List.length l)%nat ->
  exists stem, join sep l = (stem ++ String sep (last l d))%string.
Proof.
  induction l as [| x l IH]; simpl List.length; [lia |].
  intros Hlen. destruct l as [| y l'].
  - simpl in Hlen. lia.
  - destruct l' as [| z l''].
    + exists x. reflexivity.
    + destruct IH as (stem & Hstem); [simpl; lia |].
      exists (x ++ String sep stem)%string.
      change (join sep (x :: y :: z :: l''))
        with (x ++ String sep (join sep (y :: z :: l'')))%string.
      rewrite Hstem.
      change (last (x :: y :: z :: l'') d) with (last (y :: z :: l'') d).
      rewrite string_app_assoc. reflexivity.
Qed.

Lemma split_on_last_app sep a b d :
  all_chars (differs sep) b = true ->
  last (split_on sep (a ++ String sep b)) d = b
  /\ (1 < List.length (split_on sep (a ++ String sep b)))%nat.
Proof.
  intros Hb. induction a as [| c a IH].
  - simpl. rewrite Ascii.eqb_refl, (split_on_whole sep b Hb). simpl. split; [reflexivity | lia].
  - destruct IH as [IHl IHn].
    change (String c a ++ String sep b)%string with (String c (a ++ String sep b)).
    simpl split_on.
    destruct (split_on sep (a ++ String sep b)) as [| h t] eqn:E; [simpl in IHn; lia |].
    destruct t as [| h' t']; [simpl in IHn; lia |].
    destruct (Ascii.eqb c sep).
    + split; [exact IHl | simpl; lia].
    + split; [exact IHl | simpl; lia].
Qed.

Lemma existsb_eqb_In x l : existsb (String.eqb x) l = true <-> In x l.
Proof.
  rewrite existsb_exists. split.
  - intros (y & Hy & E). apply String.eqb_eq in E. subst. exact Hy.
  - intros H. exists x. split; [exact H | apply String.eqb_refl].
Qed.

Lemma video_extension_no_dot ext :
  In ext video_extensions -> all_chars (differs ".") ext = true.
Proof.
  simpl. intros [<- | [<- | [<- | [<- | []]]]]; reflexivity.
Qed.

(** X12.  The extension test of [INPUT_TYPES] accepts exactly the
    names of the form stem.ext with ext one of "webm", "mp4", "mkv",
    "gif"; a name with no dot is never accepted. *)
Theorem has_video_extension_iff f :
  has_video_extension f = true
  <-> exists stem ext, f = (stem ++ "." ++ ext)%string /\ In ext video_extensions.
Proof.
  unfold has_video_extension. rewrite andb_true_iff, Nat.ltb_lt, existsb_eqb_In. split.
  - intros [Hlen Hin].
    destruct (join_last "." _ EmptyString Hlen) as (stem & Hstem).
    rewrite join_split in Hstem.
    exists stem, (last (split_on "." f) EmptyString). split; [exact Hstem | exact Hin].
  - intros (stem & ext & -> & Hin).
    destruct (split_on_last_app "." stem ext EmptyString (video_extension_no_dot _ Hin))
      as [Hl Hn].
    change (stem ++ "." ++ ext)%string with (stem ++ String "." ext)%string.
    rewrite Hl. split; assumption.
Qed.

Lemma endswith_iff s suffix :
  endswith s suffix = true <-> exists p, s = (p ++ suffix)%string.
Proof.
  induction s as [| c s IH].
  - change (endswith EmptyString suffix) with (String.eqb EmptyString suffix || false).
    rewrite orb_false_r, String.eqb_eq. split.
    + intros <-. exists EmptyString. reflexivity.
    + intros (p & Hp). destruct p; simpl in Hp; [assumption | discriminate].
  - change (endswith (String c s) suffix)
      with (String.eqb (String c s) suffix || endswith s suffix).
    rewrite orb_true_iff, String.eqb_eq, IH. split.
    + intros [<- | (p & ->)]; [exists EmptyString; reflexivity |].
      exists (String c p). reflexivity.
    + intros (p & Hp). destruct p as [| c' p]; simpl in Hp; [left; assumption |].
      injection Hp as <- ->. right. exists p. reflexivity.
Qed.

Lemma endswith_app a b suffix :
  (String.length suffix <= String.length b)%nat ->
  endswith (a ++ b) suffix = endswith b suffix.
Proof.
  intros Hlen. induction a as [| c a IH]; [reflexivity |].
  change (String c a ++ b)%string with (String c (a ++ b)).
  change (endswith (String c (a ++ b)) suffix)
    with (String.eqb (String c (a ++ b)) suffix || endswith (a ++ b) suffix).
  rewrite IH.
  destruct (String.eqb_spec (String c (a ++ b)) suffix) as [E | _]; [| reflexivity].
  apply (f_equal String.length) in E. simpl in E. rewrite string_app_length in E. lia.
Qed.

(** X13.  [is_gif] holds exactly of the names that end in "gif", with
    or without a dot before it; among the names stem.ext with ext a
    video extension these are the ones whose extension is "gif". *)
Theorem is_gif_iff :
  (forall filename, is_gif filename = true <-> exists p, filename = (p ++ "gif")%string)
  /\ (forall stem ext, In ext video_extensions ->
        (is_gif (stem ++ "." ++ ext) = true <-> ext = "gif"%string)).
Proof.
  split.
  - intros filename. apply endswith_iff.
  - intros stem ext Hin. unfold is_gif.
    assert (Hlen : (String.length "gif" <= String.length ("." ++ ext))%nat).
    { simpl in Hin. destruct Hin as [<- | [<- | [<- | [<- | []]]]]; simpl; lia. }
    rewrite (endswith_app stem ("." ++ ext) "gif" Hlen).
    simpl in Hin. destruct Hin as [<- | [<- | [<- | [<- | []]]]]; simpl;
      split; intros H; try reflexivity; discriminate H.
Qed.

Lemma is_gif_iff_witness :
  is_gif ("clip" ++ "." ++ "gif") = true <-> "gif"%string = "gif"%string.
Proof.
  apply (proj2 is_gif_iff "clip"%string "gif"%string). simpl. tauto.
Defined.

(** ** The upload list *)

Lemma insert_sorted_perm x l : Permutation (x :: l) (insert_sorted x l).
Proof.
  induction l as [| y l IH]; simpl; [apply Permutation_refl |].
  destruct (String.leb x y); [apply Permutation_refl |].
  eapply perm_trans; [apply perm_swap | apply perm_skip; exact IH].
Qed.

Lemma sorted_perm l : Permutation l (sorted l).
Proof.
  induction l as [| x l IH]; simpl; [apply perm_nil |].
  eapply perm_trans; [apply perm_skip; exact IH | apply insert_sorted_perm].
Qed.

Lemma insert_sorted_Sorted x l :
  Sorted string_le l -> Sorted string_le (insert_sorted x l).
Proof.
  induction l as [| y l IH]; simpl; intros Hs.
  - repeat constructor.
  - destruct (String.leb x y) eqn:Hxy.
    + constructor; [assumption | constructor; exact Hxy].
    + apply Sorted_inv in Hs. destruct Hs as [Hs Hhd].
      constructor; [apply IH; assumption |].
      assert (Hyx : string_le y x).
      { destruct (String.leb_total x y) as [H | H]; [congruence | exact H]. }
      destruct l as [| z l]; simpl; [constructor; exact Hyx |].
      destruct (String.leb x z); constructor; [exact Hyx |].
      apply HdRel_inv in Hhd. exact Hhd.
Qed.

Lemma sorted_Sorted l : Sorted string_le (sorted l).
Proof.
  induction l as [| x l IH]; simpl; [constructor | apply insert_sorted_Sorted; exact IH].
Qed.

(** X14.  The "upload" choices of [INPUT_TYPES] are the entries of the
    input directory that are regular files and pass the extension
    test, each as often as it is listed, in ascending order. *)
Theorem upload_choices_spec listdir isfile :
  Permutation (upload_choices listdir isfile)
              (filter (fun f => isfile f && has_video_extension f) listdir)
  /\ Sorted (fun a b => String.leb a b = true) (upload_choices listdir isfile)
  /\ (forall f, In f (upload_choices listdir isfile)
                <-> In f listdir /\ isfile f = true
                    /\ exists stem ext, f = (stem ++ "." ++ ext)%string
                                        /\ In ext video_extensions).
Proof.
  unfold upload_choices, upload_files. split; [| split].
  - apply Permutation_sym, sorted_perm.
  - apply sorted_Sorted.
  - intros f. rewrite <- has_video_extension_iff. split.
    + intros H. apply (Permutation_in f (Permutation_sym (sorted_perm _))) in H.
      apply filter_In in H. destruct H as [Hin Hb].
      apply andb_true_iff in Hb. tauto.
    + intros (Hin & Hf & Hext).
      apply (Permutation_in f (sorted_perm _)).
      apply filter_In. split; [assumption |]. rewrite Hf, Hext. reflexivity.
Qed.

(** ** The node *)

Lemma load_video_cv_counts
    {Frame Image VideoCapture : Type} (B : Backend Frame Image VideoCapture)
    video start_sec end_sec cap max_fps force_size imgs n f w h :
  load_video_cv B video start_sec end_sec cap max_fps force_size = Ok (imgs, n, f, w, h) ->
  n = Z.of_nat (List.length imgs).
Proof.
  intros H. apply load_video_cv_inv in H.
  destruct H as (imgs0 & w0 & h0 & calls & _ & Hp & _ & Hr).
  apply resize_stage_length in Hr. rewrite Hr.
  apply process_video_cap_count in Hp. tauto.
Qed.

Section NodeFacts.

Context {Frame Image VideoCapture : Type}.
Variable N : Node Frame Image VideoCapture.

Lemma load_video_cv_finish video start_sec end_sec cap max_fps force_size :
  cap_isOpened (backend N) (cap_open (backend N) video) = true ->
  load_video_cv (backend N) video start_sec end_sec cap max_fps force_size
  = (r <- process_video_cap (backend N) (cap_open (backend N) video)
            start_sec end_sec cap (Some max_fps) ;;
     finish_load N r force_size).
Proof.
  intros Hopen. unfold load_video_cv. rewrite Hopen. simpl negb. cbv iota.
  destruct (process_video_cap _ _ _ _ _ _) as [[[[[imgs n] f] w] h] | e |]; reflexivity.
Qed.

Lemma finish_load_count r force_size imgs n f w h :
  finish_load N r force_size = Ok (imgs, n, f, w, h) ->
  List.length imgs = List.length (fst (fst (fst (fst r))))
  /\ n = snd (fst (fst (fst r))) /\ imgs <> [].
Proof.
  destruct r as [[[[imgs0 n0] f0] w0] h0]. unfold finish_load. simpl fst. simpl snd.
  destruct imgs0 as [| i0 imgs0]; simpl Nat.eqb; cbv iota; [discriminate |].
  intros H. apply bind_Ok in H. destruct H as ([[[imgs1 w1] h1] calls] & Hr & H).
  injection H as <- <- <- <- <-. apply resize_stage_length in Hr.
  split; [exact Hr | split; [reflexivity |]].
  intros ->. discriminate Hr.
Qed.

Lemma lift_Returned {A : Type} (r : result A) a : lift r = Returned a -> r = Ok a.
Proof. destruct r; simpl; intros H; try discriminate. injection H as <-. reflexivity. Qed.

Lemma download_youtube_video_count url start_sec end_sec cap dir force_size max_fps
    imgs n f w h :
  download_youtube_video N url start_sec end_sec cap dir force_size max_fps
  = Returned (imgs, n, f, w, h) ->
  n = Z.of_nat (List.length imgs) /\ imgs <> [].
Proof.
  unfold download_youtube_video.
  destruct (yt_download N url dir) as [path | cls]; [| discriminate].
  intros H. apply lift_Returned in H.
  apply bind_Ok in H. destruct H as ([[[[imgs0 n0] f0] w0] h0] & Hp & Hf).
  apply process_video_cap_count in Hp. destruct Hp as [Hn _].
  apply finish_load_count in Hf. simpl in Hf. destruct Hf as (Hlen & -> & Hne).
  rewrite Hlen. split; assumption.
Qed.

End NodeFacts.

(** X15.  Once the file is downloaded and its capture opens,
    [download_youtube_video] returns what [load_video_cv] returns on
    the downloaded path; and whatever the capture, a batch it returns
    is not empty and its frame_count is the length of the batch. *)
Theorem download_youtube_video_as_load
    {Frame Image VideoCapture : Type} (N : Node Frame Image VideoCapture)
    youtube_url start_sec end_sec cap output_dir force_size max_fps :
  (forall video_path,
      yt_download N youtube_url output_dir = Downloaded video_path ->
      cap_isOpened (backend N) (cap_open (backend N) video_path) = true ->
      download_youtube_video N youtube_url start_sec end_sec cap output_dir force_size
                             (Some max_fps)
      = lift (load_video_cv (backend N) video_path start_sec end_sec cap max_fps force_size))
  /\ (forall mf imgs n f w h,
        download_youtube_video N youtube_url start_sec end_sec cap output_dir force_size mf
        = Returned (imgs, n, f, w, h) ->
        n = Z.of_nat (List.length imgs) /\ imgs <> []).
Proof.
  split.
  - intros video_path Hd Hopen. unfold download_youtube_video. rewrite Hd.
    rewrite (load_video_cv_finish N _ _ _ _ _ _ Hopen). reflexivity.
  - intros mf imgs n f w h. apply download_youtube_video_count.
Qed.

Lemma download_youtube_video_as_load_witness :
  download_youtube_video sample_node "https://youtu.be/x" PyFloat.zero PyFloat.zero 5
                         None "Disabled" (Some (-1))
  = lift (load_video_cv (backend sample_node) "youtube/clip.mp4"
            PyFloat.zero PyFloat.zero 5 (-1) "Disabled").
Proof.
  apply (proj1 (download_youtube_video_as_load sample_node "https://youtu.be/x"%string
                  PyFloat.zero PyFloat.zero 5 None "Disabled"%string (-1))
               "youtube/clip.mp4"%string); reflexivity.
Defined.

(** X16.  [UltimateVideoLoader.load_video]: whatever the source, the
    frame count returned is the length of the batch returned; and a
    source that is none of "YouTube", "filepath", "fileupload",
    "emptyvideo" makes it fail with UnboundLocalError. *)
Theorem load_video_frame_count
    {Frame Image VideoCapture : Type} (N : Node Frame Image VideoCapture)
    (kwargs : Kwargs.t) :
  (forall imgs n f w h,
      load_video N kwargs = Returned (imgs, n, f, w, h) ->
      n = Z.of_nat (List.length imgs))
  /\ (~ In (Kwargs.source kwargs) ["YouTube"; "filepath"; "fileupload"; "emptyvideo"]%string ->
      load_video N kwargs = Failed (OtherError "UnboundLocalError")).
Proof.
  split.
  - intros imgs n f w h. unfold load_video.
    destruct (String.eqb (Kwargs.source kwargs) "YouTube").
    { intros H. apply download_youtube_video_count in H. tauto. }
    destruct (String.eqb (Kwargs.source kwargs) "filepath").
    { intros H. apply lift_Returned in H.
      eapply load_video_cv_counts. exact H. }
    destruct (String.eqb (Kwargs.source kwargs) "fileupload").
    { intros H. apply lift_Returned in H.
      eapply load_video_cv_counts. exact H. }
    destruct (String.eqb (Kwargs.source kwargs) "emptyvideo"); [| discriminate].
    intros H. apply lift_Returned in H.
    apply bind_Ok in H. destruct H as (images & Hz & H).
    injection H as <- <- _ _ _.
    unfold torch_zeros in Hz.
    destruct (Z.ltb_spec (Kwargs.frame_count kwargs) 0); simpl in Hz; [discriminate |].
    destruct ((Kwargs.height kwargs <? 0) || (Kwargs.width kwargs <? 0)); [discriminate |].
    injection Hz as <-. rewrite repeat_length. lia.
  - intros Hnot. unfold load_video.
    destruct (String.eqb_spec (Kwargs.source kwargs) "YouTube") as [E | _];
      [exfalso; apply Hnot; rewrite E; simpl; tauto |].
    destruct (String.eqb_spec (Kwargs.source kwargs) "filepath") as [E | _];
      [exfalso; apply Hnot; rewrite E; simpl; tauto |].
    destruct (String.eqb_spec (Kwargs.source kwargs) "fileupload") as [E | _];
      [exfalso; apply Hnot; rewrite E; simpl; tauto |].
    destruct (String.eqb_spec (Kwargs.source kwargs) "emptyvideo") as [E | _];
      [exfalso; apply Hnot; rewrite E; simpl; tauto |].
    reflexivity.
Qed.

Lemma load_video_frame_count_witness :
  3 = Z.of_nat (List.length [(0, (64, 64)); (0, (64, 64)); (0, (64, 64))])
  /\ load_video sample_node (sample_kwargs "webcam") = Failed (OtherError "UnboundLocalError").
Proof.
  split.
  - apply (proj1 (load_video_frame_count sample_node (sample_kwargs "emptyvideo"))
                 _ 3 10 64 64).
    vm_compute. reflexivity.
  - apply (proj2 (load_video_frame_count sample_node (sample_kwargs "webcam"))).
    simpl. intros [H | [H | [H | [H | []]]]]; discriminate H.
Defined.

(** X6.  With a spec other than "Disabled", a resize stage that
    returns has the resolved target size as its width and height.
    Either that is the source size, the batch is untouched and no
    resampling call was made; or it differs, exactly one
    [common_upscale] call was made, to that size, and the batch is the
    resampled one. *)
Theorem resize_stage_result
    {Frame Image VideoCapture : Type} (B : Backend Frame Image VideoCapture)
    images width height force_size images' width' height' calls :
  force_size <> "Disabled"%string ->
  resize_stage B images width height force_size = Ok (images', width', height', calls) ->
  target_size width height force_size = Ok (width', height')
  /\ ((width', height') = (width, height) /\ images' = images /\ calls = []
      \/ (width', height') <> (width, height)
         /\ images' = map (lanczos B width' height') images
         /\ calls = [(width', height')]).
Proof.
  intros Hne H. unfold resize_stage in H.
  apply String.eqb_neq in Hne. rewrite Hne in H. simpl negb in H. cbv iota in H.
  apply bind_Ok in H. destruct H as ([w' h'] & Ht & H). simpl fst in H; simpl snd in H.
  destruct (Z.eqb_spec w' width) as [-> | Hw]; simpl in H.
  - destruct (Z.eqb_spec h' height) as [-> | Hh]; simpl in H.
    + injection H as <- <- <- <-. split; [assumption |]. left. repeat split.
    + injection H as <- <- <- <-. split; [assumption |]. right.
      repeat split; try reflexivity. intros E. injection E as E. contradiction.
  - injection H as <- <- <- <-. split; [assumption |]. right.
    repeat split; try reflexivity. intros E. injection E as E _. contradiction.
Qed.

Lemma resize_stage_result_witness :
  target_size 640 480 "?x256" = Ok (344, 256)
  /\ ((344, 256) = (640, 480) /\ [(0, (344, 256))] = [(0, (640, 480))] /\ [(344, 256)] = []
      \/ (344, 256) <> (640, 480)
         /\ [(0, (344, 256))]
            = map (lanczos (Sample.backend Sample.clip) 344 256) [(0, (640, 480))]
         /\ [(344, 256)] = [(344, 256)]).
Proof.
  apply (resize_stage_result (Sample.backend Sample.clip)
           [(0, (640, 480))] 640 480 "?x256"%string [(0, (344, 256))] 344 256 [(344, 256)]).
  - discriminate.
  - vm_compute. reflexivity.
Defined.

(** X11.  For every capture behaviour and every request
    [load_video_cv] comes back: the [while True] loop ends within the
    effective cap, so the load returns a value or raises. *)
Theorem load_video_cv_returns_or_raises
    {Frame Image VideoCapture : Type} (B : Backend Frame Image VideoCapture)
    video start_sec end_sec cap max_fps force_size :
  (exists r, load_video_cv B video start_sec end_sec cap max_fps force_size = Ok r)
  \/ (exists e, load_video_cv B video start_sec end_sec cap max_fps force_size = Raise e).
Proof.
  pose proof (load_video_cv_terminates B video start_sec end_sec cap max_fps force_size) as H.
  destruct (load_video_cv B video start_sec end_sec cap max_fps force_size) as [r | e |].
  - left. exists r. reflexivity.
  - right. exists e. reflexivity.
  - contradiction.
Qed.
